(** * Sharding demo: [controller.py], class [ShardHandler]

    A shallow embedding of the shard / replication controller and the
    properties of its splitter, rebalancer, syncer and word lookup.

    Conventions of the embedding:
    - Python [int] is [Z]; [str] used as a dictionary key or a file name is
      [string]; the text stored in shards is [list ascii];
    - [self.mapping] and the [./data] directory are finite maps ([gmap]);
    - a method is a function from the handler (object fields together with
      the files it owns) to an outcome and the handler it leaves behind, so
      that the state reached when an exception propagates is visible. *)

From Stdlib Require Import ZArith Ascii String List Lia.
From stdpp Require Import base tactics option list list_numbers sorting
  strings pretty gmap fin_maps.

Local Open Scope Z_scope.

(** ** Python primitives *)

Module Py.

(** Exceptions the controller can raise, by Python class; [Exception]
    carries the message of an explicit [raise Exception(...)]. *)
Inductive exn : Type :=
| ZeroDivisionError
| IndexError
| KeyError
| ValueError
| TypeError
| FileNotFoundError
| SameFileError
| Exception (msg : string).

(** Result of evaluating a pure expression that may raise. *)
Inductive res (A : Type) : Type :=
| Ok (a : A)
| Err (e : exn).
Arguments Ok {A} a.
Arguments Err {A} e.

Definition text : Type := list ascii.

(** A text literal. *)
Definition txt (s : string) : text := list_ascii_of_string s.

Definition len {A} (l : list A) : Z := Z.of_nat (length l).

(** Index normalisation of a slice bound: a negative bound counts from
    the end, and the result is clipped to [0, len]. *)
Definition clip (n i : Z) : Z :=
  let i' := if i <? 0 then i + n else i in
  Z.max 0 (Z.min n i').

(** [l[lo:hi]] *)
Definition slice {A} (l : list A) (lo hi : Z) : list A :=
  let lo' := clip (len l) lo in
  let hi' := clip (len l) hi in
  take (Z.to_nat (hi' - lo')) (drop (Z.to_nat lo') l).

(** [l[lo:]] *)
Definition slice_from {A} (l : list A) (lo : Z) : list A :=
  drop (Z.to_nat (clip (len l) lo)) l.

(** [l[i]]: a negative index counts from the end; out of range raises
    [IndexError]. *)
Definition index {A} (l : list A) (i : Z) : res A :=
  let i' := if i <? 0 then i + len l else i in
  if (i' <? 0) || (len l <=? i') then Err IndexError
  else match l !! Z.to_nat i' with
       | Some a => Ok a
       | None => Err IndexError
       end.

(** [range(n)] *)
Definition range (n : Z) : list Z := seqZ 0 n.

(** [enumerate(l)] *)
Definition enumerate {A} (l : list A) : list (Z * A) :=
  zip (range (len l)) l.

(** [c in s] for a one-character [c]. *)
Fixpoint contains (c : ascii) (s : string) : bool :=
  match s with
  | EmptyString => false
  | String a s' => if Ascii.eqb a c then true else contains c s'
  end.

(** [s.split(c)] for a one-character separator: never empty. *)
Fixpoint split (c : ascii) (s : string) : list string :=
  match s with
  | EmptyString => [EmptyString]
  | String a s' =>
      if Ascii.eqb a c then EmptyString :: split c s'
      else match split c s' with
           | piece :: rest => String a piece :: rest
           | [] => [String a EmptyString]
           end
  end.

(** [l[i]] on a list of pieces, for a literal non-negative [i]. *)
Definition nth_piece (l : list string) (i : nat) : res string :=
  match l !! i with
  | Some p => Ok p
  | None => Err IndexError
  end.

(** [str(n)] *)
Definition str (n : Z) : string := pretty n.

(** White space that [int] strips: code points 9 to 13 and 28 to 32. *)
Definition is_space (c : ascii) : bool :=
  let n := Z.of_N (N_of_ascii c) in
  ((9 <=? n) && (n <=? 13)) || ((28 <=? n) && (n <=? 32)).

(** The value of a decimal digit: code points 48 to 57. *)
Definition digit_val (c : ascii) : option Z :=
  let n := Z.of_N (N_of_ascii c) in
  if (48 <=? n) && (n <=? 57) then Some (n - 48) else None.

Definition is_digit (c : ascii) : bool :=
  match digit_val c with Some _ => true | None => false end.

Fixpoint lstrip (l : list ascii) : list ascii :=
  match l with
  | c :: l' => if is_space c then lstrip l' else l
  | [] => []
  end.

Definition strip_space (l : list ascii) : list ascii :=
  rev (lstrip (rev (lstrip l))).

(** The literal accepted after the sign: decimal digits, where single
    underscores may separate digits. [prev] tells whether the previous
    character was a digit. *)
Fixpoint int_body_ok (prev : bool) (l : list ascii) : bool :=
  match l with
  | [] => prev
  | c :: l' =>
      if is_digit c then int_body_ok true l'
      else if Ascii.eqb c "_" then prev && int_body_ok false l'
      else false
  end.

Definition int_body_val (l : list ascii) : Z :=
  fold_left (fun acc c =>
    match digit_val c with Some d => 10 * acc + d | None => acc end) l 0.

(** [int(s)] for a string [s], on ASCII input: surrounding white space,
    an optional sign, then the decimal literal; anything else raises
    [ValueError]. *)
Definition int (s : string) : res Z :=
  let body := strip_space (list_ascii_of_string s) in
  let '(sign, digits) :=
    match body with
    | "+"%char :: r => (1, r)
    | "-"%char :: r => (-1, r)
    | r => (1, r)
    end in
  if int_body_ok false digits then Ok (sign * int_body_val digits)
  else Err ValueError.

(** [max(l)] of integers; [ValueError] on an empty sequence. *)
Definition max (l : list Z) : res Z :=
  match l with
  | [] => Err ValueError
  | x :: l' => Ok (fold_left Z.max l' x)
  end.

(** [sorted(l)] on strings: code-point lexicographic order. *)
Definition sorted (l : list string) : list string :=
  merge_sort String.le l.

(** [a == b] for an [int] and a [str]: values of different types
    never compare equal. *)
Definition eq_int_str (a : Z) (b : string) : bool := false.

End Py.

Import Py.

(** ** The shard splitter: [_generate_sharded_data] (pure; [self] unused) *)

(** [result[-1] += extra] *)
Definition append_to_last (result : list text) (extra : text)
  : res (list text) :=
  match length result with
  | O => Err IndexError
  | S n => Ok (alter (fun piece => piece ++ extra) n result)
  end.

(** [splicenum, rem = divmod(len(data), count)] raises on a zero count;
    Python's floor division and modulo are [Z.div] and [Z.modulo]. *)
Definition _generate_sharded_data (count : Z) (data : text)
  : res (list text) :=
  if count =? 0 then Err ZeroDivisionError
  else
    let splicenum := len data / count in
    let rem := len data mod count in
    let result :=
      map (fun z => slice data (splicenum * z) (splicenum * (z + 1)))
          (range count) in
    if 0 <? rem then append_to_last result (slice_from data (- rem))
    else Ok result.

(** ** The handler and its files *)

(** A mapping entry [{'start': ..., 'end': ...}]. *)
Record meta : Type := Meta { start : Z; end_ : Z }.

Global Instance meta_eq_dec : EqDecision meta.
Proof. solve_decision. Defined.

(** The object fields of [ShardHandler] together with the two places on
    disk it owns: [mapfile] is the content of [mapping.json] ([None] when
    the file does not exist) and [data] the [./data] directory, from file
    name to content ([None] when the directory does not exist). *)
Record ShardHandler : Type := Handler {
  mapping : gmap string meta;
  last_char_position : Z;
  replication_level : Z;
  mapfile : option (gmap string meta);
  data : option (gmap string text)
}.

Definition set_mapping (m : gmap string meta) (s : ShardHandler) :=
  {| mapping := m; last_char_position := last_char_position s;
     replication_level := replication_level s; mapfile := mapfile s;
     data := data s |}.

Definition set_last_char_position (n : Z) (s : ShardHandler) :=
  {| mapping := mapping s; last_char_position := n;
     replication_level := replication_level s; mapfile := mapfile s;
     data := data s |}.

Definition set_replication_level (n : Z) (s : ShardHandler) :=
  {| mapping := mapping s; last_char_position := last_char_position s;
     replication_level := n; mapfile := mapfile s; data := data s |}.

Definition set_mapfile (f : option (gmap string meta)) (s : ShardHandler) :=
  {| mapping := mapping s; last_char_position := last_char_position s;
     replication_level := replication_level s; mapfile := f;
     data := data s |}.

Definition set_data (d : option (gmap string text)) (s : ShardHandler) :=
  {| mapping := mapping s; last_char_position := last_char_position s;
     replication_level := replication_level s; mapfile := mapfile s;
     data := d |}.

(** A method: the outcome and the handler left behind. *)
Definition M (A : Type) : Type := ShardHandler -> res A * ShardHandler.

Global Instance res_ret : MRet res := fun A a => Ok a.
Global Instance res_bind : MBind res := fun A B f r =>
  match r with
  | Ok a => f a
  | Err e => Err e
  end.

Global Instance M_ret : MRet M := fun A a s => (Ok a, s).
Global Instance M_bind : MBind M := fun A B f c s =>
  match c s with
  | (Ok a, s') => f a s'
  | (Err e, s') => (Err e, s')
  end.

Definition raise {A} (e : exn) : M A := fun s => (Err e, s).
Definition lift {A} (r : res A) : M A := fun s => (r, s).
Definition gets {A} (f : ShardHandler -> A) : M A := fun s => (Ok (f s), s).
Definition modify (f : ShardHandler -> ShardHandler) : M unit :=
  fun s => (Ok tt, f s).

Definition pass : M unit := mret tt.

(** [for x in l: body(x)] *)
Fixpoint for_ {A} (l : list A) (body : A -> M unit) : M unit :=
  match l with
  | [] => pass
  | x :: l' => body x ;; for_ l' body
  end.

(** [[f(x) for x in l]] for an [f] that may raise. *)
Fixpoint map_res {A B} (f : A -> res B) (l : list A) : res (list B) :=
  match l with
  | [] => Ok []
  | x :: l' => y ← f x; ys ← map_res f l'; Ok (y :: ys)
  end.

(** *** Keys *)

(** ['-' in key] *)
Definition dashed (key : string) : bool := contains "-" key.

(** [s.split(c)[0]]; [split] never returns an empty list. *)
Definition head_piece (c : ascii) (s : string) : string :=
  match split c s with
  | piece :: _ => piece
  | [] => EmptyString
  end.

(** The keys of a dictionary. Every use below either sorts them or does
    not depend on their order. *)
Definition keys {V} (m : gmap string V) : list string := elements (dom m).

Definition shard_ids (m : gmap string meta) : list string :=
  sorted (filter (fun key => ¬ dashed key) (keys m)).

Definition replication_ids (m : gmap string meta) : list string :=
  sorted (filter (fun key => dashed key) (keys m)).

(** [int(key.split('-')[1])] *)
Definition level_of (key : string) : res Z :=
  p ← nth_piece (split "-" key) 1;
  int p.

(** [f'{shard}-{level}'] and [f'{name}.txt'] *)
Definition replica_key (shard : string) (level : Z) : string :=
  shard +:+ "-" +:+ str level.
Definition txt_file (name : string) : string := name +:+ ".txt".

(** *** Files under [./data] and the map file *)

Definition read_file (name : string) : M text := fun s =>
  match data s with
  | Some d =>
      match d !! name with
      | Some content => (Ok content, s)
      | None => (Err FileNotFoundError, s)
      end
  | None => (Err FileNotFoundError, s)
  end.

Definition write_file (name : string) (content : text) : M unit := fun s =>
  match data s with
  | Some d => (Ok tt, set_data (Some (<[name := content]> d)) s)
  | None => (Err FileNotFoundError, s)
  end.

(** [os.remove] *)
Definition remove_file (name : string) : M unit := fun s =>
  match data s with
  | Some d =>
      match d !! name with
      | Some _ => (Ok tt, set_data (Some (delete name d)) s)
      | None => (Err FileNotFoundError, s)
      end
  | None => (Err FileNotFoundError, s)
  end.

(** [shutil.copyfile] *)
Definition copyfile (src dst : string) : M unit :=
  content ← read_file src;
  if decide (src = dst) then raise SameFileError
  else write_file dst content.

(** [self.mapping[key]] *)
Definition mapping_item (key : string) : M meta := fun s =>
  match mapping s !! key with
  | Some v => (Ok v, s)
  | None => (Err KeyError, s)
  end.

(** [self.mapping[key] = v] *)
Definition mapping_set (key : string) (v : meta) : M unit :=
  modify (fun s => set_mapping (<[key := v]> (mapping s)) s).

(** [self.mapping.pop(key)] *)
Definition mapping_pop (key : string) : M unit := fun s =>
  match mapping s !! key with
  | Some _ => (Ok tt, set_mapping (delete key (mapping s)) s)
  | None => (Err KeyError, s)
  end.

Definition write_map : M unit :=
  modify (fun s => set_mapfile (Some (mapping s)) s).

Definition load_map : M (gmap string meta) :=
  gets (fun s => default ∅ (mapfile s)).

Definition _reset_char_position : M unit :=
  modify (set_last_char_position 0).

Definition get_shard_ids : M (list string) :=
  gets (fun s => shard_ids (mapping s)).

Definition get_replication_ids : M (list string) :=
  gets (fun s => replication_ids (mapping s)).

(** [find_highest_replication_level], on the mapping just loaded. *)
Definition find_highest_replication_level (m : gmap string meta) : res Z :=
  levels ← map_res level_of (filter (fun key => dashed key) (keys m));
  match levels with
  | [] => Ok 0
  | _ => max levels
  end.

(** [ShardHandler()] over the files found on disk. *)
Definition new_handler (mapfile0 : option (gmap string meta))
    (data0 : option (gmap string text)) : res ShardHandler :=
  let m := default ∅ mapfile0 in
  level ← find_highest_replication_level m;
  Ok {| mapping := m; last_char_position := 0; replication_level := level;
        mapfile := mapfile0; data := data0 |}.

(** *** Writing shards *)

Definition _write_shard_mapping (num : string) (d : text)
    (replication : bool) : M unit :=
  if replication then
    (* [num.index('-')] raises when there is no dash; a missing parent
       makes [parent_shard] [None], which is not subscriptable *)
    (if dashed num then pass else raise ValueError);;
    parent_shard ← gets (fun s => mapping s !! head_piece "-" num);
    match parent_shard with
    | Some p => mapping_set num {| start := start p; end_ := end_ p |}
    | None => raise TypeError
    end
  else
    n ← lift (int num);
    (if n =? 0 then _reset_char_position else pass);;
    pos ← gets last_char_position;
    mapping_set num {| start := (if pos =? 0 then pos else pos + 1);
                       end_ := pos + len d |};;
    modify (fun s => set_last_char_position (last_char_position s + len d) s).

Definition _write_shard (num : Z) (d : text) : M unit :=
  modify (fun s => match data s with
                   | None => set_data (Some ∅) s
                   | Some _ => s
                   end);;
  write_file (txt_file (str num)) d;;
  _write_shard_mapping (str num) d false.

Definition already_sharded : string :=
  "Cannot build shard setup -- sharding already exists.".

Definition build_shards (count : Z) (d : text) : M (option string) :=
  m ← gets mapping;
  if decide (m = ∅) then
    spliced_data ← lift (_generate_sharded_data count d);
    for_ (enumerate spliced_data) (fun '(num, piece) => _write_shard num piece);;
    write_map;;
    mret None
  else mret (Some already_sharded).

Fixpoint read_all (ids : list string) : M (list text) :=
  match ids with
  | [] => mret []
  | db :: ids' =>
      content ← read_file (txt_file db);
      rest ← read_all ids';
      mret (content :: rest)
  end.

Definition load_data_from_shards : M text :=
  ids ← get_shard_ids;
  result ← read_all ids;
  mret (concat result).

(** ** Methods that list the [./data] directory

    [os.listdir] returns the names in an arbitrary order. The order is a
    parameter [listdir] of the model; the properties that need it assume
    only that it enumerates the names of the directory. *)

Section Controller.

Variable listdir : gmap string text -> list string.

(** [os.listdir('./data')] *)
Definition listdir_data : M (list string) := fun s =>
  match data s with
  | Some d => (Ok (listdir d), s)
  | None => (Err FileNotFoundError, s)
  end.

(** The loop of [primary_files_okay] over [zip(primary_files,
    primary_keys)]: some pair disagrees. *)
Definition stems_differ (primary_files primary_keys : list string) : bool :=
  existsb (fun '(file, key) => negb (bool_decide (head_piece "." file = key)))
          (zip primary_files primary_keys).

Definition primary_files_okay : M bool :=
  files ← listdir_data;
  primary_keys ← get_shard_ids;
  let primary_files := sorted (filter (fun file => ¬ dashed file) files) in
  if stems_differ primary_files primary_keys then mret false
  else mret (bool_decide (length primary_files = length primary_keys)).

(** The dictionary built by [create_replication_dict], in insertion
    order. *)
Fixpoint dict_append (level : Z) (key : string)
    (d : list (Z * list string)) : list (Z * list string) :=
  match d with
  | [] => [(level, [key])]
  | (l, ks) :: d' =>
      if l =? level then (l, ks ++ [key]) :: d'
      else (l, ks) :: dict_append level key d'
  end.

Fixpoint group_by_level (ids : list string) (d : list (Z * list string))
  : res (list (Z * list string)) :=
  match ids with
  | [] => Ok d
  | key :: ids' =>
      key_level ← level_of key;
      group_by_level ids' (dict_append key_level key d)
  end.

Definition create_replication_dict : M (list (Z * list string)) :=
  ids ← get_replication_ids;
  lift (group_by_level ids []).

(** [rep_key.split('-')[0] != primary_key] for some zipped pair. *)
Definition rep_keys_differ (rep_keys primary_keys : list string) : bool :=
  existsb (fun '(rep_key, primary_key) =>
             negb (bool_decide (head_piece "-" rep_key = primary_key)))
          (zip rep_keys primary_keys).

(** [level] is an [int] and [filename.split('-')[1]] a [str]. *)
Definition rep_level_has_same_keys (rep_keys primary_keys : list string)
    (level : Z) : M bool :=
  if negb (bool_decide (length rep_keys = length primary_keys))
  then mret false
  else if rep_keys_differ rep_keys primary_keys then mret false
  else
    all_files ← listdir_data;
    let files := filter (fun filename => dashed filename) all_files in
    let level_files :=
      List.filter (fun filename =>
        match split "-" filename !! 1%nat with
        | Some piece => eq_int_str level piece
        | None => false
        end) files in
    if negb (bool_decide (length level_files = length primary_keys))
    then mret false
    else mret true.

(** The three loop bodies of [update_replicated_levels]. *)
Definition align_replica (key : string) : M unit :=
  let key_name := head_piece "-" key in
  v ← mapping_item key_name;
  mapping_set key v.

Definition regenerate_replica (level : Z) (primary_key : string) : M unit :=
  v ← mapping_item primary_key;
  mapping_set (replica_key primary_key level) v;;
  copyfile (txt_file primary_key) (txt_file (replica_key primary_key level)).

Definition reconcile_level (primary_keys : list string)
    (entry : Z * list string) : M unit :=
  let '(level, rep_keys) := entry in
  same ← rep_level_has_same_keys rep_keys primary_keys level;
  if (same : bool) then pass
  else for_ primary_keys (regenerate_replica level).

Definition update_replicated_levels : M unit :=
  ids ← get_replication_ids;
  for_ ids align_replica;;
  primary_keys ← get_shard_ids;
  levels ← create_replication_dict;
  for_ levels (reconcile_level primary_keys);;
  write_map.

(** The inner loop of [restore_primary_files]: copy the first replica
    file whose shard number is [i] onto [i.txt], then [break]. *)
Fixpoint copy_first_replica (i : Z) (other_files : list string) : M unit :=
  match other_files with
  | [] => pass
  | other_file :: rest =>
      n ← lift (int (head_piece "-" other_file));
      if i =? n then copyfile other_file (txt_file (str i))
      else copy_first_replica i rest
  end.

(** One pass of the [while] loop of [restore_primary_files]. *)
Definition restore_pass : M unit :=
  files ← listdir_data;
  let primary_files := filter (fun file => ¬ dashed file) files in
  let other_files := filter (fun file => dashed file) files in
  primary_file_numbers ←
    lift (map_res (fun file => int (head_piece "." file)) primary_files);
  other_file_numbers ←
    lift (map_res (fun file => int (head_piece "-" file)) other_files);
  other_files_num ← lift (max other_file_numbers);
  (if match max primary_file_numbers with
      | Ok last_primary_file_num => last_primary_file_num <? other_files_num
      | Err _ => true   (* [not primary_files] *)
      end
   then
     match last other_files with
     | Some other_file => copyfile other_file (txt_file (str other_files_num))
     | None => raise IndexError
     end
   else pass);;
  for_ (enumerate primary_files) (fun '(i, file) =>
    n ← lift (int (head_piece "." file));
    if negb (i =? n) then copy_first_replica i other_files else pass).

(** The [while not self.primary_files_okay() and x > 0] loop; [x] only
    decreases, so it is the recursion measure. *)
Fixpoint restore_loop (x : nat) : M unit :=
  okay ← primary_files_okay;
  match x with
  | O => pass
  | S x' => if (okay : bool) then pass else restore_pass;; restore_loop x'
  end.

Definition restore_primary_files : M unit :=
  files ← listdir_data;
  restore_loop (length files);;
  okay ← primary_files_okay;
  if (okay : bool) then pass
  else raise (Exception "Missing files cannot be recoved").

Definition sync_replication : M unit :=
  okay ← primary_files_okay;
  (if (okay : bool) then pass else restore_primary_files);;
  update_replicated_levels.

Definition add_shard : M unit :=
  sync_replication;;
  m ← load_map;
  modify (set_mapping m);;
  d ← load_data_from_shards;
  ids ← get_shard_ids;
  nums ← lift (map_res int ids);
  largest ← lift (max nums);
  let new_shard_num := largest + 2 in
  spliced_data ← lift (_generate_sharded_data new_shard_num d);
  for_ (enumerate spliced_data) (fun '(num, piece) => _write_shard num piece);;
  write_map;;
  sync_replication.

Definition remove_shard : M unit :=
  sync_replication;;
  m ← load_map;
  modify (set_mapping m);;
  d ← load_data_from_shards;
  ids ← get_shard_ids;
  nums ← lift (map_res int ids);
  (if bool_decide (length nums = 1%nat)
   then raise (Exception "Cannot remove last shard") else pass);;
  new_shard_num ← lift (max nums);
  spliced_data ← lift (_generate_sharded_data new_shard_num d);
  files ← listdir_data;
  for_ files (fun filename =>
    if negb (dashed filename) then
      if bool_decide (str new_shard_num = head_piece "." filename)
      then remove_file filename else pass
    else
      if bool_decide (str new_shard_num = head_piece "-" filename)
      then remove_file filename else pass);;
  all_keys ← gets (fun s => keys (mapping s));
  for_ all_keys (fun key =>
    if negb (dashed key) then
      if bool_decide (key = str new_shard_num)
      then mapping_pop key else pass
    else
      if bool_decide (head_piece "-" key = str new_shard_num)
      then mapping_pop key else pass);;
  for_ (enumerate spliced_data) (fun '(num, piece) => _write_shard num piece);;
  write_map;;
  sync_replication.

Definition add_replication : M unit :=
  sync_replication;;
  modify (fun s => set_replication_level (replication_level s + 1) s);;
  level ← gets replication_level;
  files ← listdir_data;
  let originals := sorted (filter (fun filename => ¬ dashed filename) files) in
  for_ (enumerate originals) (fun '(i, file) =>
    copyfile file (txt_file (replica_key (str i) level)));;
  ids ← get_shard_ids;
  for_ (enumerate ids) (fun '(i, key) =>
    v ← mapping_item key;
    mapping_set (replica_key (str i) level) v);;
  write_map;;
  sync_replication.

Definition remove_replication : M unit :=
  sync_replication;;
  level ← gets replication_level;
  (if level =? 0
   then raise (Exception "No replication levels to remove.") else pass);;
  modify (fun s => set_replication_level (replication_level s - 1) s);;
  level ← gets replication_level;
  ids ← get_replication_ids;
  backup_keys ← lift (map_res (fun key =>
                   n ← level_of key;
                   Ok (key, bool_decide (level < n))) ids);
  for_ (filter (fun kb => snd kb = true) backup_keys) (fun '(key, _) =>
    mapping_pop key;;
    remove_file (txt_file key));;
  write_map;;
  sync_replication.

End Controller.

(** ** The lookup engine: [get_word_at_index] *)

(** The characters of the set the lookup skips and strips: space, comma,
    period, question mark, exclamation mark, double quote, semicolon. *)
Definition punctuation : list ascii :=
  [" "; ","; "."; "?"; "!"; "034"; ";"]%char.

Definition is_punctuation (c : ascii) : bool :=
  bool_decide (c ∈ punctuation).

Definition is_blank (c : ascii) : bool := Ascii.eqb c " ".

(** [s.strip(...)] with that set *)
Fixpoint lstrip_punctuation (l : text) : text :=
  match l with
  | c :: l' => if is_punctuation c then lstrip_punctuation l' else l
  | [] => []
  end.

Definition strip_punctuation (l : text) : text :=
  rev (lstrip_punctuation (rev (lstrip_punctuation l))).

(** [s.replace(c, '')] for a one-character [c]. *)
Definition remove_char (c : ascii) (l : text) : text :=
  List.filter (fun a => negb (Ascii.eqb a c)) l.

(** The loop of [from_previous_file]. [last_index] runs from
    [len(text) - 1] down through the negative indices, so the characters
    it reads are the text backwards, twice; [visited] is what is left of
    them, and the read that follows raises [IndexError]. *)
Fixpoint scan_backwards (visited : text) (string : text) : res text :=
  match visited with
  | [] => Err IndexError
  | last_char :: rest =>
      if is_blank last_char then Ok string
      else scan_backwards rest (last_char :: string)
  end.

Definition from_previous_file (file : string) : M text :=
  content ← read_file file;
  lift (scan_backwards (rev content ++ rev content) []).

(** The loop of [from_following_file]: [visited] is the text from
    [first_index] on. *)
Fixpoint scan_forwards (visited : text) (string : text) : res text :=
  match visited with
  | [] => Err IndexError
  | first_char :: rest =>
      if is_blank first_char then Ok string
      else scan_forwards rest (string ++ [first_char])
  end.

Definition from_following_file (file : string) : M text :=
  content ← read_file file;
  lift (scan_forwards content []).

(** [while start_char in <the set>: new_index += 1; ...], for a
    non-negative [new_index]; [suffix] is [text[new_index:]]. *)
Fixpoint skip_punctuation (suffix : text) (new_index : Z) : res Z :=
  match suffix with
  | [] => Err IndexError
  | start_char :: rest =>
      if is_punctuation start_char then skip_punctuation rest (new_index + 1)
      else Ok new_index
  end.

(** [while before_index != 0 and text[before_index] != ' ': ...] *)
Fixpoint expand_left (content : text) (before_index : nat) (string : text)
  : res (nat * text) :=
  match before_index with
  | O => Ok (O, string)
  | S b =>
      c ← index content (Z.of_nat before_index);
      if is_blank c then Ok (before_index, string)
      else
        before_char ← index content (Z.of_nat b);
        expand_left content b (before_char :: string)
  end.

(** [while after_index != len(text) - 1 and text[after_index] != ' ': ...];
    [cur] is [text[after_index]] and [rest] is [text[after_index + 1:]]. *)
Fixpoint expand_right (cur : ascii) (rest : text) (after_index : Z)
    (string : text) : Z * text :=
  match rest with
  | [] => (after_index, string)
  | after_char :: rest' =>
      if is_blank cur then (after_index, string)
      else expand_right after_char rest' (after_index + 1)
                        (string ++ [after_char])
  end.

(** The body of the loop of [get_word_at_index] once [key] is selected;
    [new_index] is not negative there. *)
Definition word_in_shard (key : string) (largest_key : Z) (new_index : Z)
  : M (string * text) :=
  content ← read_file (txt_file key);
  _ ← lift (index content new_index);
  new_index ← lift (skip_punctuation (drop (Z.to_nat new_index) content)
                                     new_index);
  c ← lift (index content new_index);
  '(before_index, string) ←
    lift (expand_left content (Z.to_nat new_index) [c]);
  string ←
    (if bool_decide (before_index = O) then
       n ← lift (int key);
       before_string ← from_previous_file (txt_file (str (n - 1)));
       mret (before_string ++ string)
     else mret string);
  let '(after_index, string) :=
    expand_right c (drop (S (Z.to_nat new_index)) content) new_index string in
  string ←
    (if bool_decide (after_index = len content - 1)
        && negb (bool_decide (key = str largest_key)) then
       n ← lift (int key);
       after_string ← from_following_file (txt_file (str (n + 1)));
       mret (string ++ after_string)
     else mret string);
  mret (txt_file key,
        remove_char "." (remove_char "010" (strip_punctuation string))).

(** [for key in keys: if start <= index <= end: ... return ...]; falling
    off the loop returns [None]. *)
Fixpoint find_word (index : Z) (largest_key : Z) (ids : list string)
  : M (option (string * text)) :=
  match ids with
  | [] => mret None
  | key :: ids' =>
      entry ← mapping_item key;
      if (start entry <=? index) && (index <=? end_ entry) then
        w ← word_in_shard key largest_key (index - start entry);
        mret (Some w)
      else find_word index largest_key ids'
  end.

Definition get_word_at_index (index : Z) : M (option (string * text)) :=
  ids ← get_shard_ids;
  nums ← lift (map_res int ids);
  largest_key ← lift (max nums);
  find_word index largest_key ids.

(** ** Concrete directory listings and handlers used in examples *)

(** A listing in ascending name order. *)
Definition listdir_sorted (d : gmap string text) : list string :=
  sorted (elements (dom d)).

(** A listing in descending name order. *)
Definition listdir_reversed (d : gmap string text) : list string :=
  rev (sorted (elements (dom d))).

(** A handler created where neither [mapping.json] nor [./data] exists. *)
Definition fresh : ShardHandler :=
  {| mapping := ∅; last_char_position := 0; replication_level := 0;
     mapfile := None; data := None |}.

(** The content of the file [name] under [./data], if it exists. *)
Definition file (s : ShardHandler) (name : string) : option text :=
  d ← data s; d !! name.

(** The handler a method leaves behind, and its outcome. *)
Definition after {A} (c : M A) (s : ShardHandler) : ShardHandler := snd (c s).
Definition outcome {A} (c : M A) (s : ShardHandler) : res A := fst (c s).

(** ** Vocabulary of the properties *)

(** The characters of [str n], for a natural [n]: a non-empty run of
    decimal digits. *)
Definition numeral (l : list ascii) : Prop :=
  l <> [] /\ Forall (fun c => is_digit c = true) l.

(** Some replica entry of the mapping is at level [l]. *)
Definition level_recorded (m : gmap string meta) (l : Z) : Prop :=
  exists key, key ∈ replication_ids m /\ level_of key = Ok l.

(** The replica of [shard] at [level] exists in the mapping and on disk,
    with the entry and the content of its primary. *)
Definition mirrored (s : ShardHandler) (shard : string) (level : Z) : Prop :=
  exists entry d content,
    mapping s !! shard = Some entry
    /\ mapping s !! replica_key shard level = Some entry
    /\ data s = Some d
    /\ d !! txt_file shard = Some content
    /\ d !! txt_file (replica_key shard level) = Some content.

(** Every replica entry of the mapping equals the entry of its shard. *)
Definition aligned (m : gmap string meta) : Prop :=
  forall key, dashed key = true -> is_Some (m !! key) ->
    m !! key = m !! head_piece "-" key.

(** [s'] differs from [s] at most in replica entries, replica files and
    the map file. *)
Definition primaries_untouched (s s' : ShardHandler) : Prop :=
  last_char_position s' = last_char_position s
  /\ replication_level s' = replication_level s
  /\ (forall key, dashed key = false -> mapping s' !! key = mapping s !! key)
  /\ match data s, data s' with
     | Some d, Some d' =>
         forall file, dashed file = false -> d' !! file = d !! file
     | None, None => True
     | _, _ => False
     end.

(** [s'] differs from [s] at most in the files under [./data]. *)
Definition only_files_changed (s s' : ShardHandler) : Prop :=
  s' = set_data (data s') s.

(** The mapping entries and the files that the loop over
    [enumerate(spliced_data)] writes, from shard [num] on, when the
    running offset is [pos]. *)
Fixpoint shard_entries (num pos : Z) (pieces : list text)
  : list (string * meta) :=
  match pieces with
  | [] => []
  | piece :: rest =>
      (str num, {| start := (if pos =? 0 then pos else pos + 1);
                   end_ := pos + len piece |})
      :: shard_entries (num + 1) (pos + len piece) rest
  end.

Fixpoint shard_files (num : Z) (pieces : list text)
  : list (string * text) :=
  match pieces with
  | [] => []
  | piece :: rest => (txt_file (str num), piece) :: shard_files (num + 1) rest
  end.

(** The handler after that loop. *)
Definition shards_written (num : Z) (pieces : list text) (s : ShardHandler)
  : ShardHandler :=
  match pieces with
  | [] => s
  | _ =>
      let pos := if num =? 0 then 0 else last_char_position s in
      {| mapping := list_to_map (shard_entries num pos pieces) ∪ mapping s;
         last_char_position := pos + len (concat pieces);
         replication_level := replication_level s;
         mapfile := mapfile s;
         data := Some (list_to_map (shard_files num pieces)
                       ∪ default ∅ (data s)) |}
  end.

(** The handler after [build_shards] has written [pieces]. *)
Definition built (pieces : list text) (s : ShardHandler) : ShardHandler :=
  let t := shards_written 0 pieces s in
  set_mapfile (Some (mapping t)) t.

(** [s'] has every mapping entry of [s], possibly with another value, and
    the replication level of [s]. *)
Definition mapping_grows (s s' : ShardHandler) : Prop :=
  (forall key, is_Some (mapping s !! key) -> is_Some (mapping s' !! key))
  /\ replication_level s' = replication_level s.

(** What the data model asks of a handler: a replication level that is
    not negative, at least one primary shard, and every level from 1 to
    the replication level recorded in the mapping. *)
Definition well_formed (s : ShardHandler) : Prop :=
  0 <= replication_level s
  /\ shard_ids (mapping s) <> []
  /\ forall level, 1 <= level <= replication_level s ->
       level_recorded (mapping s) level.

(** The handlers reached from a fresh one by a build with a positive
    count followed by operations that complete. *)
Inductive reachable (listdir : gmap string text -> list string)
  : ShardHandler -> Prop :=
| reachable_build count d s :
    1 <= count ->
    build_shards count d fresh = (Ok None, s) ->
    reachable listdir s
| reachable_sync s s' :
    reachable listdir s ->
    sync_replication listdir s = (Ok tt, s') ->
    reachable listdir s'
| reachable_add_shard s s' :
    reachable listdir s ->
    add_shard listdir s = (Ok tt, s') ->
    reachable listdir s'
| reachable_remove_shard s s' :
    reachable listdir s ->
    remove_shard listdir s = (Ok tt, s') ->
    reachable listdir s'
| reachable_add_replication s s' :
    reachable listdir s ->
    add_replication listdir s = (Ok tt, s') ->
    reachable listdir s'
| reachable_remove_replication s s' :
    reachable listdir s ->
    remove_replication listdir s = (Ok tt, s') ->
    reachable listdir s'.

(** ** The handler that holds given pieces *)

(** The replicas of [primaries] (mapping entries or file contents, by
    shard key) at the levels 1 to [L]. *)
Definition replicated {V} (L : Z) (primaries : list (string * V))
  : list (string * V) :=
  '(key, v) ← primaries; (fun l => (replica_key key l, v)) <$> seqZ 1 L.

(** The content of every shard, by shard key. *)
Definition shard_contents (pieces : list text) : list (string * text) :=
  zip (str <$> seqZ 0 (len pieces)) pieces.

(** The handler whose shards 0, 1, ... hold [pieces], with [L] replication
    levels and nothing else: the entries that writing the pieces in order
    records, a replica entry and a replica file for every shard at every
    level from 1 to [L], and the map file written. [pos] is the running
    offset the handler was left with. *)
Definition layout (pos : Z) (pieces : list text) (L : Z) : ShardHandler :=
  let entries := shard_entries 0 0 pieces in
  let contents := shard_contents pieces in
  let m := list_to_map (entries ++ replicated L entries) in
  {| mapping := m;
     last_char_position := pos;
     replication_level := L;
     mapfile := Some m;
     data := Some (list_to_map (prod_map txt_file id
                                  <$> contents ++ replicated L contents)) |}.

(** ** Shard information: [get_shard_data] and [get_all_shard_data] *)

(** What [get_shard_data] returns: the mapping itself, or a message. *)
Inductive shard_data : Type :=
| AllShards (m : gmap string meta)
| Message (msg : string).

Definition get_all_shard_data : M (gmap string meta) := gets mapping.

(** [repr] of a string whose characters are code points below 256: in
    single quotes, unless it holds a single quote and no double quote;
    the backslash and the quote in use are escaped, tab, newline and
    carriage return are written [\t], [\n] and [\r], and any other
    character that is not printable is written [\xhh]. *)
Definition hex_digit (n : N) : ascii :=
  nth (N.to_nat n) (txt "0123456789abcdef") "0"%char.

Definition printable (n : N) : bool :=
  ((32 <=? n) && (n <=? 126) || (161 <=? n) && negb (n =? 173))%N.

Definition repr_char (quote c : ascii) : string :=
  let n := N_of_ascii c in
  if Ascii.eqb c "092" || Ascii.eqb c quote then String "092" (String c "")
  else if (n =? 9)%N then String "092" "t"
  else if (n =? 10)%N then String "092" "n"
  else if (n =? 13)%N then String "092" "r"
  else if printable n then String c ""
  else String "092" (String "x" (String (hex_digit (n / 16))
                                        (String (hex_digit (n mod 16)) ""))).

Definition repr_str (s : string) : string :=
  let quote : ascii :=
    if contains "'" s && negb (contains "034" s) then "034"%char
    else "'"%char in
  String quote
    (String.concat "" (repr_char quote <$> list_ascii_of_string s)
     +:+ String quote "").

(** [repr] of a list of strings and of a mapping entry. *)
Definition repr_list (l : list string) : string :=
  "[" +:+ String.concat ", " (repr_str <$> l) +:+ "]".

Definition repr_meta (e : meta) : string :=
  "{'start': " +:+ str (start e) +:+ ", 'end': " +:+ str (end_ e) +:+ "}".

(** [get_shard_data(shardnum)] for a string or no argument; [None] stands
    for the default argument, and the empty string is as falsy as [None].
    An entry of the mapping is a dictionary of two keys, so [not data]
    holds of a missing key only. *)
Definition get_shard_data (shardnum : option string) : M shard_data :=
  match shardnum with
  | Some (String c k) =>
      let shardnum := String c k in
      entry ← gets (fun s => mapping s !! shardnum);
      match entry with
      | None =>
          ids ← get_shard_ids;
          mret (Message ("Invalid shard ID. Valid shard IDs: "
                         +:+ repr_list ids))
      | Some e =>
          mret (Message ("Shard " +:+ shardnum +:+ ": " +:+ repr_meta e))
      end
  | _ =>
      all ← get_all_shard_data;
      mret (AllShards all)
  end.

(** A method that leaves the handler as it is, whatever it returns. *)
Definition read_only {A} (c : M A) : Prop :=
  forall s r s', c s = (r, s') -> s' = s.

(** * Properties *)

(** ** Slicing and the splitter *)

Lemma clip_in_range (n i : Z) : 0 <= i <= n -> clip n i = i.
Proof. intros Hi. unfold clip. destruct (Z.ltb_spec i 0); lia. Qed.

Lemma slice_take_drop {A} (l : list A) (lo hi : Z) :
  0 <= lo <= hi -> hi <= len l ->
  slice l lo hi = take (Z.to_nat (hi - lo)) (drop (Z.to_nat lo) l).
Proof.
  intros Hlo Hhi. unfold slice.
  rewrite !clip_in_range by lia. reflexivity.
Qed.

Lemma slice_from_negative {A} (l : list A) (k : Z) :
  0 < k <= len l -> slice_from l (- k) = drop (Z.to_nat (len l - k)) l.
Proof.
  intros Hk. unfold slice_from, clip.
  destruct (Z.ltb_spec (- k) 0); [|lia].
  do 2 f_equal. lia.
Qed.

(** The first [n] slices of width [w] make up the first [w * n]
    characters. *)
Lemma concat_slices {A} (l : list A) (w : Z) (n : nat) :
  0 <= w -> w * Z.of_nat n <= len l ->
  concat (map (fun z => slice l (w * z) (w * (z + 1))) (seqZ 0 (Z.of_nat n)))
  = take (Z.to_nat (w * Z.of_nat n)) l.
Proof.
  intros Hw. induction n as [|n IH]; intros Hn.
  - rewrite Z.mul_0_r. reflexivity.
  - rewrite seqZ_S, map_app, concat_app, IH by lia. simpl.
    rewrite app_nil_r, slice_take_drop by lia.
    rewrite take_take_drop. f_equal. lia.
Qed.

Lemma alter_last {A} (f : A -> A) (l : list A) (x : A) :
  alter f (length l) (l ++ [x]) = l ++ [f x].
Proof. induction l as [|y l IH]; simpl; [reflexivity|]. f_equal. exact IH. Qed.

Lemma append_to_last_snoc (l : list text) (x extra : text) :
  append_to_last (l ++ [x]) extra = Ok (l ++ [x ++ extra]).
Proof.
  unfold append_to_last. rewrite length_app. simpl.
  replace (length l + 1)%nat with (S (length l)) by lia.
  by rewrite alter_last.
Qed.

(** What the splitter returns for a positive count: [count - 1] slices of
    width [len data / count], then the rest of the text. *)
Lemma _generate_sharded_data_positive (count : Z) (d : text) :
  1 <= count ->
  let w := len d / count in
  _generate_sharded_data count d
  = Ok (map (fun z => slice d (w * z) (w * (z + 1))) (seqZ 0 (count - 1))
        ++ [drop (Z.to_nat (w * (count - 1))) d]).
Proof.
  intros Hc w. unfold _generate_sharded_data, range.
  destruct (Z.eqb_spec count 0) as [|_]; [lia|]. fold w.
  assert (Hw : 0 <= w) by (apply Z.div_pos; unfold len; lia).
  assert (Hdm : len d = count * w + len d mod count)
    by (apply Z.div_mod; lia).
  assert (Hm : 0 <= len d mod count < count) by (apply Z.mod_pos_bound; lia).
  assert (Hseq : seqZ 0 count = seqZ 0 (count - 1) ++ [count - 1]).
  { replace count with (Z.of_nat (S (Z.to_nat (count - 1)))) at 1 by lia.
    rewrite seqZ_S. do 2 f_equal; lia. }
  rewrite Hseq, map_app. simpl.
  replace (count - 1 + 1) with count by lia.
  assert (Ha : 0 <= w * (count - 1)) by nia.
  assert (Hb : w * count = w * (count - 1) + w) by ring.
  assert (Hc' : count * w = w * count) by ring.
  rewrite (slice_take_drop d (w * (count - 1)) (w * count)) by lia.
  destruct (Z.ltb_spec 0 (len d mod count)) as [Hrem|Hrem].
  - rewrite append_to_last_snoc, slice_from_negative by lia.
    do 3 f_equal.
    rewrite <- (take_drop (Z.to_nat (w * count - w * (count - 1)))
                  (drop (Z.to_nat (w * (count - 1))) d)) at 2.
    f_equal. rewrite drop_drop. f_equal. lia.
  - do 3 f_equal. apply take_ge. rewrite length_drop. unfold len in *. lia.
Qed.

(** ** Keys, file names and decimal numerals *)

Lemma contains_app (c : ascii) (a b : string) :
  contains c (a +:+ b) = contains c a || contains c b.
Proof.
  induction a as [|x a IH]; simpl; [reflexivity|].
  destruct (Ascii.eqb x c); [reflexivity|exact IH].
Qed.

Lemma split_no_sep (c : ascii) (s : string) :
  contains c s = false -> split c s = [s].
Proof.
  induction s as [|x s IH]; simpl; [reflexivity|].
  destruct (Ascii.eqb x c); [discriminate|].
  intros H. by rewrite IH.
Qed.

Lemma split_app_sep (c : ascii) (a b : string) :
  contains c a = false ->
  split c (a +:+ String c b) = a :: split c b.
Proof.
  induction a as [|x a IH]; simpl.
  - by rewrite Ascii.eqb_refl.
  - destruct (Ascii.eqb x c); [discriminate|].
    intros H. by rewrite IH.
Qed.

Lemma head_piece_app_sep (c : ascii) (a b : string) :
  contains c a = false -> head_piece c (a +:+ String c b) = a.
Proof. intros H. unfold head_piece. by rewrite split_app_sep. Qed.

Lemma string_app_cons (x : ascii) (a b : string) :
  String x a +:+ b = String x (a +:+ b).
Proof. reflexivity. Qed.

Lemma string_app_assoc (a b c : string) : (a +:+ b) +:+ c = a +:+ b +:+ c.
Proof.
  induction a as [|x a IH]; [reflexivity|].
  rewrite !string_app_cons. by rewrite IH.
Qed.

Lemma chars_app (a b : string) :
  list_ascii_of_string (a +:+ b)
  = list_ascii_of_string a ++ list_ascii_of_string b.
Proof.
  induction a as [|x a IH]; [reflexivity|].
  rewrite string_app_cons. simpl. by rewrite IH.
Qed.

Lemma contains_chars (c : ascii) (s : string) :
  contains c s = true <-> c ∈ list_ascii_of_string s.
Proof.
  induction s as [|x s IH]; simpl.
  - split; [discriminate|]. by intros ?%elem_of_nil.
  - rewrite elem_of_cons. destruct (Ascii.eqb_spec x c) as [->|Hne].
    + split; auto.
    + rewrite IH. split; [auto|]. intros [->|?]; [done|assumption].
Qed.

Lemma dashed_replica_key (shard : string) (level : Z) :
  dashed (replica_key shard level) = true.
Proof.
  unfold dashed, replica_key. rewrite contains_app. simpl.
  by rewrite orb_true_r.
Qed.

Lemma dashed_txt_file (name : string) :
  dashed (txt_file name) = dashed name.
Proof. unfold dashed, txt_file. rewrite contains_app. apply orb_false_r. Qed.

Lemma head_piece_replica_key (shard : string) (level : Z) :
  dashed shard = false -> head_piece "-" (replica_key shard level) = shard.
Proof. intros H. by apply head_piece_app_sep. Qed.

Global Instance txt_file_inj : Inj (=) (=) txt_file.
Proof.
  intros a b H. unfold txt_file in H.
  revert b H. induction a as [|x a IH]; intros [|y b] H.
  - reflexivity.
  - exfalso. rewrite string_app_cons in H. injection H as Hc Ht.
    destruct b as [|z [|z' [|z'' b]]]; try discriminate.
    rewrite !string_app_cons in Ht. injection Ht as _ _ _ Ht.
    destruct b; discriminate.
  - exfalso. rewrite string_app_cons in H. injection H as Hc Ht.
    destruct a as [|z [|z' [|z'' a]]]; try discriminate.
    rewrite !string_app_cons in Ht. injection Ht as _ _ _ Ht.
    destruct a; discriminate.
  - rewrite !string_app_cons in H. injection H as -> Ht.
    f_equal. by apply IH.
Qed.

(** *** Decimal numerals: [str] and [int] *)

Lemma digit_val_pretty_N_char (x : N) :
  (x < 10)%N -> digit_val (pretty_N_char x) = Some (Z.of_N x).
Proof.
  intros Hx. rewrite <- (N2Nat.id x).
  assert (Hn : (N.to_nat x < 10)%nat) by lia.
  generalize dependent (N.to_nat x). intros n Hn.
  do 10 (destruct n as [|n]; [reflexivity|]). lia.
Qed.

Lemma pretty_N_go_app (x : N) (s : string) :
  pretty_N_go x s = pretty_N_go x "" +:+ s.
Proof.
  revert s. induction (N.lt_wf_0 x) as [x _ IH]; intros s.
  destruct (decide (x = 0%N)) as [->|Hx]; [reflexivity|].
  rewrite (pretty_N_go_step x s), (pretty_N_go_step x "") by lia.
  assert (Hlt : (x `div` 10 < x)%N) by (apply N.div_lt; lia).
  rewrite (IH _ Hlt (String _ s)), (IH _ Hlt (String _ "")).
  by rewrite string_app_assoc.
Qed.

Lemma pretty_N_go_snoc (x : N) :
  (0 < x)%N ->
  pretty_N_go x ""
  = pretty_N_go (x `div` 10) "" +:+ String (pretty_N_char (x `mod` 10)) "".
Proof. intros Hx. rewrite pretty_N_go_step by done. apply pretty_N_go_app. Qed.

Lemma int_body_val_snoc (l : list ascii) (c : ascii) (d : Z) :
  digit_val c = Some d -> int_body_val (l ++ [c]) = 10 * int_body_val l + d.
Proof.
  intros Hc. unfold int_body_val. rewrite fold_left_app. simpl. by rewrite Hc.
Qed.

Lemma pretty_N_go_val (x : N) :
  int_body_val (list_ascii_of_string (pretty_N_go x "")) = Z.of_N x.
Proof.
  induction (N.lt_wf_0 x) as [x _ IH].
  destruct (decide (x = 0%N)) as [->|Hx]; [reflexivity|].
  rewrite pretty_N_go_snoc, chars_app by lia. simpl.
  rewrite (int_body_val_snoc _ _ (Z.of_N (x `mod` 10))).
  - rewrite IH by (apply N.div_lt; lia).
    rewrite (N.div_mod x 10) at 3 by lia. lia.
  - apply digit_val_pretty_N_char. by apply N.mod_lt.
Qed.

Lemma pretty_N_go_digits (x : N) :
  Forall (fun c => is_digit c = true)
         (list_ascii_of_string (pretty_N_go x "")).
Proof.
  induction (N.lt_wf_0 x) as [x _ IH].
  destruct (decide (x = 0%N)) as [->|Hx]; [constructor|].
  rewrite pretty_N_go_snoc, chars_app by lia.
  apply Forall_app. split; [apply IH, N.div_lt; lia|].
  repeat constructor. unfold is_digit.
  by rewrite (digit_val_pretty_N_char (x `mod` 10)) by (by apply N.mod_lt).
Qed.

Lemma pretty_N_go_nonempty (x : N) :
  (0 < x)%N -> list_ascii_of_string (pretty_N_go x "") <> [].
Proof.
  intros Hx. rewrite pretty_N_go_snoc, chars_app by done.
  simpl. intros H. by apply app_eq_nil in H as [_ ?].
Qed.

Lemma str_numeral (n : Z) :
  0 <= n -> numeral (list_ascii_of_string (str n))
            /\ int_body_val (list_ascii_of_string (str n)) = n.
Proof.
  intros Hn. unfold str, pretty, pretty_Z.
  destruct n as [|p|p]; [| |lia].
  - split; [split; [done|by repeat constructor]|reflexivity].
  - unfold pretty, pretty_positive, pretty, pretty_N.
    destruct (decide (N.pos p = 0%N)) as [|_]; [done|].
    split; [split|].
    + by apply pretty_N_go_nonempty.
    + apply pretty_N_go_digits.
    + apply pretty_N_go_val.
Qed.

Lemma digit_not_space (c : ascii) : is_digit c = true -> is_space c = false.
Proof.
  destruct c as [[] [] [] [] [] [] [] []]; (reflexivity || discriminate).
Qed.

Lemma lstrip_head (c : ascii) (l : list ascii) :
  is_space c = false -> lstrip (c :: l) = c :: l.
Proof. intros H. simpl. by rewrite H. Qed.

Lemma strip_space_numeral (l : list ascii) : numeral l -> strip_space l = l.
Proof.
  intros [Hne Hd]. unfold strip_space.
  destruct l as [|c l]; [done|].
  rewrite lstrip_head by (apply digit_not_space; by inversion Hd).
  assert (Hr : exists c' l', rev (c :: l) = c' :: l' /\ is_digit c' = true).
  { destruct (rev (c :: l)) as [|c' l'] eqn:Hrev.
    - apply (f_equal (@length _)) in Hrev. rewrite length_rev in Hrev.
      discriminate.
    - exists c', l'. split; [done|].
      assert (Hin : c' ∈ c :: l).
      { apply list_elem_of_In, in_rev. rewrite Hrev. by left. }
      by apply (proj1 (Forall_forall _ _) Hd). }
  destruct Hr as (c' & l' & Hrev & Hc').
  rewrite Hrev, lstrip_head by (by apply digit_not_space).
  rewrite <- Hrev. apply rev_involutive.
Qed.

Lemma int_body_ok_digits (l : list ascii) :
  Forall (fun c => is_digit c = true) l -> int_body_ok true l = true.
Proof.
  induction 1 as [|c l Hc _ IH]; [reflexivity|]. simpl. by rewrite Hc.
Qed.

Lemma int_numeral (s : string) :
  numeral (list_ascii_of_string s) ->
  int s = Ok (int_body_val (list_ascii_of_string s)).
Proof.
  intros Hnum. unfold int. rewrite strip_space_numeral by done.
  destruct Hnum as [Hne Hd].
  destruct (list_ascii_of_string s) as [|c l]; [done|].
  inversion Hd as [|? ? Hc Hl]; subst.
  assert (Hsign : c <> "+"%char /\ c <> "-"%char).
  { split; intros ->; discriminate. }
  assert (Hok : int_body_ok false (c :: l) = true).
  { simpl. rewrite Hc. by apply int_body_ok_digits. }
  destruct Hsign as [Hp Hm].
  destruct c as [[] [] [] [] [] [] [] []]; try discriminate;
    try (exfalso; by apply Hp); try (exfalso; by apply Hm);
    rewrite Hok; f_equal; lia.
Qed.

(** [int(str(n)) == n] for a natural [n]. *)
Lemma int_str (n : Z) : 0 <= n -> int (str n) = Ok n.
Proof.
  intros Hn. destruct (str_numeral n Hn) as [Hnum Hval].
  by rewrite int_numeral, Hval.
Qed.

Lemma dashed_str (n : Z) : 0 <= n -> dashed (str n) = false.
Proof.
  intros Hn. destruct (str_numeral n Hn) as [[_ Hd] _].
  apply not_true_is_false. intros Hc%contains_chars.
  by apply (proj1 (Forall_forall _ _) Hd) in Hc.
Qed.

Global Instance str_inj : Inj (=) (=) str.
Proof. unfold str. apply _. Qed.

Lemma lstrip_subseteq (l : list ascii) (c : ascii) : c ∈ lstrip l -> c ∈ l.
Proof.
  induction l as [|x l IH]; simpl; [done|].
  destruct (is_space x); [|done].
  intros H. right. by apply IH.
Qed.

Lemma strip_space_subseteq (l : list ascii) (c : ascii) :
  c ∈ strip_space l -> c ∈ l.
Proof.
  unfold strip_space. rewrite !list_elem_of_In, <- in_rev, <- !list_elem_of_In.
  intros H%lstrip_subseteq. apply lstrip_subseteq.
  by rewrite list_elem_of_In, in_rev, <- list_elem_of_In.
Qed.

Lemma digit_val_nonneg (c : ascii) (d : Z) : digit_val c = Some d -> 0 <= d.
Proof.
  destruct c as [[] [] [] [] [] [] [] []]; vm_compute; intros [= <-];
    discriminate.
Qed.

Lemma int_body_val_nonneg (l : list ascii) : 0 <= int_body_val l.
Proof.
  unfold int_body_val.
  assert (H : forall acc, 0 <= acc ->
    0 <= fold_left (fun acc c =>
           match digit_val c with Some d => 10 * acc + d | None => acc end)
         l acc).
  { induction l as [|c l IH]; intros acc Hacc; simpl; [done|].
    apply IH. destruct (digit_val c) as [d|] eqn:Hd; [|done].
    apply digit_val_nonneg in Hd. lia. }
  by apply H.
Qed.

(** A piece cut at dashes never reads as a negative number. *)
Lemma int_dashless_nonneg (s : string) (n : Z) :
  dashed s = false -> int s = Ok n -> 0 <= n.
Proof.
  intros Hd. unfold int.
  destruct (strip_space (list_ascii_of_string s)) as [|c r] eqn:Hbody.
  { simpl. discriminate. }
  assert (Hc : c <> "-"%char).
  { intros ->. apply (not_true_iff_false _) in Hd. apply Hd.
    apply contains_chars, strip_space_subseteq. rewrite Hbody. by left. }
  pose proof (int_body_val_nonneg r) as Hr.
  pose proof (int_body_val_nonneg (c :: r)) as Hcr.
  destruct c as [[] [] [] [] [] [] [] []]; try (exfalso; by apply Hc);
    destruct (int_body_ok false _); intros [= <-]; lia.
Qed.

(** ** Sorting names *)

Lemma sorted_Sorted (l : list string) : Sorted String.le (sorted l).
Proof. apply Sorted_merge_sort, _. Qed.

Lemma sorted_Permutation (l : list string) : sorted l ≡ₚ l.
Proof. apply merge_sort_Permutation. Qed.

Lemma sorted_perm (l1 l2 : list string) : l1 ≡ₚ l2 -> sorted l1 = sorted l2.
Proof.
  intros H. apply (Sorted_unique String.le); try apply sorted_Sorted.
  by rewrite !sorted_Permutation.
Qed.

Lemma elem_of_sorted (l : list string) (x : string) : x ∈ sorted l <-> x ∈ l.
Proof. by rewrite sorted_Permutation. Qed.

Lemma elem_of_keys {V} (m : gmap string V) (k : string) :
  k ∈ keys m <-> is_Some (m !! k).
Proof. unfold keys. by rewrite elem_of_elements, elem_of_dom. Qed.

Lemma elem_of_shard_ids (m : gmap string meta) (k : string) :
  k ∈ shard_ids m <-> dashed k = false /\ is_Some (m !! k).
Proof.
  unfold shard_ids. rewrite elem_of_sorted, list_elem_of_filter, elem_of_keys.
  by rewrite Is_true_false.
Qed.

Lemma elem_of_replication_ids (m : gmap string meta) (k : string) :
  k ∈ replication_ids m <-> dashed k = true /\ is_Some (m !! k).
Proof.
  unfold replication_ids.
  rewrite elem_of_sorted, list_elem_of_filter, elem_of_keys.
  by rewrite Is_true_true.
Qed.

(** The sorted selection of names from a directory or dictionary depends
    only on which selected names are present. *)
Lemma sorted_filter_ext (P : string -> Prop) `{!forall x, Decision (P x)}
    (l1 l2 : list string) :
  NoDup l1 -> NoDup l2 -> (forall x, P x -> x ∈ l1 <-> x ∈ l2) ->
  sorted (filter P l1) = sorted (filter P l2).
Proof.
  intros H1 H2 Hiff. apply sorted_perm, NoDup_Permutation.
  - by apply NoDup_filter.
  - by apply NoDup_filter.
  - intros x. rewrite !list_elem_of_filter.
    split; intros [HP Hx]; (split; [done|]); by apply (Hiff x HP).
Qed.

Lemma shard_ids_ext (m1 m2 : gmap string meta) :
  (forall k, dashed k = false -> is_Some (m1 !! k) <-> is_Some (m2 !! k)) ->
  shard_ids m1 = shard_ids m2.
Proof.
  intros H. unfold shard_ids. apply sorted_filter_ext.
  - apply NoDup_elements.
  - apply NoDup_elements.
  - intros k Hk. rewrite !elem_of_keys. apply H. by apply Is_true_false.
Qed.

Lemma replication_ids_ext (m1 m2 : gmap string meta) :
  (forall k, dashed k = true -> is_Some (m1 !! k) <-> is_Some (m2 !! k)) ->
  replication_ids m1 = replication_ids m2.
Proof.
  intros H. unfold replication_ids. apply sorted_filter_ext.
  - apply NoDup_elements.
  - apply NoDup_elements.
  - intros k Hk. rewrite !elem_of_keys. apply H. by apply Is_true_true.
Qed.

(** ** The splitter: claims C4 and C9 *)

(** C4. For any text and any count of at least one, the split produces
    exactly [count] slices, and the concatenation of the slices in order
    is the text; this covers a count larger than the length of the text,
    where slices are empty. *)
Theorem split_round_trip (d : text) (count : Z) :
  1 <= count ->
  exists result,
    _generate_sharded_data count d = Ok result
    /\ len result = count
    /\ concat result = d.
Proof.
  intros Hc. eexists. split; [by apply _generate_sharded_data_positive|].
  cbv zeta.
  assert (Hw : 0 <= len d / count) by (apply Z.div_pos; unfold len; lia).
  assert (Hle : len d / count * (count - 1) <= len d).
  { pose proof (Z.mul_div_le (len d) count ltac:(lia)) as Hmul.
    replace (len d / count * (count - 1))
      with (count * (len d / count) - len d / count) by ring.
    lia. }
  generalize dependent (len d / count). intros w Hw Hle.
  split.
  - unfold len. rewrite length_app, length_map, length_seqZ. simpl. lia.
  - rewrite concat_app. simpl. rewrite app_nil_r.
    replace (count - 1) with (Z.of_nat (Z.to_nat (count - 1))) in * by lia.
    rewrite concat_slices by done. apply take_drop.
Qed.

Lemma split_round_trip_witness :
  exists result,
    _generate_sharded_data 3 (txt "ab") = Ok result
    /\ len result = 3
    /\ concat result = txt "ab".
Proof. apply (split_round_trip (txt "ab") 3). lia. Defined.

(** C9 as stated (every count at most zero makes the split fail) does not
    hold: a negative count returns the empty list of slices. *)
Lemma split_negative_count_returns :
  ~ (forall (d : text) (count : Z),
       count <= 0 -> exists e, _generate_sharded_data count d = Err e).
Proof.
  intros H. destruct (H (txt "abc") (-1)) as [e He]; [lia|].
  vm_compute in He. discriminate.
Qed.

(** C9, amended. For every text, a zero count makes the split fail (the
    division by the count raises), and a negative count makes it return
    no slices without failing. *)
Theorem split_non_positive_count (d : text) (count : Z) :
  count <= 0 ->
  _generate_sharded_data count d
  = if count =? 0 then Err ZeroDivisionError else Ok [].
Proof.
  intros Hc. unfold _generate_sharded_data, range.
  destruct (Z.eqb_spec count 0) as [|Hne]; [reflexivity|].
  rewrite seqZ_nil by lia. simpl.
  pose proof (Z.mod_neg_bound (len d) count) as Hm.
  destruct (Z.ltb_spec 0 (len d mod count)); [lia|reflexivity].
Qed.

Lemma split_non_positive_count_witness :
  _generate_sharded_data 0 (txt "abc") = Err ZeroDivisionError
  /\ _generate_sharded_data (-2) (txt "abc") = Ok [].
Proof.
  split.
  - apply (split_non_positive_count (txt "abc") 0). lia.
  - apply (split_non_positive_count (txt "abc") (-2)). lia.
Defined.

(** ** Reasoning about methods *)

Lemma bind_unfold {A B} (c : M A) (f : A -> M B) (s : ShardHandler) :
  (c ≫= f) s
  = match c s with
    | (Ok a, s') => f a s'
    | (Err e, s') => (Err e, s')
    end.
Proof. reflexivity. Qed.

Lemma bind_Ok {A B} (c : M A) (f : A -> M B) (s s1 : ShardHandler) (a : A) :
  c s = (Ok a, s1) -> (c ≫= f) s = f a s1.
Proof. intros H. by rewrite bind_unfold, H. Qed.

Lemma bind_Ok_inv {A B} (c : M A) (f : A -> M B) (s s2 : ShardHandler)
    (b : B) :
  (c ≫= f) s = (Ok b, s2) ->
  exists a s1, c s = (Ok a, s1) /\ f a s1 = (Ok b, s2).
Proof.
  rewrite bind_unfold. destruct (c s) as [[a|e] s1]; [eauto|discriminate].
Qed.

Lemma res_bind_Ok_inv {A B} (r : res A) (f : A -> res B) (b : B) :
  r ≫= f = Ok b -> exists a, r = Ok a /\ f a = Ok b.
Proof. destruct r as [a|e]; [eauto|discriminate]. Qed.

Lemma set_mapping_id (s : ShardHandler) : set_mapping (mapping s) s = s.
Proof. by destruct s. Qed.

Lemma set_data_id (s : ShardHandler) : set_data (data s) s = s.
Proof. by destruct s. Qed.

Lemma set_mapfile_id (s : ShardHandler) : set_mapfile (mapfile s) s = s.
Proof. by destruct s. Qed.

Lemma mapping_item_inv (key : string) (s s' : ShardHandler) (v : meta) :
  mapping_item key s = (Ok v, s') -> mapping s !! key = Some v /\ s' = s.
Proof.
  unfold mapping_item. destruct (mapping s !! key); [|discriminate].
  by intros [= -> ->].
Qed.

Lemma mapping_item_Some (key : string) (s : ShardHandler) (v : meta) :
  mapping s !! key = Some v -> mapping_item key s = (Ok v, s).
Proof. intros H. unfold mapping_item. by rewrite H. Qed.

Lemma read_file_inv (name : string) (s s' : ShardHandler) (c : text) :
  read_file name s = (Ok c, s') ->
  exists d, data s = Some d /\ d !! name = Some c /\ s' = s.
Proof.
  unfold read_file. destruct (data s) as [d|]; [|discriminate].
  destruct (d !! name) eqn:Hn; [|discriminate].
  intros [= -> ->]. eauto.
Qed.

Lemma read_file_Some (name : string) (s : ShardHandler) d (c : text) :
  data s = Some d -> d !! name = Some c -> read_file name s = (Ok c, s).
Proof. intros Hd Hn. unfold read_file. by rewrite Hd, Hn. Qed.

Lemma copyfile_inv (src dst : string) (s s' : ShardHandler) :
  copyfile src dst s = (Ok tt, s') ->
  exists d c, data s = Some d /\ d !! src = Some c /\ src <> dst
              /\ s' = set_data (Some (<[dst := c]> d)) s.
Proof.
  unfold copyfile. intros (c & s1 & Hr & Hw)%bind_Ok_inv.
  apply read_file_inv in Hr as (d & Hd & Hc & ->).
  destruct (decide (src = dst)); [discriminate|].
  unfold write_file in Hw. rewrite Hd in Hw. injection Hw as <-.
  eauto 10.
Qed.

Lemma copyfile_same (src dst : string) (s : ShardHandler) d (c : text) :
  data s = Some d -> d !! src = Some c -> d !! dst = Some c -> src <> dst ->
  copyfile src dst s = (Ok tt, s).
Proof.
  intros Hd Hs Hdst Hne. unfold copyfile.
  rewrite (bind_Ok _ _ _ _ _ (read_file_Some _ _ _ _ Hd Hs)).
  destruct (decide (src = dst)); [done|].
  unfold write_file. rewrite Hd, insert_id by done.
  by rewrite <- Hd, set_data_id.
Qed.

(** *** Loops *)

(** A property kept by every iteration is kept by the loop. *)
Lemma for_invariant {A} (I : ShardHandler -> Prop) (l : list A)
    (body : A -> M unit) :
  (forall x s s', x ∈ l -> I s -> body x s = (Ok tt, s') -> I s') ->
  forall s s', I s -> for_ l body s = (Ok tt, s') -> I s'.
Proof.
  induction l as [|x l IH]; intros Hbody s s' HI Hrun.
  - injection Hrun as <-. exact HI.
  - simpl in Hrun. apply bind_Ok_inv in Hrun as ([] & s1 & Hx & Hrest).
    apply (IH (fun y t t' Hy => Hbody y t t' (list_elem_of_further _ _ _ Hy))
              s1 s'); [|exact Hrest].
    apply (Hbody x s s1); [by left|exact HI|exact Hx].
Qed.

(** A property [Q x] that the iteration for [x] establishes, and that no
    iteration breaks, holds after the loop for every element. *)
Lemma for_establishes {A} (I : ShardHandler -> Prop)
    (Q : A -> ShardHandler -> Prop) (l : list A) (body : A -> M unit) :
  (forall x s s', x ∈ l -> I s -> body x s = (Ok tt, s') -> I s' /\ Q x s') ->
  (forall x y s s', x ∈ l -> y ∈ l -> I s -> Q y s ->
     body x s = (Ok tt, s') -> Q y s') ->
  forall s s', I s -> for_ l body s = (Ok tt, s') ->
    I s' /\ forall x, x ∈ l -> Q x s'.
Proof.
  intros Hest Hkeep s s' HI Hrun.
  assert (Hgen : forall done todo s, l = done ++ todo ->
            I s -> (forall x, x ∈ done -> Q x s) ->
            for_ todo body s = (Ok tt, s') ->
            I s' /\ forall x, x ∈ l -> Q x s').
  { clear s HI Hrun. intros done todo. revert done.
    induction todo as [|x todo IH]; intros done s Hl HI HQ Hrun.
    - injection Hrun as <-. rewrite app_nil_r in Hl. subst. by split.
    - simpl in Hrun. apply bind_Ok_inv in Hrun as ([] & s1 & Hx & Hrest).
      assert (Hxl : x ∈ l) by (subst l; apply elem_of_app; right; by left).
      destruct (Hest x s s1 Hxl HI Hx) as [HI1 HQx].
      apply (IH (done ++ [x]) s1); [by rewrite <- app_assoc|done| |done].
      intros y [Hy| ->%list_elem_of_singleton]%elem_of_app; [|done].
      apply (Hkeep x y s s1); try done.
      + subst l. apply elem_of_app. by left.
      + by apply HQ. }
  apply (Hgen [] l s); try done. by intros x ?%elem_of_nil.
Qed.

(** A loop whose iterations all leave the handler as it is does so too. *)
Lemma for_unchanged {A} (l : list A) (body : A -> M unit) (s : ShardHandler) :
  (forall x, x ∈ l -> body x s = (Ok tt, s)) -> for_ l body s = (Ok tt, s).
Proof.
  induction l as [|x l IH]; intros H; [reflexivity|].
  simpl. rewrite (bind_Ok _ _ s s tt) by (apply H; by left).
  apply IH. intros y Hy. apply H. by right.
Qed.

(** ** Reconciling the replication levels *)

Lemma contains_split_piece (c : ascii) (s p : string) :
  p ∈ split c s -> contains c p = false.
Proof.
  revert p. induction s as [|a s IH]; intros p; simpl.
  - by intros ->%list_elem_of_singleton.
  - destruct (Ascii.eqb a c) eqn:Hac.
    + intros [->|Hp]%elem_of_cons; [reflexivity|by apply IH].
    + destruct (split c s) as [|piece rest].
      * intros ->%list_elem_of_singleton. simpl. by rewrite Hac.
      * intros [->|Hp]%elem_of_cons.
        -- simpl. rewrite Hac. apply IH. by left.
        -- apply IH. by right.
Qed.

Lemma dashed_head_piece (s : string) : dashed (head_piece "-" s) = false.
Proof.
  unfold dashed, head_piece.
  destruct (split "-" s) as [|piece rest] eqn:Hs; [reflexivity|].
  apply (contains_split_piece _ s). rewrite Hs. by left.
Qed.

Lemma dashed_ne (a b : string) : dashed a = false -> dashed b = true -> a <> b.
Proof. intros Ha Hb ->. congruence. Qed.

Lemma replica_key_shard (p q : string) (l k : Z) :
  dashed p = false -> dashed q = false ->
  replica_key p l = replica_key q k -> p = q.
Proof.
  intros Hp Hq H. apply (f_equal (head_piece "-")) in H.
  by rewrite !head_piece_replica_key in H.
Qed.

Lemma replica_file_shard (p q : string) (l k : Z) :
  dashed p = false -> dashed q = false ->
  txt_file (replica_key p l) = txt_file (replica_key q k) -> p = q.
Proof. intros Hp Hq H%(inj txt_file). by eapply replica_key_shard. Qed.

Lemma align_replica_inv (key : string) (s s' : ShardHandler) :
  align_replica key s = (Ok tt, s') ->
  exists v, mapping s !! head_piece "-" key = Some v
            /\ s' = set_mapping (<[key := v]> (mapping s)) s.
Proof.
  unfold align_replica. intros (v & s1 & Hv & Hset)%bind_Ok_inv.
  apply mapping_item_inv in Hv as [Hv ->].
  injection Hset as <-. eauto.
Qed.

Lemma regenerate_replica_inv (level : Z) (pk : string) (s s' : ShardHandler) :
  regenerate_replica level pk s = (Ok tt, s') ->
  exists v d c,
    mapping s !! pk = Some v /\ data s = Some d /\ d !! txt_file pk = Some c
    /\ s' = set_data (Some (<[txt_file (replica_key pk level) := c]> d))
              (set_mapping (<[replica_key pk level := v]> (mapping s)) s).
Proof.
  unfold regenerate_replica. intros (v & s1 & Hv & Hrest)%bind_Ok_inv.
  apply mapping_item_inv in Hv as [Hv ->].
  apply bind_Ok_inv in Hrest as ([] & s2 & Hset & Hcopy).
  injection Hset as <-.
  apply copyfile_inv in Hcopy as (d & c & Hd & Hc & _ & ->).
  exists v, d, c. by repeat split.
Qed.

Lemma regenerate_replica_mirrors (level : Z) (pk : string)
    (s s' : ShardHandler) :
  dashed pk = false ->
  regenerate_replica level pk s = (Ok tt, s') -> mirrored s' pk level.
Proof.
  intros Hpk (v & d & c & Hv & Hd & Hc & ->)%regenerate_replica_inv.
  exists v, (<[txt_file (replica_key pk level) := c]> d), c. simpl.
  assert (pk <> replica_key pk level)
    by (apply dashed_ne; [done|apply dashed_replica_key]).
  assert (txt_file pk <> txt_file (replica_key pk level))
    by (intros ?%(inj txt_file); done).
  repeat split.
  - by rewrite lookup_insert_ne.
  - by rewrite lookup_insert_eq.
  - by rewrite lookup_insert_ne.
  - by rewrite lookup_insert_eq.
Qed.

Lemma regenerate_replica_keeps_mirrored (level l : Z) (pk p : string)
    (s s' : ShardHandler) :
  dashed pk = false -> dashed p = false -> mirrored s p l ->
  regenerate_replica level pk s = (Ok tt, s') -> mirrored s' p l.
Proof.
  intros Hpk Hp (entry & d0 & content & Hm1 & Hm2 & Hd0 & Hf1 & Hf2)
         (v & d & c & Hv & Hd & Hc & ->)%regenerate_replica_inv.
  rewrite Hd0 in Hd. injection Hd as <-.
  exists entry, (<[txt_file (replica_key pk level) := c]> d0), content. simpl.
  assert (p <> replica_key pk level)
    by (apply dashed_ne; [done|apply dashed_replica_key]).
  assert (txt_file p <> txt_file (replica_key pk level))
    by (intros ?%(inj txt_file); done).
  repeat split.
  - by rewrite lookup_insert_ne.
  - destruct (decide (replica_key pk level = replica_key p l)) as [He|Hne].
    + rewrite He, lookup_insert_eq.
      apply replica_key_shard in He; [|done..]. subst. congruence.
    + by rewrite lookup_insert_ne.
  - by rewrite lookup_insert_ne.
  - destruct (decide (txt_file (replica_key pk level)
                      = txt_file (replica_key p l))) as [He|Hne].
    + rewrite He, lookup_insert_eq.
      apply replica_file_shard in He; [|done..]. subst. congruence.
    + by rewrite lookup_insert_ne.
Qed.

(** Regenerating a replica that already mirrors its primary changes
    nothing. *)
Lemma regenerate_replica_unchanged (level : Z) (pk : string)
    (s : ShardHandler) :
  dashed pk = false -> mirrored s pk level ->
  regenerate_replica level pk s = (Ok tt, s).
Proof.
  intros Hpk (entry & d & content & Hm1 & Hm2 & Hd & Hf1 & Hf2).
  unfold regenerate_replica.
  rewrite (bind_Ok _ _ _ _ _ (mapping_item_Some _ _ _ Hm1)).
  assert (Hset : mapping_set (replica_key pk level) entry s = (Ok tt, s)).
  { unfold mapping_set, modify. by rewrite insert_id, set_mapping_id. }
  rewrite (bind_Ok _ _ _ _ _ Hset).
  apply (copyfile_same _ _ _ d content); try done.
  intros ?%(inj txt_file).
  by apply (dashed_ne pk (replica_key pk level) Hpk (dashed_replica_key _ _)).
Qed.

Section Reconcile.

Variable listdir : gmap string text -> list string.

Lemma level_files_nil (level : Z) (files : list string) :
  List.filter (fun filename =>
    match split "-" filename !! 1%nat with
    | Some piece => eq_int_str level piece
    | None => false
    end) files = [].
Proof.
  induction files as [|f files IH]; simpl; [reflexivity|].
  destruct (split "-" f !! 1%nat); simpl; exact IH.
Qed.

(** Comparing the integer level with a piece of a file name never
    succeeds, so a level passes the check only when there is no primary. *)
Lemma rep_level_has_same_keys_inv (rep_keys primary_keys : list string)
    (level : Z) (s s' : ShardHandler) (b : bool) :
  rep_level_has_same_keys listdir rep_keys primary_keys level s = (Ok b, s')
  -> s' = s /\ (b = true -> primary_keys = []).
Proof.
  unfold rep_level_has_same_keys.
  destruct (negb (bool_decide _)); [by intros [= <- <-]|].
  destruct (rep_keys_differ _ _); [by intros [= <- <-]|].
  intros (files & s1 & Hls & Hrest)%bind_Ok_inv.
  unfold listdir_data in Hls. destruct (data s); [|discriminate].
  injection Hls as <- <-.
  rewrite level_files_nil in Hrest. simpl in Hrest.
  destruct primary_keys as [|pk pks].
  - injection Hrest as <- <-. by split.
  - rewrite bool_decide_false in Hrest by done.
    injection Hrest as <- <-. by split.
Qed.

Lemma rep_level_has_same_keys_total (rep_keys primary_keys : list string)
    (level : Z) (s : ShardHandler) :
  is_Some (data s) ->
  exists b, rep_level_has_same_keys listdir rep_keys primary_keys level s
            = (Ok b, s).
Proof.
  intros [d Hd]. unfold rep_level_has_same_keys.
  destruct (negb (bool_decide _)); [by eexists|].
  destruct (rep_keys_differ _ _); [by eexists|].
  unfold listdir_data. rewrite bind_unfold, Hd.
  destruct (negb (bool_decide _)); by eexists.
Qed.

(** A property kept when a replica is regenerated is kept when the levels
    are reconciled. *)
Lemma reconcile_invariant (I : ShardHandler -> Prop)
    (primary_keys : list string) (levels : list (Z * list string)) :
  (forall level pk s s', level ∈ levels.*1 -> pk ∈ primary_keys -> I s ->
     regenerate_replica level pk s = (Ok tt, s') -> I s') ->
  forall s s', I s ->
    for_ levels (reconcile_level listdir primary_keys) s = (Ok tt, s') ->
    I s'.
Proof.
  intros Hstep. apply for_invariant.
  intros [level rep_keys] s s' Hin HI Hrun. unfold reconcile_level in Hrun.
  apply bind_Ok_inv in Hrun as (same & s1 & Hsame & Hrun).
  apply rep_level_has_same_keys_inv in Hsame as [-> _].
  destruct same; [by injection Hrun as <-|].
  revert s s' HI Hrun. apply for_invariant.
  intros pk s s' Hpk. apply Hstep; [|done].
  apply list_elem_of_fmap. by exists (level, rep_keys).
Qed.

(** After the levels are reconciled, every primary is mirrored at every
    level of the dictionary. *)
Lemma reconcile_mirrors (primary_keys : list string)
    (levels : list (Z * list string)) (s s' : ShardHandler) :
  Forall (fun pk => dashed pk = false) primary_keys ->
  for_ levels (reconcile_level listdir primary_keys) s = (Ok tt, s') ->
  forall level pk, level ∈ levels.*1 -> pk ∈ primary_keys ->
    mirrored s' pk level.
Proof.
  intros Hpks Hrun level pk Hl Hpk.
  pose proof (proj1 (Forall_forall _ _) Hpks) as Hdash. simpl in Hdash.
  apply list_elem_of_fmap in Hl as ([level' rep_keys] & -> & Hin). simpl.
  destruct (for_establishes (fun _ => True)
              (fun (e : Z * list string) t =>
                 forall pk, pk ∈ primary_keys -> mirrored t pk e.1)
              levels (reconcile_level listdir primary_keys)) with s s'
    as [_ HQ]; [| |done|done|by apply (HQ _ Hin)].
  - (* the pass for a level mirrors every primary at that level *)
    intros [l ks] t t' _ _ Hpass. split; [done|]. simpl.
    unfold reconcile_level in Hpass.
    apply bind_Ok_inv in Hpass as (same & t1 & Hsame & Hpass).
    apply rep_level_has_same_keys_inv in Hsame as [-> Hnil].
    destruct same.
    { rewrite Hnil by done. by intros ? ?%elem_of_nil. }
    destruct (for_establishes (fun _ => True)
                (fun q u => mirrored u q l)
                primary_keys (regenerate_replica l)) with t t'
      as [_ HQ']; [| |done|done|done].
    + intros q u u' Hq _ Hstep. split; [done|].
      apply (regenerate_replica_mirrors l q u); [by apply Hdash|done].
    + intros q q' u u' Hq Hq' _ Hm Hstep.
      apply (regenerate_replica_keeps_mirrored l l q q' u); auto.
  - (* the pass for another level keeps it *)
    intros [l ks] [l' ks'] t t' _ _ _ HQ Hpass q Hq. simpl in *.
    unfold reconcile_level in Hpass.
    apply bind_Ok_inv in Hpass as (same & t1 & Hsame & Hpass).
    apply rep_level_has_same_keys_inv in Hsame as [-> _].
    destruct same; [injection Hpass as <-; by apply HQ|].
    revert Hpass. apply (for_invariant (fun u => mirrored u q l')); [|by apply HQ].
    intros q' u u' Hq' Hm Hstep.
    apply (regenerate_replica_keeps_mirrored l l' q' q u); auto.
Qed.

End Reconcile.

(** *** What reconciliation leaves alone *)

Lemma primaries_untouched_refl (s : ShardHandler) : primaries_untouched s s.
Proof. unfold primaries_untouched. by destruct (data s). Qed.

Lemma primaries_untouched_trans (s1 s2 s3 : ShardHandler) :
  primaries_untouched s1 s2 -> primaries_untouched s2 s3 ->
  primaries_untouched s1 s3.
Proof.
  intros (Hp & Hl & Hm & Hd) (Hp' & Hl' & Hm' & Hd').
  repeat split; try congruence.
  - intros k Hk. by rewrite Hm', Hm.
  - destruct (data s1), (data s2), (data s3); try done.
    intros f Hf. by rewrite Hd', Hd.
Qed.

Lemma align_replica_untouched (key : string) (s s' : ShardHandler) :
  dashed key = true -> align_replica key s = (Ok tt, s') ->
  primaries_untouched s s'.
Proof.
  intros Hkey (v & Hv & ->)%align_replica_inv.
  repeat split; simpl.
  - intros k Hk. apply lookup_insert_ne. intros ->. congruence.
  - by destruct (data s).
Qed.

Lemma regenerate_replica_untouched (level : Z) (pk : string)
    (s s' : ShardHandler) :
  regenerate_replica level pk s = (Ok tt, s') -> primaries_untouched s s'.
Proof.
  intros (v & d & c & Hv & Hd & Hc & ->)%regenerate_replica_inv.
  repeat split; simpl.
  - intros k Hk. apply lookup_insert_ne. intros <-.
    by rewrite dashed_replica_key in Hk.
  - rewrite Hd. intros f Hf. apply lookup_insert_ne. intros <-.
    by rewrite dashed_txt_file, dashed_replica_key in Hf.
Qed.

(** *** The dictionary of levels *)

Lemma elem_of_dict_append (level x : Z) (key : string)
    (d : list (Z * list string)) :
  x ∈ (dict_append level key d).*1 <-> x = level \/ x ∈ d.*1.
Proof.
  induction d as [|[l ks] d IH]; simpl.
  - rewrite list_elem_of_singleton. rewrite elem_of_nil. tauto.
  - destruct (Z.eqb_spec l level) as [->|Hne]; simpl.
    + rewrite !elem_of_cons. tauto.
    + rewrite !elem_of_cons, IH. tauto.
Qed.

Lemma group_by_level_levels (ids : list string)
    (d0 d : list (Z * list string)) :
  group_by_level ids d0 = Ok d ->
  forall x, x ∈ d.*1 <->
            x ∈ d0.*1 \/ exists key, key ∈ ids /\ level_of key = Ok x.
Proof.
  revert d0. induction ids as [|key ids IH]; intros d0 Hrun x.
  - injection Hrun as <-. split; [auto|].
    intros [?|(? & []%elem_of_nil & _)]; done.
  - simpl in Hrun. apply res_bind_Ok_inv in Hrun as (l & Hl & Hrun).
    rewrite (IH _ Hrun), elem_of_dict_append. split.
    + intros [[->|?]|(k & Hk & Hx)]; [right|by left|right].
      * exists key. split; [by left|done].
      * exists k. split; [by right|done].
    + intros [?|(k & [->|Hk]%elem_of_cons & Hx)].
      * left. by right.
      * left. left. congruence.
      * right. by exists k.
Qed.

Lemma group_by_level_total (ids : list string) (d0 : list (Z * list string)) :
  (forall key, key ∈ ids -> exists l, level_of key = Ok l) ->
  exists d, group_by_level ids d0 = Ok d.
Proof.
  revert d0. induction ids as [|key ids IH]; intros d0 H; simpl.
  - by eexists.
  - destruct (H key) as [l Hl]; [by left|]. rewrite Hl. simpl.
    apply IH. intros k Hk. apply H. by right.
Qed.

(** *** The effect of [update_replicated_levels] *)

(** The first loop: every replica entry takes the entry of its shard. *)
Lemma align_replicas_spec (s sA : ShardHandler) :
  for_ (replication_ids (mapping s)) align_replica s = (Ok tt, sA) ->
  sA = set_mapping (mapping sA) s
  /\ (forall k, is_Some (mapping sA !! k) <-> is_Some (mapping s !! k))
  /\ primaries_untouched s sA
  /\ aligned (mapping sA).
Proof.
  intros Hrun.
  destruct (for_establishes
    (fun t => t = set_mapping (mapping t) s
              /\ (forall k, is_Some (mapping t !! k) <-> is_Some (mapping s !! k))
              /\ primaries_untouched s t)
    (fun key t => mapping t !! key = mapping t !! head_piece "-" key)
    (replication_ids (mapping s)) align_replica) with s sA
    as [(Hset & Hdom & Hfr) HQ]; [| | |done|].
  - intros key t t' [Hdash Hin]%elem_of_replication_ids (Ht & Hdom & Hfr) Hstep.
    pose proof (align_replica_untouched _ _ _ Hdash Hstep) as Hfr'.
    apply align_replica_inv in Hstep as (v & Hv & ->). simpl.
    split; [split; [|split]|].
    + by rewrite Ht.
    + intros k. rewrite <- Hdom. destruct (decide (k = key)) as [->|Hne].
      * rewrite lookup_insert_eq. split; [|by eauto].
        intros _. by apply Hdom.
      * by rewrite lookup_insert_ne.
    + by eapply primaries_untouched_trans.
    + rewrite lookup_insert_eq, lookup_insert_ne; [done|].
      intros Heq. rewrite Heq in Hdash. by rewrite dashed_head_piece in Hdash.
  - intros key y t t' [Hdash _]%elem_of_replication_ids
           [Hy _]%elem_of_replication_ids _ HQ
           (v & Hv & ->)%align_replica_inv. simpl.
    assert (Hpar : forall z, key <> head_piece "-" z).
    { intros z ->. by rewrite dashed_head_piece in Hdash. }
    rewrite (lookup_insert_ne _ key (head_piece "-" y)) by apply Hpar.
    destruct (decide (key = y)) as [->|Hne].
    + by rewrite lookup_insert_eq.
    + by rewrite lookup_insert_ne.
  - split; [by rewrite set_mapping_id|]. split; [done|].
    apply primaries_untouched_refl.
  - split; [done|]. split; [done|]. split; [done|].
    intros key Hdash Hsome. apply HQ, elem_of_replication_ids.
    split; [done|]. by apply Hdom.
Qed.

Section Update.

Variable listdir : gmap string text -> list string.

Lemma update_replicated_levels_inv (s s' : ShardHandler) :
  update_replicated_levels listdir s = (Ok tt, s') ->
  exists sA sB levels,
    for_ (replication_ids (mapping s)) align_replica s = (Ok tt, sA)
    /\ group_by_level (replication_ids (mapping sA)) [] = Ok levels
    /\ for_ levels (reconcile_level listdir (shard_ids (mapping sA))) sA
       = (Ok tt, sB)
    /\ s' = set_mapfile (Some (mapping sB)) sB.
Proof.
  unfold update_replicated_levels.
  intros (ids & s1 & [= <- <-] & H)%bind_Ok_inv.
  apply bind_Ok_inv in H as ([] & sA & HA & H).
  apply bind_Ok_inv in H as (pks & s2 & [= <- <-] & H).
  apply bind_Ok_inv in H as (levels & s3 & Hd & H).
  unfold create_replication_dict in Hd.
  apply bind_Ok_inv in Hd as (ids' & s4 & [= <- <-] & Hd).
  unfold lift in Hd. injection Hd as Hd <-.
  apply bind_Ok_inv in H as ([] & sB & HB & H).
  injection H as <-.
  exists sA, sB, levels. by repeat split.
Qed.

Lemma reconcile_untouched (primary_keys : list string)
    (levels : list (Z * list string)) (s s' : ShardHandler) :
  for_ levels (reconcile_level listdir primary_keys) s = (Ok tt, s') ->
  primaries_untouched s s'.
Proof.
  apply (reconcile_invariant listdir (primaries_untouched s));
    [|apply primaries_untouched_refl].
  intros level pk t t' _ _ Ht Hstep.
  eapply primaries_untouched_trans; [exact Ht|].
  by eapply regenerate_replica_untouched.
Qed.

Lemma update_replicated_levels_untouched (s s' : ShardHandler) :
  update_replicated_levels listdir s = (Ok tt, s') ->
  primaries_untouched s s' /\ mapfile s' = Some (mapping s').
Proof.
  intros (sA & sB & levels & HA & Hd & HB & ->)%update_replicated_levels_inv.
  split; [|reflexivity].
  apply align_replicas_spec in HA as (_ & _ & HA & _).
  apply reconcile_untouched in HB.
  eapply primaries_untouched_trans; [exact HA|].
  eapply primaries_untouched_trans; [exact HB|].
  unfold primaries_untouched. simpl. by destruct (data sB).
Qed.

(** After [update_replicated_levels], every primary is mirrored at every
    level that the mapping recorded. *)
Lemma update_replicated_levels_mirrors (s s' : ShardHandler) :
  update_replicated_levels listdir s = (Ok tt, s') ->
  forall shard level,
    shard ∈ shard_ids (mapping s) -> level_recorded (mapping s) level ->
    mirrored s' shard level.
Proof.
  intros (sA & sB & levels & HA & Hd & HB & ->)%update_replicated_levels_inv
         shard level Hshard (key & Hkey & Hlevel).
  apply align_replicas_spec in HA as (_ & Hdom & _ & _).
  assert (Hids : shard_ids (mapping sA) = shard_ids (mapping s))
    by (apply shard_ids_ext; intros; apply Hdom).
  assert (Hrids : replication_ids (mapping sA) = replication_ids (mapping s))
    by (apply replication_ids_ext; intros; apply Hdom).
  rewrite Hids in HB. rewrite Hrids in Hd.
  assert (Hm : mirrored sB shard level).
  { apply (reconcile_mirrors listdir _ _ _ _) with (level := level)
      (pk := shard) in HB; try done.
    - apply Forall_forall. by intros pk [? _]%elem_of_shard_ids.
    - apply (group_by_level_levels _ _ _ Hd). right. by exists key. }
  exact Hm.
Qed.

End Update.

(** *** Levels of replica keys *)

Lemma level_of_nonneg (key : string) (l : Z) : level_of key = Ok l -> 0 <= l.
Proof.
  unfold level_of. intros (p & Hp & Hl)%res_bind_Ok_inv.
  apply (int_dashless_nonneg p); [|done].
  unfold nth_piece in Hp.
  destruct (split "-" key !! 1%nat) as [q|] eqn:Hq; [|discriminate].
  injection Hp as ->. apply (contains_split_piece _ key).
  by eapply list_elem_of_lookup_2.
Qed.

Lemma level_of_replica_key (shard : string) (l : Z) :
  dashed shard = false -> 0 <= l -> level_of (replica_key shard l) = Ok l.
Proof.
  intros Hs Hl. unfold level_of, replica_key.
  change ("-" +:+ str l) with (String "-" (str l)).
  rewrite split_app_sep by done.
  rewrite split_no_sep by (by apply dashed_str).
  simpl. by apply int_str.
Qed.

Lemma group_by_level_Ok_all (ids : list string)
    (d0 d : list (Z * list string)) :
  group_by_level ids d0 = Ok d ->
  forall key, key ∈ ids -> exists l, level_of key = Ok l.
Proof.
  revert d0. induction ids as [|k ids IH]; intros d0 Hrun key Hkey.
  - by apply elem_of_nil in Hkey.
  - simpl in Hrun. apply res_bind_Ok_inv in Hrun as (l & Hl & Hrun).
    apply elem_of_cons in Hkey as [->|Hkey]; [by eexists|].
    by eapply IH.
Qed.

Lemma regenerate_replica_keeps_aligned (level : Z) (pk : string)
    (s s' : ShardHandler) :
  dashed pk = false -> aligned (mapping s) ->
  regenerate_replica level pk s = (Ok tt, s') -> aligned (mapping s').
Proof.
  intros Hpk Hal (v & d & c & Hv & Hd & Hc & ->)%regenerate_replica_inv.
  simpl. intros key Hdash Hsome.
  assert (Hpar : replica_key pk level <> head_piece "-" key).
  { intros Heq. pose proof (dashed_head_piece key) as Hh.
    by rewrite <- Heq, dashed_replica_key in Hh. }
  rewrite (lookup_insert_ne _ _ (head_piece "-" key)) by done.
  destruct (decide (replica_key pk level = key)) as [<-|Hne].
  - by rewrite lookup_insert_eq, head_piece_replica_key.
  - rewrite lookup_insert_ne in Hsome |- * by done. by apply Hal.
Qed.

Section Sync.

Variable listdir : gmap string text -> list string.
Hypothesis listdir_perm : forall d, listdir d ≡ₚ elements (dom d).

(** What [update_replicated_levels] guarantees about the replica entries
    it leaves: they are aligned, and each is at a level that was recorded
    before. *)
Lemma update_replicated_levels_post (s s' : ShardHandler) :
  update_replicated_levels listdir s = (Ok tt, s') ->
  aligned (mapping s')
  /\ forall key, key ∈ replication_ids (mapping s') ->
       exists l, level_of key = Ok l /\ level_recorded (mapping s) l.
Proof.
  intros (sA & sB & levels & HA & Hd & HB & ->)%update_replicated_levels_inv.
  simpl.
  apply align_replicas_spec in HA as (_ & Hdom & _ & Hal).
  assert (Hrids : replication_ids (mapping sA) = replication_ids (mapping s))
    by (apply replication_ids_ext; intros; apply Hdom).
  rewrite Hrids in Hd.
  assert (Hpks : forall pk, pk ∈ shard_ids (mapping sA) -> dashed pk = false)
    by (by intros pk [? _]%elem_of_shard_ids).
  split.
  - revert HB. apply (reconcile_invariant listdir
                        (fun t => aligned (mapping t))); [|done].
    intros level pk t t' _ Hpk Ht.
    apply regenerate_replica_keeps_aligned; [by apply Hpks|done].
  - assert (Horigin : forall key, is_Some (mapping sB !! key) ->
              is_Some (mapping sA !! key)
              \/ exists pk level, pk ∈ shard_ids (mapping sA)
                   /\ level ∈ levels.*1 /\ key = replica_key pk level).
    { revert HB. apply (reconcile_invariant listdir (fun t =>
        forall key, is_Some (mapping t !! key) ->
          is_Some (mapping sA !! key)
          \/ exists pk level, pk ∈ shard_ids (mapping sA)
               /\ level ∈ levels.*1 /\ key = replica_key pk level));
        [|by left].
      intros level pk t t' Hlevel Hpk Ht
             (v & d & c & Hv & _ & _ & ->)%regenerate_replica_inv key.
      simpl. destruct (decide (replica_key pk level = key)) as [<-|Hne].
      - intros _. right. by exists pk, level.
      - rewrite lookup_insert_ne by done. apply Ht. }
    intros key [Hdash Hsome]%elem_of_replication_ids.
    destruct (Horigin key Hsome) as [Hold|(pk & level & Hpk & Hlevel & ->)].
    + assert (Hin : key ∈ replication_ids (mapping s))
        by (apply elem_of_replication_ids; split; [done|by apply Hdom]).
      destruct (group_by_level_Ok_all _ _ _ Hd key Hin) as [l Hl].
      exists l. split; [done|]. by exists key.
    + apply (group_by_level_levels _ _ _ Hd) in Hlevel
        as [[]%elem_of_nil|(k & Hk & Hl)].
      exists level. split; [|by exists k].
      apply level_of_replica_key; [by apply Hpks|by eapply level_of_nonneg].
Qed.

(** *** The integrity check *)

Lemma primary_files_okay_state (s s' : ShardHandler) (r : res bool) :
  primary_files_okay listdir s = (r, s') -> s' = s.
Proof.
  unfold primary_files_okay, listdir_data, get_shard_ids, gets.
  rewrite !bind_unfold. destruct (data s); [|by intros [= _ <-]].
  rewrite bind_unfold. destruct (stems_differ _ _); by intros [= _ <-].
Qed.

Lemma primary_files_okay_data (s : ShardHandler) (b : bool) :
  primary_files_okay listdir s = (Ok b, s) -> is_Some (data s).
Proof.
  unfold primary_files_okay, listdir_data. rewrite bind_unfold.
  destruct (data s); [eauto|discriminate].
Qed.

Lemma primary_file_names_untouched (d d' : gmap string text) :
  (forall file, dashed file = false -> d' !! file = d !! file) ->
  sorted (filter (fun file => ¬ dashed file) (listdir d'))
  = sorted (filter (fun file => ¬ dashed file) (listdir d)).
Proof.
  intros H.
  rewrite (sorted_perm (filter _ (listdir d'))
             (filter (fun file => ¬ dashed file) (elements (dom d'))))
    by (by rewrite listdir_perm).
  rewrite (sorted_perm (filter _ (listdir d))
             (filter (fun file => ¬ dashed file) (elements (dom d))))
    by (by rewrite listdir_perm).
  apply sorted_filter_ext; try apply NoDup_elements.
  intros f Hf%Is_true_false. rewrite !elem_of_elements, !elem_of_dom.
  by rewrite H.
Qed.

Lemma primary_files_okay_untouched (s s' : ShardHandler) (r : res bool) :
  primaries_untouched s s' ->
  primary_files_okay listdir s = (r, s) ->
  primary_files_okay listdir s' = (r, s').
Proof.
  intros (_ & _ & Hm & Hd).
  unfold primary_files_okay, listdir_data, get_shard_ids, gets.
  rewrite !bind_unfold.
  destruct (data s) as [d|], (data s') as [d'|]; try done;
    [|by intros [= <-]].
  rewrite !bind_unfold.
  rewrite (primary_file_names_untouched d d' Hd).
  rewrite (shard_ids_ext (mapping s') (mapping s))
    by (intros k Hk; by rewrite Hm).
  destruct (stems_differ _ _); by intros [= <-].
Qed.

(** *** Restoring primaries only writes files *)

Lemma only_files_changed_refl (s : ShardHandler) : only_files_changed s s.
Proof. unfold only_files_changed. by rewrite set_data_id. Qed.

Lemma only_files_changed_trans (s1 s2 s3 : ShardHandler) :
  only_files_changed s1 s2 -> only_files_changed s2 s3 ->
  only_files_changed s1 s3.
Proof. unfold only_files_changed. intros -> ->. reflexivity. Qed.

Lemma copyfile_only_files (src dst : string) (s s' : ShardHandler) :
  copyfile src dst s = (Ok tt, s') -> only_files_changed s s'.
Proof. by intros (d & c & _ & _ & _ & ->)%copyfile_inv. Qed.

Lemma lift_inv {A} (r : res A) (s s' : ShardHandler) (a : A) :
  lift r s = (Ok a, s') -> r = Ok a /\ s' = s.
Proof. by intros [= -> ->]. Qed.

Lemma copy_first_replica_only_files (i : Z) (other_files : list string)
    (s s' : ShardHandler) :
  copy_first_replica i other_files s = (Ok tt, s') -> only_files_changed s s'.
Proof.
  induction other_files as [|f fs IH]; simpl.
  - intros [= <-]. apply only_files_changed_refl.
  - intros (n & s1 & [_ ->]%lift_inv & H)%bind_Ok_inv.
    destruct (i =? n); [by eapply copyfile_only_files|by apply IH].
Qed.

Lemma restore_pass_only_files (s s' : ShardHandler) :
  restore_pass listdir s = (Ok tt, s') -> only_files_changed s s'.
Proof.
  unfold restore_pass, listdir_data.
  intros (files & s1 & Hls & H)%bind_Ok_inv.
  destruct (data s) as [d|]; [|discriminate]. injection Hls as <- <-.
  apply bind_Ok_inv in H as (pn & s1 & [_ ->]%lift_inv & H).
  apply bind_Ok_inv in H as (on & s1 & [_ ->]%lift_inv & H).
  apply bind_Ok_inv in H as (onum & s1 & [_ ->]%lift_inv & H).
  apply bind_Ok_inv in H as ([] & s1 & Hfirst & H).
  assert (H1 : only_files_changed s s1).
  { destruct (match max pn with Ok l => l <? onum | Err _ => true end).
    - destruct (last _); [by eapply copyfile_only_files|discriminate].
    - injection Hfirst as <-. apply only_files_changed_refl. }
  eapply only_files_changed_trans; [exact H1|].
  revert H. apply (for_invariant (only_files_changed s1));
    [|apply only_files_changed_refl].
  intros [i file] t t' _ Ht (n & t1 & [_ ->]%lift_inv & H)%bind_Ok_inv.
  eapply only_files_changed_trans; [exact Ht|].
  destruct (negb (i =? n)); [by eapply copy_first_replica_only_files|].
  injection H as <-. apply only_files_changed_refl.
Qed.

Lemma restore_loop_only_files (x : nat) (s s' : ShardHandler) :
  restore_loop listdir x s = (Ok tt, s') -> only_files_changed s s'.
Proof.
  revert s. induction x as [|x IH]; intros s; simpl;
    intros (okay & s1 & ->%primary_files_okay_state & H)%bind_Ok_inv.
  - injection H as <-. apply only_files_changed_refl.
  - destruct okay; [injection H as <-; apply only_files_changed_refl|].
    apply bind_Ok_inv in H as ([] & s2 & Hpass%restore_pass_only_files & H).
    eapply only_files_changed_trans; [exact Hpass|by apply IH].
Qed.

(** A completed [sync_replication] passed through a handler [sm] whose
    primaries were okay, with the mapping it started from, and then
    reconciled the levels. *)
Lemma sync_replication_inv (s s' : ShardHandler) :
  sync_replication listdir s = (Ok tt, s') ->
  exists sm,
    only_files_changed s sm
    /\ primary_files_okay listdir sm = (Ok true, sm)
    /\ update_replicated_levels listdir sm = (Ok tt, s').
Proof.
  unfold sync_replication.
  intros (okay & s1 & Hok & H)%bind_Ok_inv.
  pose proof (primary_files_okay_state _ _ _ Hok) as ->.
  apply bind_Ok_inv in H as ([] & sm & Hrestore & Hupd).
  exists sm. split; [|split; [|done]].
  - destruct okay; [injection Hrestore as <-; apply only_files_changed_refl|].
    unfold restore_primary_files, listdir_data in Hrestore.
    apply bind_Ok_inv in Hrestore as (files & s1 & Hls & H).
    destruct (data s); [|discriminate]. injection Hls as <- <-.
    apply bind_Ok_inv in H as ([] & s2 & Hloop%restore_loop_only_files & H).
    apply bind_Ok_inv in H as (okay & s3 & ->%primary_files_okay_state & H).
    destruct okay; [injection H as <-; done|discriminate].
  - destruct okay; [by injection Hrestore as <-|].
    unfold restore_primary_files in Hrestore.
    apply bind_Ok_inv in Hrestore as (files & s1 & Hls & H).
    apply bind_Ok_inv in H as ([] & s2 & Hloop & H).
    apply bind_Ok_inv in H as (okay & s3 & Hok' & H).
    pose proof (primary_files_okay_state _ _ _ Hok') as ->.
    destruct okay; [injection H as <-; done|discriminate].
Qed.

End Sync.

Lemma listdir_sorted_perm (d : gmap string text) :
  listdir_sorted d ≡ₚ elements (dom d).
Proof. apply sorted_Permutation. Qed.

(** ** Synchronisation: claims C2, C8 and C7 *)

Section SyncClaims.

Variable listdir : gmap string text -> list string.
Hypothesis listdir_perm : forall d, listdir d ≡ₚ elements (dom d).


(** A second [update_replicated_levels] finds nothing to change. *)
Lemma update_replicated_levels_again (s s1 : ShardHandler) :
  update_replicated_levels listdir s = (Ok tt, s1) ->
  is_Some (data s1) ->
  update_replicated_levels listdir s1 = (Ok tt, s1).
Proof.
  intros Hupd Hdata.
  destruct (update_replicated_levels_post listdir _ _ Hupd) as [Hal Hkeys].
  destruct (update_replicated_levels_untouched _ _ _ Hupd)
    as [(_ & _ & Hm & _) Hfile].
  assert (Hmir : forall shard level,
            shard ∈ shard_ids (mapping s1) ->
            level_recorded (mapping s1) level -> mirrored s1 shard level).
  { intros shard level Hshard (key & Hkey & Hl).
    apply (update_replicated_levels_mirrors listdir s s1 Hupd).
    - rewrite (shard_ids_ext (mapping s) (mapping s1)); [done|].
      intros k Hk. by rewrite Hm.
    - destruct (Hkeys key Hkey) as (l & Hl' & Hrec). congruence. }
  unfold update_replicated_levels.
  (* the first loop *)
  rewrite (bind_Ok _ _ s1 s1 (replication_ids (mapping s1))) by done.
  rewrite (bind_Ok _ _ s1 s1 tt).
  2:{ apply for_unchanged.
      intros key [Hdash Hsome]%elem_of_replication_ids.
      unfold align_replica. destruct Hsome as [v Hv].
      rewrite (bind_Ok _ _ s1 s1 v)
        by (apply mapping_item_Some; by rewrite <- Hal by eauto).
      unfold mapping_set, modify. by rewrite insert_id, set_mapping_id. }
  rewrite (bind_Ok _ _ s1 s1 (shard_ids (mapping s1))) by done.
  (* the dictionary *)
  destruct (group_by_level_total (replication_ids (mapping s1)) [])
    as [levels Hlevels].
  { intros key Hkey. destruct (Hkeys key Hkey) as (l & Hl & _). eauto. }
  rewrite (bind_Ok _ _ s1 s1 levels).
  2:{ unfold create_replication_dict.
      rewrite (bind_Ok _ _ s1 s1 (replication_ids (mapping s1))) by done.
      unfold lift. by rewrite Hlevels. }
  (* the second loop *)
  rewrite (bind_Ok _ _ s1 s1 tt).
  2:{ apply for_unchanged. intros [level rep_keys] Hin.
      unfold reconcile_level.
      destruct (rep_level_has_same_keys_total listdir rep_keys
                  (shard_ids (mapping s1)) level s1 Hdata) as [same Hsame].
      rewrite (bind_Ok _ _ s1 s1 same) by done.
      destruct same; [reflexivity|].
      apply for_unchanged. intros pk Hpk.
      apply regenerate_replica_unchanged.
      - by apply elem_of_shard_ids in Hpk as [? _].
      - apply Hmir; [done|].
        assert (Hl : level ∈ levels.*1)
          by (apply list_elem_of_fmap; by exists (level, rep_keys)).
        apply (group_by_level_levels _ _ _ Hlevels) in Hl
          as [[]%elem_of_nil|(key & Hkey & Hl)].
        by exists key. }
  unfold write_map, modify. by rewrite <- Hfile, set_mapfile_id.
Qed.

(** C8. Calling [sync_replication] a second time changes nothing: it
    leaves the mapping, the map file and every primary and replica blob
    as the first call left them. *)
Theorem sync_replication_idempotent (s s1 : ShardHandler) :
  sync_replication listdir s = (Ok tt, s1) ->
  sync_replication listdir s1 = (Ok tt, s1).
Proof.
  intros (sm & _ & Hok & Hupd)%sync_replication_inv.
  destruct (update_replicated_levels_untouched _ _ _ Hupd) as [Hfr _].
  pose proof (primary_files_okay_untouched listdir listdir_perm _ _ _ Hfr Hok)
    as Hok1.
  unfold sync_replication.
  rewrite (bind_Ok _ _ s1 s1 true) by done.
  rewrite (bind_Ok _ _ s1 s1 tt) by done.
  apply (update_replicated_levels_again sm); [done|].
  by eapply primary_files_okay_data.
Qed.


End SyncClaims.


Lemma sync_replication_idempotent_witness :
  let s := after (add_replication listdir_sorted)
             (after (build_shards 2 (txt "hello world")) fresh) in
  let damaged := set_data (delete "1.txt" <$> data s) s in
  let s1 := after (sync_replication listdir_sorted) damaged in
  sync_replication listdir_sorted s1 = (Ok tt, s1).
Proof.
  intros s damaged s1.
  apply (sync_replication_idempotent listdir_sorted listdir_sorted_perm
           damaged s1).
  vm_compute. reflexivity.
Defined.


(** ** The lookup engine: claim C6 *)

Lemma find_word_outside (index largest_key : Z) (ids : list string)
    (s : ShardHandler) :
  (forall key, key ∈ ids -> exists entry,
     mapping s !! key = Some entry
     /\ ~ (start entry <= index <= end_ entry)) ->
  find_word index largest_key ids s = (Ok None, s).
Proof.
  induction ids as [|key ids IH]; intros H; simpl; [reflexivity|].
  destruct (H key) as (entry & Hentry & Hout); [by left|].
  rewrite (bind_Ok _ _ s s entry) by (by apply mapping_item_Some).
  destruct (Z.leb_spec (start entry) index), (Z.leb_spec index (end_ entry));
    simpl; try lia; apply IH; intros k Hk; apply H; by right.
Qed.

(** C6 as stated (a lookup outside every shard range fails with an
    invalid-index error) does not hold: the loop over the shards ends and
    the method returns [None]. *)
Lemma lookup_outside_returns_none :
  let s := after (build_shards 2 (txt "hello world, this is")) fresh in
  Forall (fun '(key, entry) => ~ (start entry <= 100 <= end_ entry))
         (map_to_list (mapping s))
  /\ get_word_at_index 100 s = (Ok None, s)
  /\ ~ exists e s', get_word_at_index 100 s = (Err e, s').
Proof.
  intros s.
  assert (Hrun : get_word_at_index 100 s = (Ok None, s))
    by (vm_compute; reflexivity).
  split; [|split; [done|]].
  - remember (map_to_list (mapping s)) as l eqn:Hl.
    vm_compute in Hl. subst l. repeat constructor; simpl; lia.
  - intros (e & s' & Herr). rewrite Hrun in Herr. discriminate.
Qed.

(** C6, amended. For every index that lies outside the range of every
    primary shard, [get_word_at_index] returns normally, with no word
    ([None]) and without changing anything, whenever there is at least
    one primary shard and the shard ids read as integers; no error
    reports the valid ids. *)
Theorem lookup_outside_ranges (index : Z) (s : ShardHandler)
    (nums : list Z) :
  (forall key entry, key ∈ shard_ids (mapping s) ->
     mapping s !! key = Some entry ->
     ~ (start entry <= index <= end_ entry)) ->
  map_res int (shard_ids (mapping s)) = Ok nums -> nums <> [] ->
  get_word_at_index index s = (Ok None, s).
Proof.
  intros Hout Hnums Hne. unfold get_word_at_index.
  rewrite (bind_Ok _ _ s s (shard_ids (mapping s))) by done.
  rewrite (bind_Ok _ _ s s nums) by (unfold lift; by rewrite Hnums).
  destruct nums as [|n nums]; [done|].
  rewrite (bind_Ok _ _ s s (fold_left Z.max nums n)) by done.
  apply find_word_outside. intros key Hkey.
  destruct (proj1 (elem_of_shard_ids _ _) Hkey) as [_ [entry Hentry]].
  exists entry. split; [done|]. by apply (Hout key).
Qed.

Lemma lookup_outside_ranges_witness :
  let s := after (build_shards 2 (txt "hello world, this is")) fresh in
  get_word_at_index 21 s = (Ok None, s).
Proof.
  intros s. apply (lookup_outside_ranges 21 s [0; 1]).
  - intros key entry Hkey Hentry.
    assert (Hall : map_Forall (fun _ e => ~ (start e <= 21 <= end_ e))
                     (mapping s)).
    { apply map_Forall_to_list.
      remember (map_to_list (mapping s)) as l eqn:Hl.
      vm_compute in Hl. subst l. repeat constructor; simpl; lia. }
    by apply (Hall key entry).
  - vm_compute. reflexivity.
  - discriminate.
Defined.

(** ** Writing the shards *)

Lemma _write_shard_run (num : Z) (piece : text) (s : ShardHandler) :
  0 <= num ->
  _write_shard num piece s
  = (Ok tt,
     let pos := if num =? 0 then 0 else last_char_position s in
     {| mapping :=
          <[str num := {| start := (if pos =? 0 then pos else pos + 1);
                          end_ := pos + len piece |}]> (mapping s);
        last_char_position := pos + len piece;
        replication_level := replication_level s;
        mapfile := mapfile s;
        data := Some (<[txt_file (str num) := piece]> (default ∅ (data s))) |}).
Proof.
  intros Hnum. unfold _write_shard, _write_shard_mapping.
  rewrite bind_unfold. unfold modify at 1.
  rewrite bind_unfold. unfold write_file.
  assert (Hd : data (match data s with
                     | Some _ => s
                     | None => set_data (Some ∅) s
                     end) = Some (default ∅ (data s)))
    by (by destruct s as [m p l f [d|]]).
  rewrite Hd. rewrite bind_unfold. unfold lift. rewrite int_str by done.
  destruct (Z.eqb_spec num 0) as [->|Hne].
  - by destruct s as [m p l f [d|]].
  - by destruct s as [m p l f [d|]].
Qed.

Lemma shard_entries_keys (num pos : Z) (pieces : list text) :
  (shard_entries num pos pieces).*1 = str <$> seqZ num (len pieces).
Proof.
  revert num pos. induction pieces as [|p ps IH]; intros num pos; simpl.
  - reflexivity.
  - rewrite IH. unfold len. simpl length.
    rewrite (seqZ_cons num) by lia. simpl. do 3 f_equal; lia.
Qed.

Lemma shard_files_names (num : Z) (pieces : list text) :
  (shard_files num pieces).*1 = txt_file ∘ str <$> seqZ num (len pieces).
Proof.
  revert num. induction pieces as [|p ps IH]; intros num; simpl.
  - reflexivity.
  - rewrite IH. unfold len. simpl length.
    rewrite (seqZ_cons num) by lia. simpl. do 3 f_equal; lia.
Qed.

Lemma shard_entries_fresh (num num' pos : Z) (pieces : list text) :
  num < num' ->
  (list_to_map (shard_entries num' pos pieces) : gmap string meta) !! str num
  = None.
Proof.
  intros Hlt. apply not_elem_of_list_to_map_1.
  rewrite shard_entries_keys. intros (k & Hk%(inj str) & Hin)%list_elem_of_fmap.
  apply elem_of_seqZ in Hin. lia.
Qed.

Lemma shard_files_fresh (num num' : Z) (pieces : list text) :
  num < num' ->
  (list_to_map (shard_files num' pieces) : gmap string text)
    !! txt_file (str num) = None.
Proof.
  intros Hlt. apply not_elem_of_list_to_map_1.
  rewrite shard_files_names.
  intros (k & Hk%(inj txt_file)%(inj str) & Hin)%list_elem_of_fmap.
  apply elem_of_seqZ in Hin. lia.
Qed.

Lemma zip_seqZ_cons {A} (num : Z) (x : A) (l : list A) :
  zip (seqZ num (len (x :: l))) (x :: l)
  = (num, x) :: zip (seqZ (num + 1) (len l)) l.
Proof.
  unfold len. simpl length. rewrite (seqZ_cons num) by lia. simpl.
  do 3 f_equal; lia.
Qed.

Lemma shards_written_nonempty (num : Z) (pieces : list text)
    (s : ShardHandler) :
  pieces <> [] ->
  shards_written num pieces s
  = let pos := if num =? 0 then 0 else last_char_position s in
    {| mapping := list_to_map (shard_entries num pos pieces) ∪ mapping s;
       last_char_position := pos + len (concat pieces);
       replication_level := replication_level s;
       mapfile := mapfile s;
       data := Some (list_to_map (shard_files num pieces)
                     ∪ default ∅ (data s)) |}.
Proof. by destruct pieces. Qed.

(** The loop over [enumerate(spliced_data)] always completes, with the
    entries and files of [shard_entries] and [shard_files]. *)
Lemma write_shards_run (pieces : list text) (num : Z) (s : ShardHandler) :
  0 <= num ->
  for_ (zip (seqZ num (len pieces)) pieces)
       (fun '(num, piece) => _write_shard num piece) s
  = (Ok tt, shards_written num pieces s).
Proof.
  revert num s. induction pieces as [|p ps IH]; intros num s Hnum.
  - reflexivity.
  - rewrite zip_seqZ_cons. simpl for_.
    rewrite (bind_Ok _ _ _ _ _ (_write_shard_run num p s Hnum)).
    rewrite IH by lia. f_equal.
    rewrite (shards_written_nonempty num (p :: ps)) by done.
    cbv zeta. set (pos := if num =? 0 then 0 else last_char_position s).
    destruct (decide (ps = [])) as [->|Hps].
    + simpl. f_equal.
      * by rewrite <- insert_union_l, (left_id_L ∅ (∪)).
      * rewrite app_nil_r. reflexivity.
      * by rewrite <- insert_union_l, (left_id_L ∅ (∪)).
    + rewrite shards_written_nonempty by done.
      destruct (Z.eqb_spec (num + 1) 0) as [|_]; [lia|].
      cbv zeta. simpl last_char_position. simpl mapping. simpl data.
      simpl replication_level. simpl mapfile.
      f_equal.
      * simpl shard_entries. rewrite list_to_map_cons.
        rewrite <- insert_union_l, <- insert_union_r; [done|].
        apply shard_entries_fresh. lia.
      * simpl concat. unfold len. rewrite length_app. lia.
      * simpl shard_files. rewrite list_to_map_cons. f_equal.
        cbn [from_option id].
        rewrite <- insert_union_l, <- insert_union_r; [done|].
        apply shard_files_fresh. lia.
Qed.

(** ** The shard set that [build_shards] leaves *)

Lemma build_shards_run (count : Z) (d : text) (pieces : list text)
    (s : ShardHandler) :
  mapping s = ∅ -> _generate_sharded_data count d = Ok pieces ->
  build_shards count d s = (Ok None, built pieces s).
Proof.
  intros Hempty Hgen. unfold build_shards.
  rewrite (bind_Ok _ _ s s (mapping s)) by done.
  destruct (decide (mapping s = ∅)); [|done].
  rewrite (bind_Ok _ _ s s pieces) by (unfold lift; by rewrite Hgen).
  unfold enumerate, range.
  rewrite (bind_Ok _ _ _ _ _ (write_shards_run pieces 0 s ltac:(lia))).
  reflexivity.
Qed.

Lemma shard_entries_elem (pieces : list text) (num pos : Z) (i : nat)
    (piece : text) :
  pieces !! i = Some piece ->
  (str (num + Z.of_nat i),
   {| start := (let q := pos + len (concat (take i pieces)) in
                if q =? 0 then q else q + 1);
      end_ := pos + len (concat (take (S i) pieces)) |})
  ∈ shard_entries num pos pieces.
Proof.
  revert num pos i. induction pieces as [|p ps IH]; intros num pos i Hi.
  - done.
  - destruct i as [|i]; simpl.
    + rewrite Z.add_0_r, app_nil_r.
      replace (pos + len []) with pos by (unfold len; simpl; lia).
      by left.
    + right. simpl in Hi.
      replace (num + Z.of_nat (S i)) with (num + 1 + Z.of_nat i) by lia.
      unfold len. rewrite !length_app.
      replace (pos + Z.of_nat (length p + length (concat (take i ps))))
        with (pos + len p + len (concat (take i ps))) by (unfold len; lia).
      replace (pos + Z.of_nat (length p + length (concat (take (S i) ps))))
        with (pos + len p + len (concat (take (S i) ps)))
        by (unfold len; lia).
      by apply IH.
Qed.

Lemma shard_files_elem (pieces : list text) (num : Z) (i : nat)
    (piece : text) :
  pieces !! i = Some piece ->
  (txt_file (str (num + Z.of_nat i)), piece) ∈ shard_files num pieces.
Proof.
  revert num i. induction pieces as [|p ps IH]; intros num i Hi; [done|].
  destruct i as [|i]; simpl.
  - rewrite Z.add_0_r. injection Hi as ->. by left.
  - right. replace (num + Z.of_nat (S i)) with (num + 1 + Z.of_nat i) by lia.
    by apply IH.
Qed.

Lemma shard_entries_NoDup (num pos : Z) (pieces : list text) :
  NoDup (shard_entries num pos pieces).*1.
Proof.
  rewrite shard_entries_keys. apply (NoDup_fmap_2 _), NoDup_seqZ.
Qed.

Lemma shard_files_NoDup (num : Z) (pieces : list text) :
  NoDup (shard_files num pieces).*1.
Proof.
  rewrite shard_files_names. apply (NoDup_fmap_2 _), NoDup_seqZ.
Qed.

(** The entry and the file of shard [i] after a build. *)
Lemma built_shard (pieces : list text) (s : ShardHandler) (i : nat)
    (piece : text) :
  pieces !! i = Some piece ->
  mapping (built pieces s) !! str (Z.of_nat i)
  = Some {| start := (let q := len (concat (take i pieces)) in
                      if q =? 0 then q else q + 1);
            end_ := len (concat (take (S i) pieces)) |}
  /\ exists dir, data (built pieces s) = Some dir
                 /\ dir !! txt_file (str (Z.of_nat i)) = Some piece.
Proof.
  intros Hi. unfold built.
  rewrite shards_written_nonempty by (by intros ->).
  simpl. split.
  - apply lookup_union_Some_l, elem_of_list_to_map_1;
      [apply shard_entries_NoDup|].
    by apply (shard_entries_elem pieces 0 0 i piece).
  - eexists. split; [reflexivity|].
    apply lookup_union_Some_l, elem_of_list_to_map_1;
      [apply shard_files_NoDup|].
    by apply (shard_files_elem pieces 0 i piece).
Qed.

Lemma is_Some_list_to_map {V} (l : list (string * V)) (k : string) :
  is_Some ((list_to_map l : gmap string V) !! k) <-> k ∈ l.*1.
Proof.
  destruct (list_to_map l !! k) as [v|] eqn:H.
  - split; [intros _|by eauto]. apply elem_of_list_to_map_2 in H.
    apply list_elem_of_fmap. by exists (k, v).
  - split; [by intros []%is_Some_None|].
    intros Hin. by apply not_elem_of_list_to_map in H.
Qed.

Lemma built_shard_ids (pieces : list text) (s : ShardHandler) (key : string) :
  mapping s = ∅ ->
  key ∈ shard_ids (mapping (built pieces s))
  <-> exists i, 0 <= i < len pieces /\ key = str i.
Proof.
  intros Hempty. rewrite elem_of_shard_ids. unfold built.
  destruct (decide (pieces = [])) as [->|Hne].
  - simpl. rewrite Hempty, lookup_empty. split.
    + by intros [_ []%is_Some_None].
    + intros (i & Hi & _). unfold len in Hi. simpl in Hi. lia.
  - rewrite shards_written_nonempty by done. simpl.
    rewrite Hempty, (right_id_L ∅ (∪)).
    rewrite is_Some_list_to_map, shard_entries_keys. split.
    + intros [_ Hin].
      apply list_elem_of_fmap in Hin as (i & -> & Hin%elem_of_seqZ).
      exists i. split; [lia|done].
    + intros (i & Hi & ->). split; [apply dashed_str; lia|].
      apply list_elem_of_fmap. exists i.
      split; [done|]. apply elem_of_seqZ. lia.
Qed.

Lemma map_res_total {A B} (f : A -> res B) (l : list A) :
  (forall x, x ∈ l -> exists y, f x = Ok y) ->
  exists ys, map_res f l = Ok ys /\ length ys = length l.
Proof.
  induction l as [|x l IH]; intros H; simpl.
  - by exists [].
  - destruct (H x) as [y Hy]; [by left|].
    destruct IH as (ys & Hys & Hlen); [intros z Hz; apply H; by right|].
    exists (y :: ys). rewrite Hy, Hys. simpl. by rewrite Hlen.
Qed.

Lemma digit_ge_zero (c : ascii) :
  is_digit c = true -> Ascii.compare "0" c <> Gt.
Proof.
  destruct c as [[] [] [] [] [] [] [] []]; (discriminate || (intros _; discriminate)).
Qed.

Lemma str_ge_zero (i : Z) : 0 <= i -> String.le "0" (str i).
Proof.
  intros Hi. destruct (str_numeral i Hi) as [[Hne Hd] _].
  destruct (str i) as [|c r]; [done|]. simpl in Hd.
  apply Forall_cons in Hd as [Hc%digit_ge_zero _].
  unfold String.le, String.leb. simpl.
  destruct (Ascii.compare "0" c); [|done|done].
  by destruct r.
Qed.

Lemma sorted_head_min (l : list string) (x : string) :
  x ∈ l -> (forall y, y ∈ l -> String.le x y) ->
  exists t, sorted l = x :: t.
Proof.
  intros Hx Hmin. pose proof (sorted_Sorted l) as Hs.
  apply (Sorted_StronglySorted _) in Hs.
  apply elem_of_sorted in Hx.
  destruct (sorted l) as [|h t] eqn:Hl; [by apply elem_of_nil in Hx|].
  exists t. f_equal. apply StronglySorted_inv in Hs as [_ Hall].
  apply elem_of_cons in Hx as [->|Hx]; [done|].
  apply (anti_symm String.le).
  - by apply (proj1 (Forall_forall _ _) Hall).
  - apply Hmin, elem_of_sorted. rewrite Hl. by left.
Qed.

Lemma index_at_len {A} (l : list A) : index l (len l) = Err IndexError.
Proof.
  unfold index. destruct (Z.ltb_spec (len l) 0); [unfold len in *; lia|].
  by rewrite Z.leb_refl, orb_true_r.
Qed.

(** A local offset equal to the length of the shard's content is out of
    range. *)
Lemma word_in_shard_at_len (key : string) (largest_key : Z)
    (s : ShardHandler) (dir : gmap string text) (content : text) :
  data s = Some dir -> dir !! txt_file key = Some content ->
  word_in_shard key largest_key (len content) s = (Err IndexError, s).
Proof.
  intros Hdir Hfile. unfold word_in_shard.
  rewrite (bind_Ok _ _ s s content) by (by apply (read_file_Some _ _ dir)).
  rewrite bind_unfold. unfold lift. by rewrite index_at_len.
Qed.

(** ** The recorded offsets and the lookup: claim C10 *)

(** C10. For a shard set built from a text with a positive count (in
    particular from a non-empty text with at least 2 shards), the recorded
    end offset of every shard is the number of characters of the text up
    to and including that shard, that is, one past the offset of its last
    character; shard 0's end is its content length. Calling
    [get_word_at_index] with shard 0's recorded end selects shard 0,
    computes a local offset equal to its content length and fails with an
    out-of-range indexing error. *)
Theorem lookup_at_shard_end (count : Z) (d : text) (s : ShardHandler) :
  1 <= count -> mapping s = ∅ ->
  exists pieces s',
    _generate_sharded_data count d = Ok pieces
    /\ build_shards count d s = (Ok None, s')
    /\ (forall (i : nat) piece, pieces !! i = Some piece ->
          exists entry dir,
            mapping s' !! str (Z.of_nat i) = Some entry
            /\ data s' = Some dir
            /\ dir !! txt_file (str (Z.of_nat i)) = Some piece
            /\ end_ entry = len (concat (take (S i) pieces)))
    /\ exists piece0 entry0,
         pieces !! 0%nat = Some piece0
         /\ mapping s' !! "0" = Some entry0
         /\ end_ entry0 = len piece0
         /\ get_word_at_index (end_ entry0) s' = (Err IndexError, s').
Proof.
  intros Hcount Hempty.
  pose proof (_generate_sharded_data_positive count d Hcount) as Hgen.
  cbv zeta in Hgen.
  set (pieces := _ ++ [_]) in Hgen.
  assert (Hne : pieces <> []) by (subst pieces; by intros [_ ?]%app_eq_nil).
  clearbody pieces.
  exists pieces, (built pieces s).
  split; [done|]. split; [by apply build_shards_run|]. split.
  - intros i piece Hi.
    destruct (built_shard pieces s i piece Hi) as [Hentry (dir & Hdir & Hfile)].
    eexists _, dir. by repeat split.
  - destruct pieces as [|piece0 rest]; [done|].
    set (s' := built (piece0 :: rest) s).
    destruct (built_shard (piece0 :: rest) s 0 piece0 eq_refl)
      as [Hentry0 (dir & Hdir & Hfile)].
    fold s' in Hentry0, Hdir.
    assert (Hentry : mapping s' !! "0"
                     = Some {| start := 0; end_ := len piece0 |}).
    { change (str (Z.of_nat 0)) with "0" in Hentry0. rewrite Hentry0.
      simpl. by rewrite app_nil_r. }
    change (str (Z.of_nat 0)) with "0" in Hfile.
    eexists piece0, _. split; [done|]. split; [exact Hentry|].
    split; [done|]. cbn [end_].
    (* the selection of shard 0 *)
    assert (Hzero : "0" ∈ shard_ids (mapping s')).
    { apply built_shard_ids; [done|]. exists 0. split; [|done].
      unfold len. simpl. lia. }
    assert (Hkeys : forall key, key ∈ shard_ids (mapping s') ->
              exists i, 0 <= i /\ key = str i).
    { intros key (i & Hi & ->)%built_shard_ids; [|done]. exists i.
      split; [lia|done]. }
    destruct (sorted_head_min
                (filter (fun key => ¬ dashed key) (keys (mapping s'))) "0")
      as [t Hids].
    { by apply elem_of_sorted. }
    { intros y Hy%elem_of_sorted.
      destruct (Hkeys y Hy) as (i & Hi & ->). by apply str_ge_zero. }
    fold (shard_ids (mapping s')) in Hids.
    destruct (map_res_total int (shard_ids (mapping s'))) as (nums & Hnums & Hl).
    { intros key Hkey. destruct (Hkeys key Hkey) as (i & Hi & ->).
      exists i. by apply int_str. }
    unfold get_word_at_index.
    rewrite (bind_Ok _ _ s' s' (shard_ids (mapping s'))) by done.
    rewrite (bind_Ok _ _ s' s' nums) by (unfold lift; by rewrite Hnums).
    destruct nums as [|n nums]; [by rewrite Hids in Hl|].
    rewrite (bind_Ok _ _ s' s' (fold_left Z.max nums n)) by done.
    rewrite Hids. simpl find_word.
    rewrite (bind_Ok _ _ s' s' _ (mapping_item_Some _ _ _ Hentry)).
    cbn [start end_].
    assert (Hle1 : (0 <=? len piece0) = true)
      by (apply Z.leb_le; unfold len; lia).
    rewrite Hle1, Z.leb_refl. cbn [andb].
    rewrite Z.sub_0_r, bind_unfold.
    by rewrite (word_in_shard_at_len "0" _ s' dir piece0).
Qed.

Lemma lookup_at_shard_end_witness :
  exists pieces s',
    _generate_sharded_data 2 (txt "hello world") = Ok pieces
    /\ build_shards 2 (txt "hello world") fresh = (Ok None, s')
    /\ (forall (i : nat) piece, pieces !! i = Some piece ->
          exists entry dir,
            mapping s' !! str (Z.of_nat i) = Some entry
            /\ data s' = Some dir
            /\ dir !! txt_file (str (Z.of_nat i)) = Some piece
            /\ end_ entry = len (concat (take (S i) pieces)))
    /\ exists piece0 entry0,
         pieces !! 0%nat = Some piece0
         /\ mapping s' !! "0" = Some entry0
         /\ end_ entry0 = len piece0
         /\ get_word_at_index (end_ entry0) s' = (Err IndexError, s').
Proof.
  apply (lookup_at_shard_end 2 (txt "hello world") fresh); [lia|reflexivity].
Defined.

(** ** Handlers in sync *)

(** File names of numerals sort like the numerals: the dot comes before
    every digit. *)
Lemma compare_txt_file (a b : string) :
  Forall (fun c => is_digit c = true) (list_ascii_of_string a) ->
  Forall (fun c => is_digit c = true) (list_ascii_of_string b) ->
  String.compare a b <> Gt ->
  String.compare (txt_file a) (txt_file b) <> Gt.
Proof.
  unfold txt_file. revert b.
  induction a as [|x a IH]; intros [|y b] Ha Hb Hab.
  - done.
  - rewrite string_app_cons. simpl in Hb. apply Forall_cons in Hb as [Hy _].
    simpl. destruct y as [[] [] [] [] [] [] [] []]; discriminate.
  - done.
  - rewrite !string_app_cons. simpl in *.
    apply Forall_cons in Ha as [_ Ha]. apply Forall_cons in Hb as [_ Hb].
    destruct (Ascii.compare x y); [by apply IH|done|done].
Qed.

Lemma le_txt_file (a b : string) :
  Forall (fun c => is_digit c = true) (list_ascii_of_string a) ->
  Forall (fun c => is_digit c = true) (list_ascii_of_string b) ->
  String.le a b -> String.le (txt_file a) (txt_file b).
Proof.
  intros Ha Hb. unfold String.le, String.leb.
  pose proof (compare_txt_file a b Ha Hb) as H.
  destruct (String.compare a b); destruct (String.compare _ _); try done;
    intros _; by apply H.
Qed.

Lemma StronglySorted_fmap_on (f : string -> string) (l : list string)
    (P : string -> Prop) :
  (forall x y, P x -> P y -> String.le x y -> String.le (f x) (f y)) ->
  Forall P l -> StronglySorted String.le l ->
  StronglySorted String.le (f <$> l).
Proof.
  intros Hmono HP Hs. induction Hs as [|x l Hs IH Hx]; [constructor|].
  apply Forall_cons in HP as [HPx HPl]. simpl. constructor; [by apply IH|].
  apply Forall_fmap, Forall_forall. intros y Hy. simpl.
  apply Hmono; [done| |].
  - by apply (proj1 (Forall_forall _ _) HPl).
  - by apply (proj1 (Forall_forall _ _) Hx).
Qed.

Lemma head_piece_txt_file_numeral (k : string) :
  Forall (fun c => is_digit c = true) (list_ascii_of_string k) ->
  head_piece "." (txt_file k) = k.
Proof.
  intros Hk. apply head_piece_app_sep. apply not_true_is_false.
  intros Hc%contains_chars.
  by apply (proj1 (Forall_forall _ _) Hk) in Hc.
Qed.

Lemma stems_differ_txt_files (ids : list string) :
  Forall (fun k => Forall (fun c => is_digit c = true)
                          (list_ascii_of_string k)) ids ->
  stems_differ (txt_file <$> ids) ids = false.
Proof.
  unfold stems_differ. induction 1 as [|k ids Hk _ IH]; [reflexivity|].
  simpl. rewrite head_piece_txt_file_numeral by done.
  by rewrite bool_decide_true.
Qed.

Section InSync.

Variable listdir : gmap string text -> list string.
Hypothesis listdir_perm : forall d, listdir d ≡ₚ elements (dom d).

(** A handler whose primaries are okay and whose mapping has no replica
    entry is in sync once the map file is written. *)
Lemma sync_replication_no_replica (s : ShardHandler) :
  primary_files_okay listdir s = (Ok true, s) ->
  replication_ids (mapping s) = [] ->
  mapfile s = Some (mapping s) ->
  sync_replication listdir s = (Ok tt, s).
Proof.
  intros Hok Hnone Hfile. unfold sync_replication.
  rewrite (bind_Ok _ _ s s true) by done.
  rewrite (bind_Ok _ _ s s tt) by done.
  unfold update_replicated_levels.
  rewrite (bind_Ok _ _ s s []) by (unfold get_replication_ids, gets; by rewrite Hnone).
  rewrite (bind_Ok _ _ s s tt) by done.
  rewrite (bind_Ok _ _ s s (shard_ids (mapping s))) by done.
  rewrite (bind_Ok _ _ s s []).
  2:{ unfold create_replication_dict.
      rewrite (bind_Ok _ _ s s []); [done|].
      unfold get_replication_ids, gets. by rewrite Hnone. }
  rewrite (bind_Ok _ _ s s tt) by done.
  unfold write_map, modify. by rewrite <- Hfile, set_mapfile_id.
Qed.

(** The shard set built on a fresh handler is in sync. *)
Lemma build_in_sync (pieces : list text) :
  pieces <> [] ->
  sync_replication listdir (built pieces fresh)
  = (Ok tt, built pieces fresh).
Proof.
  intros Hne. set (s := built pieces fresh).
  assert (Hids : forall key, key ∈ shard_ids (mapping s) <->
            exists i, 0 <= i < len pieces /\ key = str i)
    by (intros key; by apply built_shard_ids).
  assert (Hnum : Forall (fun k => Forall (fun c => is_digit c = true)
                                         (list_ascii_of_string k))
                        (shard_ids (mapping s))).
  { apply Forall_forall. intros key (i & Hi & ->)%Hids.
    apply (str_numeral i). lia. }
  assert (Hmap : mapping s
                 = list_to_map (shard_entries 0 0 pieces)).
  { subst s. unfold built. rewrite shards_written_nonempty by done.
    simpl. by rewrite (right_id_L ∅ (∪)). }
  assert (Hdata : data s = Some (list_to_map (shard_files 0 pieces))).
  { subst s. unfold built. rewrite shards_written_nonempty by done.
    simpl. by rewrite (right_id_L ∅ (∪)). }
  assert (Hkeys : forall key, is_Some (mapping s !! key) ->
            exists i, 0 <= i < len pieces /\ key = str i).
  { intros key. rewrite Hmap, is_Some_list_to_map, shard_entries_keys.
    intros (i & -> & Hi%elem_of_seqZ)%list_elem_of_fmap.
    exists i. split; [lia|done]. }
  apply sync_replication_no_replica.
  - (* the primaries are okay *)
    unfold primary_files_okay, listdir_data, get_shard_ids, gets.
    rewrite !bind_unfold, Hdata, !bind_unfold.
    set (d := list_to_map (shard_files 0 pieces) : gmap string text).
    assert (Hfiles : sorted (filter (fun file => ¬ dashed file) (listdir d))
                     = txt_file <$> shard_ids (mapping s)).
    { apply (Sorted_unique String.le); [apply sorted_Sorted| |].
      - apply StronglySorted_Sorted.
        apply (StronglySorted_fmap_on txt_file _ _ le_txt_file Hnum).
        apply (Sorted_StronglySorted _), sorted_Sorted.
      - rewrite sorted_Permutation, listdir_perm.
        apply NoDup_Permutation.
        + apply NoDup_filter, NoDup_elements.
        + apply (NoDup_fmap_2 _). unfold shard_ids.
          rewrite sorted_Permutation. apply NoDup_filter, NoDup_elements.
        + intros x. rewrite list_elem_of_filter, elem_of_elements, elem_of_dom.
          unfold d. rewrite is_Some_list_to_map, shard_files_names.
          rewrite !list_elem_of_fmap. split.
          * intros [_ (i & -> & Hi%elem_of_seqZ)].
            exists (str i). split; [done|]. apply Hids. exists i.
            split; [lia|done].
          * intros (k & -> & (i & Hi & ->)%Hids). split.
            -- apply Is_true_false. rewrite dashed_txt_file.
               apply dashed_str. lia.
            -- exists i. split; [done|]. apply elem_of_seqZ. lia. }
    rewrite Hfiles, stems_differ_txt_files by done.
    by rewrite length_fmap, bool_decide_true.
  - (* no replica entry *)
    apply elem_of_nil_inv. intros key [Hdash Hsome]%elem_of_replication_ids.
    destruct (Hkeys key Hsome) as (i & Hi & ->).
    rewrite dashed_str in Hdash by lia. done.
  - subst s. unfold built. reflexivity.
Qed.

(** Every completed operation leaves the handler in sync. *)
Lemma sync_replication_in_sync (s s' : ShardHandler) :
  sync_replication listdir s = (Ok tt, s') ->
  sync_replication listdir s' = (Ok tt, s').
Proof.
  intros (sm & _ & Hok & Hupd)%sync_replication_inv.
  destruct (update_replicated_levels_untouched _ _ _ Hupd) as [Hfr _].
  unfold sync_replication.
  rewrite (bind_Ok _ _ s' s' true)
    by (by apply (primary_files_okay_untouched listdir listdir_perm sm)).
  rewrite (bind_Ok _ _ s' s' tt) by done.
  apply (update_replicated_levels_again listdir sm); [done|].
  apply (primary_files_okay_data listdir s' true).
  by apply (primary_files_okay_untouched listdir listdir_perm sm).
Qed.

Lemma add_shard_in_sync (s s' : ShardHandler) :
  add_shard listdir s = (Ok tt, s') ->
  sync_replication listdir s' = (Ok tt, s').
Proof.
  unfold add_shard. intros H.
  do 10 (apply bind_Ok_inv in H as (? & ? & _ & H)).
  by eapply sync_replication_in_sync.
Qed.

Lemma remove_shard_in_sync (s s' : ShardHandler) :
  remove_shard listdir s = (Ok tt, s') ->
  sync_replication listdir s' = (Ok tt, s').
Proof.
  unfold remove_shard. intros H.
  do 15 (apply bind_Ok_inv in H as (? & ? & _ & H)).
  by eapply sync_replication_in_sync.
Qed.

Lemma add_replication_in_sync (s s' : ShardHandler) :
  add_replication listdir s = (Ok tt, s') ->
  sync_replication listdir s' = (Ok tt, s').
Proof.
  unfold add_replication. intros H.
  do 8 (apply bind_Ok_inv in H as (? & ? & _ & H)).
  by eapply sync_replication_in_sync.
Qed.

Lemma remove_replication_in_sync (s s' : ShardHandler) :
  remove_replication listdir s = (Ok tt, s') ->
  sync_replication listdir s' = (Ok tt, s').
Proof.
  unfold remove_replication. intros H.
  do 9 (apply bind_Ok_inv in H as (? & ? & _ & H)).
  by eapply sync_replication_in_sync.
Qed.

End InSync.

(** ** Reachable handlers are well formed and in sync *)

Lemma mapping_grows_refl (s : ShardHandler) : mapping_grows s s.
Proof. by split. Qed.

Lemma mapping_grows_trans (s1 s2 s3 : ShardHandler) :
  mapping_grows s1 s2 -> mapping_grows s2 s3 -> mapping_grows s1 s3.
Proof.
  intros [H1 L1] [H2 L2]. split; [|congruence].
  intros key Hk. by apply H2, H1.
Qed.

Lemma level_recorded_grows (m m' : gmap string meta) (level : Z) :
  (forall key, is_Some (m !! key) -> is_Some (m' !! key)) ->
  level_recorded m level -> level_recorded m' level.
Proof.
  intros Hg (key & [Hdash Hsome]%elem_of_replication_ids & Hl).
  exists key. split; [|done]. apply elem_of_replication_ids. auto.
Qed.

Lemma shard_ids_nonempty_kept (m m' : gmap string meta) :
  (forall key, dashed key = false ->
     is_Some (m !! key) -> is_Some (m' !! key)) ->
  shard_ids m <> [] -> shard_ids m' <> [].
Proof.
  intros Hg Hne Hnil. destruct (shard_ids m) as [|key ids] eqn:Hids; [done|].
  assert (Hin : key ∈ shard_ids m) by (rewrite Hids; by left).
  apply elem_of_shard_ids in Hin as [Hdash Hsome].
  assert (Hin' : key ∈ shard_ids m') by (apply elem_of_shard_ids; auto).
  rewrite Hnil in Hin'. by apply elem_of_nil in Hin'.
Qed.

Lemma shard_ids_nonempty_grows (m m' : gmap string meta) :
  (forall key, is_Some (m !! key) -> is_Some (m' !! key)) ->
  shard_ids m <> [] -> shard_ids m' <> [].
Proof. intros Hg. apply shard_ids_nonempty_kept. auto. Qed.

Lemma well_formed_grows (s s' : ShardHandler) :
  mapping_grows s s' -> well_formed s -> well_formed s'.
Proof.
  intros [Hg HL] (Hlevel & Hids & Hrec). unfold well_formed. rewrite HL.
  split; [done|]. split; [by eapply shard_ids_nonempty_grows|].
  intros level Hl. eapply level_recorded_grows; [exact Hg|by apply Hrec].
Qed.

Lemma regenerate_replica_grows (level : Z) (pk : string)
    (s s' : ShardHandler) :
  regenerate_replica level pk s = (Ok tt, s') -> mapping_grows s s'.
Proof.
  intros (v & d & c & Hv & Hd & Hc & ->)%regenerate_replica_inv.
  split; [|reflexivity]. simpl. intros key Hk.
  destruct (decide (replica_key pk level = key)) as [<-|Hne].
  - rewrite lookup_insert_eq. eauto.
  - by rewrite lookup_insert_ne.
Qed.

Section Reachable.

Variable listdir : gmap string text -> list string.
Hypothesis listdir_perm : forall d, listdir d ≡ₚ elements (dom d).

Lemma update_replicated_levels_grows (s s' : ShardHandler) :
  update_replicated_levels listdir s = (Ok tt, s') -> mapping_grows s s'.
Proof.
  intros (sA & sB & levels & HA & Hd & HB & ->)%update_replicated_levels_inv.
  apply align_replicas_spec in HA as (_ & Hdom & (_ & HL & _ & _) & _).
  assert (HAB : mapping_grows sA sB).
  { revert HB. apply (reconcile_invariant listdir (mapping_grows sA));
      [|apply mapping_grows_refl].
    intros level pk t t' _ _ Ht Hstep.
    eapply mapping_grows_trans; [exact Ht|].
    by eapply regenerate_replica_grows. }
  destruct HAB as [Hg HL']. split; simpl; [|congruence].
  intros key Hk. by apply Hg, Hdom.
Qed.

Lemma sync_replication_grows (s s' : ShardHandler) :
  sync_replication listdir s = (Ok tt, s') ->
  mapping_grows s s' /\ mapfile s' = Some (mapping s').
Proof.
  intros (sm & Hfiles & _ & Hupd)%sync_replication_inv.
  destruct (update_replicated_levels_untouched _ _ _ Hupd) as [_ Hmf].
  split; [|done].
  apply update_replicated_levels_grows in Hupd.
  rewrite Hfiles in Hupd. exact Hupd.
Qed.

Lemma shards_written_grows (num : Z) (pieces : list text) (s : ShardHandler) :
  mapping_grows s (shards_written num pieces s).
Proof.
  destruct (decide (pieces = [])) as [->|Hne]; [apply mapping_grows_refl|].
  rewrite shards_written_nonempty by done. split; [|reflexivity].
  simpl. intros key [v Hv].
  destruct ((list_to_map (shard_entries num
               (if num =? 0 then 0 else last_char_position s) pieces)
             : gmap string meta) !! key) as [w|] eqn:Hw.
  - exists w. by apply lookup_union_Some_l.
  - exists v. rewrite lookup_union_r; done.
Qed.

Lemma read_all_state (ids : list string) (s s' : ShardHandler)
    (r : res (list text)) :
  read_all ids s = (r, s') -> s' = s.
Proof.
  revert r s'. induction ids as [|db ids IH]; intros r s'; simpl.
  - by intros [= _ <-].
  - rewrite bind_unfold. unfold read_file.
    destruct (data s) as [d|]; [|by intros [= _ <-]].
    destruct (d !! txt_file db); [|by intros [= _ <-]].
    rewrite bind_unfold. destruct (read_all ids s) as [r1 s1].
    specialize (IH r1 s1 eq_refl) as ->.
    destruct r1; by intros [= _ <-].
Qed.

Lemma load_data_from_shards_state (s s' : ShardHandler) (r : res text) :
  load_data_from_shards s = (r, s') -> s' = s.
Proof.
  unfold load_data_from_shards, get_shard_ids, gets. rewrite !bind_unfold.
  destruct (read_all _ s) as [r1 s1] eqn:Hread.
  apply read_all_state in Hread as ->.
  destruct r1; by intros [= _ <-].
Qed.

(** The handler on which an operation starts its work, after the first
    [sync_replication] and the reload of the map file. *)
Lemma reload_after_sync (s s1 : ShardHandler) :
  sync_replication listdir s = (Ok tt, s1) ->
  set_mapping (default ∅ (mapfile s1)) s1 = s1.
Proof.
  intros [_ Hmf]%sync_replication_grows. rewrite Hmf. apply set_mapping_id.
Qed.

Lemma add_shard_grows (s s' : ShardHandler) :
  add_shard listdir s = (Ok tt, s') -> mapping_grows s s'.
Proof.
  unfold add_shard. intros H.
  apply bind_Ok_inv in H as ([] & s1 & Hsync & H).
  apply bind_Ok_inv in H as (m & ? & [= <- <-] & H).
  apply bind_Ok_inv in H as ([] & s2 & [= <-] & H).
  rewrite (reload_after_sync s s1 Hsync) in H.
  apply bind_Ok_inv in H as (d & ? & ->%load_data_from_shards_state & H).
  apply bind_Ok_inv in H as (ids & ? & [= <- <-] & H).
  apply bind_Ok_inv in H as (nums & ? & [_ ->]%lift_inv & H).
  apply bind_Ok_inv in H as (largest & ? & [_ ->]%lift_inv & H).
  apply bind_Ok_inv in H as (pieces & ? & [_ ->]%lift_inv & H).
  unfold enumerate, range in H.
  rewrite (bind_Ok _ _ _ _ _ (write_shards_run pieces 0 s1 ltac:(lia))) in H.
  apply bind_Ok_inv in H as ([] & s3 & [= <-] & Hsync').
  apply sync_replication_grows in Hsync as [Hg1 _].
  apply sync_replication_grows in Hsync' as [Hg2 _].
  eapply mapping_grows_trans; [exact Hg1|].
  eapply mapping_grows_trans; [apply (shards_written_grows 0 pieces)|].
  exact Hg2.
Qed.

Lemma for_only_files {A} (l : list A) (body : A -> M unit)
    (s s' : ShardHandler) :
  (forall x t t', x ∈ l -> body x t = (Ok tt, t') -> only_files_changed t t') ->
  for_ l body s = (Ok tt, s') -> only_files_changed s s'.
Proof.
  intros Hbody. apply (for_invariant (only_files_changed s));
    [|apply only_files_changed_refl].
  intros x t t' Hx Ht Hstep.
  eapply only_files_changed_trans; [exact Ht|by eapply Hbody].
Qed.

Lemma map_res_elem {A B} (f : A -> res B) (l : list A) (ys : list B) (y : B) :
  map_res f l = Ok ys -> y ∈ ys -> exists x, x ∈ l /\ f x = Ok y.
Proof.
  revert ys. induction l as [|x l IH]; intros ys; simpl.
  - intros [= <-] []%elem_of_nil.
  - intros (y0 & Hy0 & (ys0 & Hys0 & [= <-])%res_bind_Ok_inv)%res_bind_Ok_inv.
    intros [->|Hy]%elem_of_cons.
    + exists x. split; [by left|done].
    + destruct (IH ys0 Hys0 Hy) as (x' & Hx' & Hfx'). exists x'.
      split; [by right|done].
Qed.

Lemma map_res_length {A B} (f : A -> res B) (l : list A) (ys : list B) :
  map_res f l = Ok ys -> length ys = length l.
Proof.
  revert ys. induction l as [|x l IH]; intros ys; simpl.
  - by intros [= <-].
  - intros (y0 & Hy0 & (ys0 & Hys0 & [= <-])%res_bind_Ok_inv)%res_bind_Ok_inv.
    simpl. f_equal. by apply IH.
Qed.

Lemma listdir_data_state (s s' : ShardHandler) (r : res (list string)) :
  listdir_data listdir s = (r, s') -> s' = s.
Proof. unfold listdir_data. destruct (data s); by intros [= _ <-]. Qed.

(** After a sync every primary is mirrored at every level that was
    recorded. *)
Lemma sync_replication_mirrors_recorded (s s' : ShardHandler) :
  sync_replication listdir s = (Ok tt, s') ->
  forall shard level,
    shard ∈ shard_ids (mapping s') -> level_recorded (mapping s) level ->
    mirrored s' shard level.
Proof.
  intros (sm & Hfiles & _ & Hupd)%sync_replication_inv shard level Hs Hl.
  destruct (update_replicated_levels_untouched _ _ _ Hupd)
    as [(_ & _ & Hm & _) _].
  apply (update_replicated_levels_mirrors listdir sm s' Hupd).
  - rewrite (shard_ids_ext (mapping sm) (mapping s')); [done|].
    intros k Hk. by rewrite Hm.
  - by rewrite Hfiles.
Qed.

Lemma add_replication_well_formed (s s' : ShardHandler) :
  well_formed s -> add_replication listdir s = (Ok tt, s') -> well_formed s'.
Proof.
  intros Hwf H. unfold add_replication in H.
  apply bind_Ok_inv in H as ([] & s1 & Hsync & H).
  apply sync_replication_grows in Hsync as [Hg1 _].
  pose proof (well_formed_grows _ _ Hg1 Hwf) as (HL1 & Hids1 & Hrec1).
  apply bind_Ok_inv in H as ([] & s2 & [= <-] & H).
  apply bind_Ok_inv in H as (level & ? & [= <- <-] & H).
  apply bind_Ok_inv in H as (files & ? & ->%listdir_data_state & H).
  simpl replication_level in H.
  apply bind_Ok_inv in H as ([] & s3 & Hcopy & H).
  apply for_only_files in Hcopy.
  2:{ intros [i file] t t' _ Hstep. by eapply copyfile_only_files. }
  apply bind_Ok_inv in H as (ids & ? & [= <- <-] & H).
  apply bind_Ok_inv in H as ([] & s4 & Hset & H).
  apply bind_Ok_inv in H as ([] & s5 & [= <-] & Hsync').
  apply sync_replication_grows in Hsync' as [Hg5 _].
  assert (Hm3 : mapping s3 = mapping s1) by (by rewrite Hcopy).
  assert (HL3 : replication_level s3 = replication_level s1 + 1)
    by (by rewrite Hcopy).
  (* the loop over the shard ids records the new level and keeps the rest *)
  assert (H4 : mapping_grows s3 s4
               /\ is_Some (mapping s4
                           !! replica_key (str 0) (replication_level s1 + 1))).
  { rewrite Hm3 in Hset.
    destruct (shard_ids (mapping s1)) as [|key0 ids] eqn:Hids; [done|].
    unfold enumerate, range in Hset. rewrite zip_seqZ_cons in Hset.
    simpl in Hset.
    apply bind_Ok_inv in Hset as ([] & t0 & Hfirst & Hrest).
    apply bind_Ok_inv in Hfirst as (v & ? & [_ ->]%mapping_item_inv & Hfirst).
    injection Hfirst as <-.
    set (t0 := set_mapping _ s3) in Hrest.
    assert (Hgrow : forall (x : Z * string) t t',
              (let '(i, key) := x in
               v ← mapping_item key;
               mapping_set (replica_key (str i) (replication_level s1 + 1)) v)
                t = (Ok tt, t') -> mapping_grows t t').
    { intros [i key] t t' (w & ? & [_ ->]%mapping_item_inv & [= <-])%bind_Ok_inv.
      split; [|reflexivity]. simpl. intros k Hk.
      destruct (decide (replica_key (str i) (replication_level s1 + 1) = k))
        as [<-|Hne]; [rewrite lookup_insert_eq; eauto|].
      by rewrite lookup_insert_ne. }
    assert (Hg : mapping_grows t0 s4).
    { revert Hrest. apply (for_invariant (mapping_grows t0));
        [|apply mapping_grows_refl].
      intros x t t' _ Ht Hstep.
      eapply mapping_grows_trans; [exact Ht|by eapply Hgrow]. }
    split.
    - eapply mapping_grows_trans; [|exact Hg].
      split; [|reflexivity]. subst t0. simpl. intros k Hk.
      destruct (decide (replica_key (str 0) (replication_level s1 + 1) = k))
        as [<-|Hne]; [rewrite lookup_insert_eq; eauto|].
      by rewrite lookup_insert_ne.
    - apply Hg. subst t0. simpl. rewrite lookup_insert_eq. eauto. }
  destruct H4 as [[Hg4 HL4] Hnew]. destruct Hg5 as [Hg5 HL5]. simpl in *.
  assert (Hchain : forall key, is_Some (mapping s1 !! key) ->
            is_Some (mapping s' !! key)).
  { intros key Hk. apply Hg5, Hg4. by rewrite Hm3. }
  unfold well_formed. rewrite HL5, HL4, HL3.
  split; [lia|]. split; [by eapply shard_ids_nonempty_grows|].
  intros l Hl. destruct (decide (l = replication_level s1 + 1)) as [->|Hne].
  - exists (replica_key (str 0) (replication_level s1 + 1)). split.
    + apply elem_of_replication_ids. split; [apply dashed_replica_key|].
      by apply Hg5.
    + apply level_of_replica_key; [by apply dashed_str|lia].
  - eapply level_recorded_grows; [exact Hchain|]. apply Hrec1. lia.
Qed.

Lemma mapping_pop_inv (key : string) (s s' : ShardHandler) :
  mapping_pop key s = (Ok tt, s') ->
  s' = set_mapping (delete key (mapping s)) s.
Proof.
  unfold mapping_pop. destruct (mapping s !! key); [|discriminate].
  by intros [= <-].
Qed.

Lemma remove_file_inv (name : string) (s s' : ShardHandler) :
  remove_file name s = (Ok tt, s') -> only_files_changed s s'.
Proof.
  unfold remove_file. destruct (data s) as [d|]; [|discriminate].
  destruct (d !! name); [|discriminate]. by intros [= <-].
Qed.

Lemma remove_replication_well_formed (s s' : ShardHandler) :
  well_formed s -> remove_replication listdir s = (Ok tt, s') ->
  well_formed s'.
Proof.
  intros Hwf H. unfold remove_replication in H.
  apply bind_Ok_inv in H as ([] & s1 & Hsync & H).
  apply sync_replication_grows in Hsync as [Hg1 _].
  pose proof (well_formed_grows _ _ Hg1 Hwf) as (HL1 & Hids1 & Hrec1).
  apply bind_Ok_inv in H as (level & ? & [= <- <-] & H).
  apply bind_Ok_inv in H as ([] & ? & Hcheck & H).
  destruct (Z.eqb_spec (replication_level s1) 0) as [|HL0]; [discriminate|].
  injection Hcheck as <-.
  apply bind_Ok_inv in H as ([] & s2 & [= <-] & H).
  apply bind_Ok_inv in H as (level & ? & [= <- <-] & H).
  apply bind_Ok_inv in H as (ids & ? & [= <- <-] & H).
  apply bind_Ok_inv in H as (backup_keys & ? & [Hbackup ->]%lift_inv & H).
  simpl in Hbackup, H.
  apply bind_Ok_inv in H as ([] & s3 & Hpop & H).
  apply bind_Ok_inv in H as ([] & s4 & [= <-] & Hsync').
  apply sync_replication_grows in Hsync' as [[Hg4 HL4] _]. simpl in *.
  set (s2 := set_replication_level (replication_level s1 - 1) s1) in *.
  (* entries that are not popped stay *)
  assert (Hkept : forall key,
            key ∉ (filter (fun kb : string * bool => kb.2 = true)
                          backup_keys).*1 ->
            is_Some (mapping s1 !! key) -> is_Some (mapping s3 !! key)).
  { intros key Hkey Hsome.
    revert Hpop. apply (for_invariant (fun t =>
      is_Some (mapping t !! key))); [|done].
    intros [k b] t t' Hin Ht ([] & t1 & ->%mapping_pop_inv & Hrm)%bind_Ok_inv.
    apply remove_file_inv in Hrm. rewrite Hrm. simpl.
    rewrite lookup_delete_ne; [done|]. intros ->. apply Hkey.
    apply list_elem_of_fmap. by exists (key, b). }
  assert (HL3 : replication_level s3 = replication_level s1 - 1).
  { revert Hpop. apply (for_invariant (fun t =>
      replication_level t = replication_level s1 - 1)); [|done].
    intros [k b] t t' _ Ht ([] & t1 & ->%mapping_pop_inv & Hrm)%bind_Ok_inv.
    apply remove_file_inv in Hrm. by rewrite Hrm. }
  assert (Hpopped : forall key b,
            (key, b) ∈ filter (fun kb : string * bool => kb.2 = true)
                              backup_keys ->
            dashed key = true
            /\ exists n, level_of key = Ok n /\ replication_level s1 - 1 < n).
  { intros key b [Hb Hin]%list_elem_of_filter. simpl in Hb. subst b.
    destruct (map_res_elem _ _ _ _ Hbackup Hin) as (k & Hk & Hf).
    apply res_bind_Ok_inv in Hf as (n & Hn & [= -> Hdec]).
    apply elem_of_replication_ids in Hk as [Hdash _].
    split; [done|]. exists n. split; [done|].
    by apply bool_decide_eq_true in Hdec. }
  unfold well_formed. rewrite HL4, HL3.
  split; [lia|]. split.
  - apply (shard_ids_nonempty_kept (mapping s1)); [|done].
    intros key Hdash Hsome. apply Hg4, Hkept; [|done].
    intros ((k & b) & -> & Hin)%list_elem_of_fmap. simpl in *.
    destruct (Hpopped k b Hin) as [? _]. congruence.
  - intros l Hl. destruct (Hrec1 l ltac:(lia)) as (key & Hkey & Hlevel).
    exists key. split; [|done].
    apply elem_of_replication_ids in Hkey as [Hdash Hsome].
    apply elem_of_replication_ids. split; [done|]. apply Hg4, Hkept; [|done].
    intros ((k & b) & -> & Hin)%list_elem_of_fmap. simpl in *.
    destruct (Hpopped k b Hin) as [_ (n & Hn & Hlt)].
    assert (n = l) by congruence. lia.
Qed.

Lemma shard_ids_NoDup (m : gmap string meta) : NoDup (shard_ids m).
Proof.
  unfold shard_ids. rewrite sorted_Permutation.
  apply NoDup_filter, NoDup_elements.
Qed.

(** Among two or more shard ids one is not [key]. *)
Lemma another_shard (m : gmap string meta) (key : string) :
  (2 <= length (shard_ids m))%nat ->
  exists p, p ∈ shard_ids m /\ p <> key.
Proof.
  intros Hlen. pose proof (shard_ids_NoDup m) as Hnd.
  destruct (shard_ids m) as [|a [|b ids]]; simpl in Hlen; try lia.
  apply NoDup_cons in Hnd as [Hab _].
  destruct (decide (a = key)) as [->|Hne].
  - exists b. split; [right; by left|]. intros ->. apply Hab. by left.
  - exists a. split; [by left|done].
Qed.

Lemma remove_shard_well_formed (s s' : ShardHandler) :
  well_formed s -> remove_shard listdir s = (Ok tt, s') -> well_formed s'.
Proof.
  intros Hwf H. unfold remove_shard in H.
  apply bind_Ok_inv in H as ([] & s1 & Hsync & H).
  pose proof (sync_replication_mirrors_recorded _ _ Hsync) as Hmir.
  pose proof (reload_after_sync _ _ Hsync) as Hreload.
  apply sync_replication_grows in Hsync as [Hg1 _].
  pose proof (well_formed_grows _ _ Hg1 Hwf) as (HL1 & Hids1 & Hrec1).
  apply bind_Ok_inv in H as (m & ? & [= <- <-] & H).
  apply bind_Ok_inv in H as ([] & s2 & [= <-] & H).
  rewrite Hreload in H.
  apply bind_Ok_inv in H as (d & ? & ->%load_data_from_shards_state & H).
  apply bind_Ok_inv in H as (ids & ? & [= <- <-] & H).
  apply bind_Ok_inv in H as (nums & ? & [Hnums ->]%lift_inv & H).
  apply bind_Ok_inv in H as ([] & ? & Hcheck & H).
  destruct (bool_decide (length nums = 1%nat)) eqn:Hone; [discriminate|].
  injection Hcheck as <-. apply bool_decide_eq_false in Hone.
  apply bind_Ok_inv in H as (new & ? & [Hmax ->]%lift_inv & H).
  apply bind_Ok_inv in H as (pieces & ? & [_ ->]%lift_inv & H).
  apply bind_Ok_inv in H as (files & ? & ->%listdir_data_state & H).
  apply bind_Ok_inv in H as ([] & s2 & Hrm & H).
  apply for_only_files in Hrm.
  2:{ intros filename t t' _ Hstep.
      destruct (negb (dashed filename)), (bool_decide _);
        try (by eapply remove_file_inv);
        injection Hstep as <-; apply only_files_changed_refl. }
  apply bind_Ok_inv in H as (all_keys & ? & [= <- <-] & H).
  apply bind_Ok_inv in H as ([] & s3 & Hpop & H).
  unfold enumerate, range in H.
  rewrite (bind_Ok _ _ _ _ _ (write_shards_run pieces 0 s3 ltac:(lia))) in H.
  apply bind_Ok_inv in H as ([] & s4 & [= <-] & Hsync').
  apply sync_replication_grows in Hsync' as [[Hg4 HL4] _]. simpl in *.
  destruct (shards_written_grows 0 pieces s3) as [Hgw HLw].
  assert (Hm2 : mapping s2 = mapping s1) by (by rewrite Hrm).
  assert (HL2 : replication_level s2 = replication_level s1)
    by (by rewrite Hrm).
  (* a shard other than the one removed *)
  assert (Hlen : (2 <= length (shard_ids (mapping s1)))%nat).
  { apply map_res_length in Hnums. destruct nums as [|? [|? ?]];
      simpl in *; try done; lia. }
  destruct (another_shard (mapping s1) (str new) Hlen) as (p & Hp & Hpnew).
  pose proof Hp as [Hpdash Hpsome]%elem_of_shard_ids.
  (* what the loop over the keys keeps *)
  assert (Hkept : forall key,
            (if dashed key then head_piece "-" key <> str new
             else key <> str new) ->
            is_Some (mapping s1 !! key) -> is_Some (mapping s3 !! key)).
  { intros key Hkey Hsome. rewrite <- Hm2 in Hsome.
    revert Hpop. apply (for_invariant (fun t =>
      is_Some (mapping t !! key))); [|done].
    intros k t t' _ Ht Hstep.
    destruct (dashed k) eqn:Hk; simpl in Hstep.
    - destruct (bool_decide_reflect (head_piece "-" k = str new)) as [Heq|_];
        [|by injection Hstep as <-].
      apply mapping_pop_inv in Hstep as ->. simpl.
      rewrite lookup_delete_ne; [done|]. intros ->. by rewrite Hk in Hkey.
    - destruct (bool_decide_reflect (k = str new)) as [Heq|_];
        [|by injection Hstep as <-].
      apply mapping_pop_inv in Hstep as ->. simpl.
      rewrite lookup_delete_ne; [done|]. intros ->. by rewrite Hk in Hkey. }
  assert (HL3 : replication_level s3 = replication_level s1).
  { rewrite <- HL2. revert Hpop. apply (for_invariant (fun t =>
      replication_level t = replication_level s2)); [|done].
    intros k t t' _ Ht Hstep.
    destruct (negb (dashed k)), (bool_decide _);
      try (apply mapping_pop_inv in Hstep as ->; done);
      by injection Hstep as <-. }
  assert (Hchain : forall key, is_Some (mapping s3 !! key) ->
            is_Some (mapping s' !! key)) by (intros; by apply Hg4, Hgw).
  unfold well_formed. rewrite HL4, HLw, HL3.
  split; [done|]. split.
  - intros Hnil.
    assert (Hin : p ∈ shard_ids (mapping s')).
    { apply elem_of_shard_ids. split; [done|]. apply Hchain, Hkept; [|done].
      by rewrite Hpdash. }
    rewrite Hnil in Hin. by apply elem_of_nil in Hin.
  - intros l Hl. pose proof (Hrec1 l Hl) as Hrec.
    assert (Hrec0 : level_recorded (mapping s) l).
    { destruct Hwf as (_ & _ & Hrecs). apply Hrecs.
      destruct Hg1 as [_ HL]. lia. }
    destruct (Hmir p l Hp Hrec0) as (entry & _ & _ & _ & Hreplica & _).
    exists (replica_key p l). split.
    + apply elem_of_replication_ids. split; [apply dashed_replica_key|].
      apply Hchain, Hkept; [|by eauto].
      by rewrite dashed_replica_key, head_piece_replica_key.
    + apply level_of_replica_key; [done|lia].
Qed.

(** Every reachable handler is well formed. *)
Lemma reachable_well_formed (s : ShardHandler) :
  reachable listdir s -> well_formed s.
Proof.
  induction 1 as [count d s Hcount Hbuild|s s' _ IH Hop|s s' _ IH Hop
                  |s s' _ IH Hop|s s' _ IH Hop|s s' _ IH Hop].
  - pose proof (_generate_sharded_data_positive count d Hcount) as Hgen.
    cbv zeta in Hgen. set (pieces := _ ++ [_]) in Hgen.
    assert (Hne : pieces <> []) by (subst pieces; by intros [_ ?]%app_eq_nil).
    clearbody pieces.
    rewrite (build_shards_run count d pieces fresh eq_refl Hgen) in Hbuild.
    injection Hbuild as <-.
    destruct pieces as [|piece0 rest]; [done|].
    split; [simpl; lia|]. split.
    + intros Hnil.
      assert (Hin : str 0 ∈ shard_ids (mapping (built (piece0 :: rest) fresh))).
      { apply built_shard_ids; [done|]. exists 0. split; [|done].
        unfold len. simpl. lia. }
      rewrite Hnil in Hin. by apply elem_of_nil in Hin.
    + intros level Hl. simpl in Hl. lia.
  - eapply well_formed_grows; [|exact IH].
    by apply sync_replication_grows in Hop as [? _].
  - eapply well_formed_grows; [|exact IH]. by apply add_shard_grows.
  - by eapply remove_shard_well_formed.
  - by eapply add_replication_well_formed.
  - by eapply remove_replication_well_formed.
Qed.

(** Every reachable handler is in sync. *)
Lemma reachable_in_sync (s : ShardHandler) :
  reachable listdir s -> sync_replication listdir s = (Ok tt, s).
Proof.
  destruct 1 as [count d s Hcount Hbuild|s s' _ Hop|s s' _ Hop
                 |s s' _ Hop|s s' _ Hop|s s' _ Hop].
  - pose proof (_generate_sharded_data_positive count d Hcount) as Hgen.
    cbv zeta in Hgen. set (pieces := _ ++ [_]) in Hgen.
    assert (Hne : pieces <> []) by (subst pieces; by intros [_ ?]%app_eq_nil).
    clearbody pieces.
    rewrite (build_shards_run count d pieces fresh eq_refl Hgen) in Hbuild.
    injection Hbuild as <-. by apply build_in_sync.
  - by eapply sync_replication_in_sync.
  - by eapply add_shard_in_sync.
  - by eapply remove_shard_in_sync.
  - by eapply add_replication_in_sync.
  - by eapply remove_replication_in_sync.
Qed.

End Reachable.

(** ** What holds of the built shard set *)

(** When shard 0 is not empty, the recorded offsets of adjacent shards
    follow one another. *)
Lemma built_offsets_contiguous (pieces : list text) (s : ShardHandler)
    (piece0 next : text) (i : nat) :
  pieces !! 0%nat = Some piece0 -> piece0 <> [] ->
  pieces !! S i = Some next ->
  exists e1 e2,
    mapping (built pieces s) !! str (Z.of_nat i) = Some e1
    /\ mapping (built pieces s) !! str (Z.of_nat (S i)) = Some e2
    /\ end_ e1 + 1 = start e2.
Proof.
  intros H0 Hne Hnext.
  destruct (lookup_lt_is_Some_2 pieces i) as [piece Hi].
  { apply lookup_lt_Some in Hnext. lia. }
  destruct (built_shard pieces s i piece Hi) as [He1 _].
  destruct (built_shard pieces s (S i) next Hnext) as [He2 _].
  eexists _, _. split; [exact He1|]. split; [exact He2|].
  cbn [start end_]. cbv zeta.
  destruct pieces as [|p rest]; [done|]. injection H0 as ->.
  assert (0 < len (concat (take (S i) (piece0 :: rest)))).
  { simpl. unfold len. rewrite length_app. destruct piece0; [done|].
    simpl. lia. }
  destruct (Z.eqb_spec (len (concat (take (S i) (piece0 :: rest)))) 0); lia.
Qed.

Lemma read_all_files (ids : list string) (contents : list text)
    (s : ShardHandler) :
  Forall2 (fun id content => file s (txt_file id) = Some content)
          ids contents ->
  read_all ids s = (Ok contents, s).
Proof.
  induction 1 as [|id content ids contents Hfile _ IH]; [reflexivity|].
  simpl. unfold file in Hfile.
  destruct (data s) as [d|] eqn:Hd; [|done]. simpl in Hfile.
  rewrite (bind_Ok _ _ s s content) by (by apply (read_file_Some _ _ d)).
  by rewrite (bind_Ok _ _ s s contents).
Qed.

(** The ids 0 to 9 sort as strings in numeric order. *)
Lemma single_digit_ids_sorted (n : Z) :
  n <= 10 -> Sorted String.le (str <$> seqZ 0 n).
Proof.
  intros Hn. destruct (decide (n <= 0)) as [Hle|Hgt].
  { rewrite seqZ_nil by done. constructor. }
  assert (Hten : StronglySorted String.le (str <$> seqZ 0 10)).
  { apply (Sorted_StronglySorted _), (bool_decide_unpack _).
    vm_compute. reflexivity. }
  replace 10 with (n + (10 - n)) in Hten by lia.
  rewrite seqZ_app, fmap_app in Hten by lia.
  apply StronglySorted_app_1_l in Hten. by apply StronglySorted_Sorted.
Qed.

(** With at most ten shards, reading the built shards back in the order
    of [get_shard_ids] returns the text. *)
Lemma build_lossless_upto_ten (count : Z) (d : text) (s : ShardHandler) :
  1 <= count <= 10 -> mapping s = ∅ ->
  exists s', build_shards count d s = (Ok None, s')
             /\ load_data_from_shards s' = (Ok d, s').
Proof.
  intros Hcount Hempty.
  pose proof (_generate_sharded_data_positive count d ltac:(lia)) as Hgen.
  cbv zeta in Hgen.
  assert (Hlen : len (map (fun z => slice d (len d / count * z)
                                          (len d / count * (z + 1)))
                          (seqZ 0 (count - 1))
                      ++ [drop (Z.to_nat (len d / count * (count - 1))) d])
                 = count).
  { unfold len. rewrite length_app, length_map, length_seqZ. simpl. lia. }
  assert (Hcat : concat (map (fun z => slice d (len d / count * z)
                                             (len d / count * (z + 1)))
                             (seqZ 0 (count - 1))
                         ++ [drop (Z.to_nat (len d / count * (count - 1))) d])
                 = d).
  { assert (Hw : 0 <= len d / count) by (apply Z.div_pos; unfold len; lia).
    assert (Hle : len d / count * (count - 1) <= len d).
    { pose proof (Z.mul_div_le (len d) count ltac:(lia)) as Hmul.
      replace (len d / count * (count - 1))
        with (count * (len d / count) - len d / count) by ring.
      lia. }
    generalize dependent (len d / count). intros w _ _ Hw Hle.
    rewrite concat_app. simpl. rewrite app_nil_r.
    replace (count - 1) with (Z.of_nat (Z.to_nat (count - 1))) in * by lia.
    rewrite concat_slices by done. apply take_drop. }
  set (pieces := _ ++ [_]) in *. clearbody pieces.
  exists (built pieces s). split; [by apply build_shards_run|].
  set (s' := built pieces s).
  assert (Hids : shard_ids (mapping s') = str <$> seqZ 0 count).
  { apply (Sorted_unique String.le);
      [apply sorted_Sorted|apply single_digit_ids_sorted; lia|].
    apply NoDup_Permutation.
    - apply shard_ids_NoDup.
    - apply (NoDup_fmap_2 _), NoDup_seqZ.
    - intros key. unfold s'. rewrite (built_shard_ids pieces s key Hempty).
      rewrite list_elem_of_fmap. split.
      + intros (i & Hi & ->). exists i. split; [done|].
        apply elem_of_seqZ. unfold len, text in *. lia.
      + intros (i & -> & Hi%elem_of_seqZ). exists i.
        split; [unfold len, text in *; lia|done]. }
  unfold load_data_from_shards.
  rewrite (bind_Ok _ _ s' s' (str <$> seqZ 0 count))
    by (unfold get_shard_ids, gets; by rewrite Hids).
  rewrite (bind_Ok _ _ s' s' pieces); [by rewrite Hcat|].
  apply read_all_files. apply Forall2_fmap_l.
  apply Forall2_same_length_lookup_2.
  { rewrite length_seqZ. unfold len, text in *. lia. }
  intros i z piece Hz Hpiece. apply lookup_seqZ in Hz as [-> _].
  destruct (built_shard pieces s i piece Hpiece) as [_ (dir & Hdir & Hfile)].
  unfold file. fold s' in Hdir. rewrite Hdir. simpl.
  by rewrite Z.add_0_l.
Qed.

(** ** Layouts: the handlers the operations leave *)

Lemma elem_of_replicated {V} (L : Z) (primaries : list (string * V))
    (k : string) (v : V) :
  (k, v) ∈ replicated L primaries
  <-> exists key l, (key, v) ∈ primaries /\ 1 <= l <= L
                    /\ k = replica_key key l.
Proof.
  unfold replicated. rewrite list_elem_of_bind. split.
  - intros ([key w] & Hin & Hp).
    apply list_elem_of_fmap in Hin as (l & [= -> ->] & Hl%elem_of_seqZ).
    exists key, l. split; [done|]. split; [lia|done].
  - intros (key & l & Hp & Hl & ->). exists (key, v). split; [|done].
    apply list_elem_of_fmap. exists l. split; [done|].
    apply elem_of_seqZ. lia.
Qed.

Lemma replicated_none {V} (primaries : list (string * V)) (L : Z) :
  L <= 0 -> replicated L primaries = [].
Proof.
  intros HL. unfold replicated. rewrite seqZ_nil by lia.
  induction primaries as [|[k v] ps IH]; [reflexivity|]. exact IH.
Qed.

Lemma NoDup_fst_functional {V} (l : list (string * V)) (k : string)
    (y1 y2 : V) :
  NoDup l.*1 -> (k, y1) ∈ l -> (k, y2) ∈ l -> y1 = y2.
Proof.
  intros Hnd H1 H2.
  apply (elem_of_list_to_map_1 (M := gmap string) _ _ _ Hnd) in H1, H2.
  congruence.
Qed.

Section Replicated.

Context {V : Type} (f : string -> string) `{!Inj (=) (=) f}.
Hypothesis f_dashed : forall k, dashed (f k) = dashed k.
Variable L : Z.
Variable primaries : list (string * V).
Hypothesis primaries_NoDup : NoDup primaries.*1.
Hypothesis primaries_dashless :
  forall k, k ∈ primaries.*1 -> dashed k = false.

Let whole : gmap string V :=
  list_to_map (prod_map f id <$> primaries ++ replicated L primaries).

Lemma whole_primary (name : string) :
  dashed name = false ->
  whole !! name
  = (list_to_map (prod_map f id <$> primaries) : gmap string V) !! name.
Proof.
  intros Hname. unfold whole. rewrite fmap_app, list_to_map_app.
  apply lookup_union_l, not_elem_of_list_to_map_1.
  rewrite <- list_fmap_compose.
  intros ([k v] & -> & Hin)%list_elem_of_fmap. simpl in Hname.
  apply elem_of_replicated in Hin as (key & l & _ & _ & ->).
  by rewrite f_dashed, dashed_replica_key in Hname.
Qed.

Lemma whole_replica (k : string) (v : V) (l : Z) :
  (k, v) ∈ primaries -> 1 <= l <= L ->
  whole !! f (replica_key k l) = Some v.
Proof.
  intros Hin Hl. unfold whole. rewrite fmap_app, list_to_map_app.
  rewrite lookup_union_r.
  - apply elem_of_list_to_map_1'.
    + intros y ([k' w] & [= Hk%(inj f) Hyw] & Hy)%list_elem_of_fmap.
      simpl in Hyw. subst w k'.
      apply elem_of_replicated in Hy as (key & l' & Hy & _ & Hk).
      assert (Hkey : key = k).
      { symmetry. apply (replica_key_shard k key l l'); [| |done].
        - apply primaries_dashless, list_elem_of_fmap. by exists (k, v).
        - apply primaries_dashless, list_elem_of_fmap. by exists (key, y). }
      subst key. by apply (NoDup_fst_functional primaries k).
    + apply list_elem_of_fmap. exists (replica_key k l, v). split; [done|].
      apply elem_of_replicated. by exists k, l.
  - apply not_elem_of_list_to_map_1. rewrite <- list_fmap_compose.
    intros ([k' w] & Hk & Hin')%list_elem_of_fmap. simpl in Hk.
    assert (Hd : dashed k' = false)
      by (apply primaries_dashless, list_elem_of_fmap; by exists (k', w)).
    by rewrite <- f_dashed, <- Hk, f_dashed, dashed_replica_key in Hd.
Qed.

Lemma whole_origin (name : string) :
  dashed name = true -> is_Some (whole !! name) ->
  exists k l, k ∈ primaries.*1 /\ 1 <= l <= L /\ name = f (replica_key k l).
Proof.
  intros Hname [v Hv]. unfold whole in Hv.
  apply elem_of_list_to_map_2 in Hv.
  apply list_elem_of_fmap in Hv as ([k w] & [= -> ->] & Hin).
  apply elem_of_app in Hin as [Hin|Hin].
  - assert (Hd : dashed k = false)
      by (apply primaries_dashless, list_elem_of_fmap; by exists (k, w)).
    by rewrite f_dashed, Hd in Hname.
  - apply elem_of_replicated in Hin as (key & l & Hin & Hl & ->).
    exists key, l. split; [|done]. apply list_elem_of_fmap. by exists (key, w).
Qed.

(** A map with the primaries, their replicas at every level and no other
    replica is the whole map. *)
Lemma whole_intro (m : gmap string V) :
  (forall name, dashed name = false ->
     m !! name
     = (list_to_map (prod_map f id <$> primaries) : gmap string V) !! name) ->
  (forall k v l, (k, v) ∈ primaries -> 1 <= l <= L ->
     m !! f (replica_key k l) = Some v) ->
  (forall name, dashed name = true -> is_Some (m !! name) ->
     exists k l, k ∈ primaries.*1 /\ 1 <= l <= L
                 /\ name = f (replica_key k l)) ->
  m = whole.
Proof.
  intros Hprim Hrep Horigin. apply map_eq. intros name.
  destruct (dashed name) eqn:Hname.
  - destruct (m !! name) as [v|] eqn:Hm.
    + destruct (Horigin name Hname) as (k & l & Hk & Hl & ->); [by eauto|].
      apply list_elem_of_fmap in Hk as ([k' w] & -> & Hin). simpl in *.
      rewrite (whole_replica k' w l Hin Hl).
      by rewrite (Hrep k' w l Hin Hl) in Hm.
    + destruct (whole !! name) as [v|] eqn:Hw; [|done].
      destruct (whole_origin name Hname) as (k & l & Hk & Hl & ->);
        [by eauto|].
      apply list_elem_of_fmap in Hk as ([k' w] & -> & Hin). simpl in *.
      by rewrite (Hrep k' w l Hin Hl) in Hm.
  - by rewrite Hprim, whole_primary.
Qed.

End Replicated.

(** *** The pieces of a layout *)

Lemma prod_map_id_fmap {V} (l : list (string * V)) : prod_map id id <$> l = l.
Proof.
  induction l as [|[k v] l IH]; [reflexivity|].
  rewrite fmap_cons. f_equal. exact IH.
Qed.

Lemma shard_contents_files_from (num : Z) (pieces : list text) :
  0 <= num ->
  prod_map txt_file id <$> zip (str <$> seqZ num (len pieces)) pieces
  = shard_files num pieces.
Proof.
  revert num. induction pieces as [|p ps IH]; intros num Hnum; [reflexivity|].
  unfold len. simpl length. rewrite (seqZ_cons num) by lia. simpl.
  f_equal. rewrite <- IH by lia. unfold len. do 4 f_equal; lia.
Qed.

Lemma shard_contents_files (pieces : list text) :
  prod_map txt_file id <$> shard_contents pieces = shard_files 0 pieces.
Proof. by apply shard_contents_files_from. Qed.

Lemma shard_contents_keys (pieces : list text) :
  (shard_contents pieces).*1 = str <$> seqZ 0 (len pieces).
Proof.
  unfold shard_contents. apply fst_zip.
  rewrite length_fmap, length_seqZ. unfold len. lia.
Qed.

Lemma elem_of_shard_keys (n : Z) (k : string) :
  k ∈ str <$> seqZ 0 n <-> exists i, 0 <= i < n /\ k = str i.
Proof.
  rewrite list_elem_of_fmap. split.
  - intros (i & -> & Hi%elem_of_seqZ). exists i. split; [lia|done].
  - intros (i & Hi & ->). exists i. split; [done|]. apply elem_of_seqZ. lia.
Qed.

Lemma shard_keys_NoDup (n : Z) : NoDup (str <$> seqZ 0 n).
Proof. apply (NoDup_fmap_2 _), NoDup_seqZ. Qed.

Lemma shard_keys_dashless (n : Z) (k : string) :
  k ∈ str <$> seqZ 0 n -> dashed k = false.
Proof. intros (i & Hi & ->)%elem_of_shard_keys. apply dashed_str. lia. Qed.

(** The entry of shard [i] when [pieces] are written in order. *)
Lemma shard_entry_lookup (pieces : list text) (i : nat) (piece : text) :
  pieces !! i = Some piece ->
  (list_to_map (shard_entries 0 0 pieces) : gmap string meta)
    !! str (Z.of_nat i)
  = Some {| start := (let q := len (concat (take i pieces)) in
                      if q =? 0 then q else q + 1);
            end_ := len (concat (take (S i) pieces)) |}.
Proof.
  intros Hi. apply elem_of_list_to_map_1; [apply shard_entries_NoDup|].
  by apply (shard_entries_elem pieces 0 0 i piece).
Qed.

Lemma shard_file_lookup (pieces : list text) (i : nat) (piece : text) :
  pieces !! i = Some piece ->
  (list_to_map (shard_files 0 pieces) : gmap string text)
    !! txt_file (str (Z.of_nat i)) = Some piece.
Proof.
  intros Hi. apply elem_of_list_to_map_1; [apply shard_files_NoDup|].
  by apply (shard_files_elem pieces 0 i piece).
Qed.

Lemma shard_contents_elem (pieces : list text) (i : nat) (piece : text) :
  pieces !! i = Some piece -> (str (Z.of_nat i), piece) ∈ shard_contents pieces.
Proof.
  intros Hi. unfold shard_contents. apply list_elem_of_lookup. exists i.
  apply lookup_zip_with_Some. exists (str (Z.of_nat i)), piece.
  split; [done|]. split; [|done].
  rewrite list_lookup_fmap, lookup_seqZ_lt; [done|].
  apply lookup_lt_Some in Hi. unfold len. lia.
Qed.

Lemma shard_entries_is_Some (pieces : list text) (key : string) :
  is_Some ((list_to_map (shard_entries 0 0 pieces) : gmap string meta) !! key)
  <-> exists i, 0 <= i < len pieces /\ key = str i.
Proof. by rewrite is_Some_list_to_map, shard_entries_keys, elem_of_shard_keys. Qed.

Lemma shard_files_is_Some (pieces : list text) (name : string) :
  is_Some ((list_to_map (shard_files 0 pieces) : gmap string text) !! name)
  <-> exists i, 0 <= i < len pieces /\ name = txt_file (str i).
Proof.
  rewrite is_Some_list_to_map, shard_files_names, list_fmap_compose.
  rewrite list_elem_of_fmap. split.
  - intros (k & -> & (i & Hi & ->)%elem_of_shard_keys). by exists i.
  - intros (i & Hi & ->). exists (str i). split; [done|].
    apply elem_of_shard_keys. by exists i.
Qed.

Lemma index_piece (pieces : list text) (i : Z) :
  0 <= i < len pieces ->
  exists piece, pieces !! Z.to_nat i = Some piece.
Proof.
  intros Hi. apply lookup_lt_is_Some_2. unfold len in Hi. lia.
Qed.

(** *** What a layout holds *)

Section Layout.

Variable pos : Z.
Variable pieces : list text.
Variable L : Z.

Lemma layout_primary_entry (key : string) :
  dashed key = false ->
  mapping (layout pos pieces L) !! key
  = (list_to_map (shard_entries 0 0 pieces) : gmap string meta) !! key.
Proof.
  intros Hkey. simpl.
  rewrite <- (prod_map_id_fmap (shard_entries 0 0 pieces ++ _)).
  rewrite (whole_primary id (fun _ => eq_refl)) by done.
  by rewrite prod_map_id_fmap.
Qed.

Lemma layout_primary_file (name : string) :
  dashed name = false ->
  file (layout pos pieces L) name
  = (list_to_map (shard_files 0 pieces) : gmap string text) !! name.
Proof.
  intros Hname. unfold file. simpl.
  rewrite (whole_primary txt_file dashed_txt_file) by done.
  by rewrite shard_contents_files.
Qed.

Lemma layout_mirrored (i l : Z) :
  0 <= i < len pieces -> 1 <= l <= L -> mirrored (layout pos pieces L) (str i) l.
Proof.
  intros Hi Hl. destruct (index_piece pieces i Hi) as [piece Hpiece].
  pose proof (shard_entry_lookup pieces _ piece Hpiece) as Hentry.
  pose proof (shard_file_lookup pieces _ piece Hpiece) as Hfile.
  rewrite Z2Nat.id in Hentry, Hfile by lia.
  assert (Hdash : dashed (str i) = false) by (apply dashed_str; lia).
  eexists _, _, piece. split; [|split; [|split; [reflexivity|split]]].
  - rewrite layout_primary_entry by done. exact Hentry.
  - simpl. rewrite <- (prod_map_id_fmap (shard_entries 0 0 pieces ++ _)).
    apply (whole_replica id (fun _ => eq_refl)); [| | |done].
    + apply shard_entries_NoDup.
    + intros k Hk. rewrite shard_entries_keys in Hk.
      by eapply shard_keys_dashless.
    + by apply elem_of_list_to_map_2.
  - pose proof (layout_primary_file (txt_file (str i))) as Hf.
    unfold file in Hf. simpl in Hf. rewrite Hf, Hfile; [done|].
    by rewrite dashed_txt_file.
  - apply (whole_replica txt_file dashed_txt_file); [| | |done].
    + rewrite shard_contents_keys. apply shard_keys_NoDup.
    + intros k Hk. rewrite shard_contents_keys in Hk.
      by eapply shard_keys_dashless.
    + replace i with (Z.of_nat (Z.to_nat i)) by lia.
      by apply shard_contents_elem.
Qed.

Lemma layout_replica_origin (key : string) :
  dashed key = true -> is_Some (mapping (layout pos pieces L) !! key) ->
  exists i l, 0 <= i < len pieces /\ 1 <= l <= L
              /\ key = replica_key (str i) l.
Proof.
  intros Hkey Hsome. simpl in Hsome.
  rewrite <- (prod_map_id_fmap (shard_entries 0 0 pieces ++ _)) in Hsome.
  apply (whole_origin id (fun _ => eq_refl)) in Hsome
    as (k & l & Hk & Hl & ->); [| |done].
  - rewrite shard_entries_keys in Hk.
    apply elem_of_shard_keys in Hk as (i & Hi & ->). by exists i, l.
  - intros k Hk. rewrite shard_entries_keys in Hk.
    by eapply shard_keys_dashless.
Qed.

Lemma layout_replica_file_origin (name : string) :
  dashed name = true -> is_Some (file (layout pos pieces L) name) ->
  exists i l, 0 <= i < len pieces /\ 1 <= l <= L
              /\ name = txt_file (replica_key (str i) l).
Proof.
  intros Hname Hsome. unfold file in Hsome. simpl in Hsome.
  apply (whole_origin txt_file dashed_txt_file) in Hsome
    as (k & l & Hk & Hl & ->); [| |done].
  - rewrite shard_contents_keys in Hk.
    apply elem_of_shard_keys in Hk as (i & Hi & ->). by exists i, l.
  - intros k Hk. rewrite shard_contents_keys in Hk.
    by eapply shard_keys_dashless.
Qed.

(** A handler with the primaries of the layout, a mirror of every shard
    at every level and no other replica is the layout. *)
Lemma layout_intro (s : ShardHandler) (d : gmap string text) :
  last_char_position s = pos -> replication_level s = L ->
  mapfile s = Some (mapping s) -> data s = Some d ->
  (forall key, dashed key = false ->
     mapping s !! key
     = (list_to_map (shard_entries 0 0 pieces) : gmap string meta) !! key) ->
  (forall name, dashed name = false ->
     d !! name
     = (list_to_map (shard_files 0 pieces) : gmap string text) !! name) ->
  (forall i l, 0 <= i < len pieces -> 1 <= l <= L -> mirrored s (str i) l) ->
  (forall key, dashed key = true -> is_Some (mapping s !! key) ->
     exists i l, 0 <= i < len pieces /\ 1 <= l <= L
                 /\ key = replica_key (str i) l) ->
  (forall name, dashed name = true -> is_Some (d !! name) ->
     exists i l, 0 <= i < len pieces /\ 1 <= l <= L
                 /\ name = txt_file (replica_key (str i) l)) ->
  s = layout pos pieces L.
Proof.
  intros Hpos HL Hmf Hd Hprim Hfiles Hmir Hkeys Hnames.
  assert (Hmap : mapping s
                 = list_to_map (shard_entries 0 0 pieces
                                ++ replicated L (shard_entries 0 0 pieces))).
  { rewrite <- (prod_map_id_fmap (shard_entries 0 0 pieces ++ _)).
    apply (whole_intro id (fun _ => eq_refl)).
    - apply shard_entries_NoDup.
    - intros k Hk. rewrite shard_entries_keys in Hk.
      by eapply shard_keys_dashless.
    - intros key Hkey. by rewrite prod_map_id_fmap, Hprim.
    - intros k v l Hin Hl.
      assert (Hk : k ∈ (shard_entries 0 0 pieces).*1)
        by (apply list_elem_of_fmap; by exists (k, v)).
      rewrite shard_entries_keys in Hk.
      apply elem_of_shard_keys in Hk as (i & Hi & ->).
      destruct (Hmir i l Hi Hl) as (entry & _ & _ & He & Hr & _).
      simpl. rewrite Hr. rewrite Hprim in He by (apply dashed_str; lia).
      apply elem_of_list_to_map_2 in He. f_equal.
      by apply (NoDup_fst_functional (shard_entries 0 0 pieces) (str i));
        [apply shard_entries_NoDup|..].
    - intros key Hkey Hsome.
      destruct (Hkeys key Hkey Hsome) as (i & l & Hi & Hl & ->).
      exists (str i), l. split; [|done].
      rewrite shard_entries_keys. apply elem_of_shard_keys. by exists i. }
  assert (Hdata : d = list_to_map (prod_map txt_file id
                     <$> shard_contents pieces
                         ++ replicated L (shard_contents pieces))).
  { apply (whole_intro txt_file dashed_txt_file).
    - rewrite shard_contents_keys. apply shard_keys_NoDup.
    - intros k Hk. rewrite shard_contents_keys in Hk.
      by eapply shard_keys_dashless.
    - intros name Hname. by rewrite shard_contents_files, Hfiles.
    - intros k v l Hin Hl.
      assert (Hk : k ∈ (shard_contents pieces).*1)
        by (apply list_elem_of_fmap; by exists (k, v)).
      rewrite shard_contents_keys in Hk.
      apply elem_of_shard_keys in Hk as (i & Hi & ->).
      destruct (Hmir i l Hi Hl) as (_ & d' & content & _ & _ & Hd' & Hc & Hr).
      rewrite Hd in Hd'. injection Hd' as <-. rewrite Hr. f_equal.
      rewrite Hfiles in Hc by (rewrite dashed_txt_file; apply dashed_str; lia).
      rewrite <- shard_contents_files in Hc.
      apply elem_of_list_to_map_2 in Hc.
      apply list_elem_of_fmap in Hc as ([k' w] & [= Hk%(inj txt_file) ->] & Hc).
      subst k'.
      by apply (NoDup_fst_functional (shard_contents pieces) (str i));
        [rewrite shard_contents_keys; apply shard_keys_NoDup|..].
    - intros name Hname Hsome.
      destruct (Hnames name Hname Hsome) as (i & l & Hi & Hl & ->).
      exists (str i), l. split; [|done].
      rewrite shard_contents_keys. apply elem_of_shard_keys. by exists i. }
  destruct s as [m p l f dd]. simpl in *. subst. unfold layout. by f_equal.
Qed.

End Layout.

(** ** Operations that complete *)

(** A loop whose iterations complete while an invariant holds, and keep
    it, completes. *)
Lemma for_run {A} (I : ShardHandler -> Prop) (l : list A)
    (body : A -> M unit) :
  (forall x s, x ∈ l -> I s -> exists s', body x s = (Ok tt, s') /\ I s') ->
  forall s, I s -> exists s', for_ l body s = (Ok tt, s') /\ I s'.
Proof.
  induction l as [|x l IH]; intros Hbody s HI.
  - by exists s.
  - destruct (Hbody x s) as (s1 & Hx & HI1); [by left|done|].
    destruct (IH (fun y t Hy => Hbody y t (list_elem_of_further _ _ _ Hy))
                 s1 HI1) as (s' & Hrest & HI').
    exists s'. split; [|done]. simpl. by rewrite (bind_Ok _ _ _ _ _ Hx).
Qed.

Lemma for_ext {A} (l : list A) (body body' : A -> M unit) (s : ShardHandler) :
  (forall x t, x ∈ l -> body x t = body' x t) -> for_ l body s = for_ l body' s.
Proof.
  revert s. induction l as [|x l IH]; intros s H; [reflexivity|].
  simpl. rewrite !bind_unfold, (H x s) by (by left).
  destruct (body' x s) as [[[]|e] s1]; [|reflexivity].
  apply IH. intros y t Hy. apply H. by right.
Qed.

Lemma regenerate_replica_run (level : Z) (pk : string) (s : ShardHandler)
    (v : meta) (d : gmap string text) (c : text) :
  dashed pk = false ->
  mapping s !! pk = Some v -> data s = Some d -> d !! txt_file pk = Some c ->
  regenerate_replica level pk s
  = (Ok tt,
     set_data (Some (<[txt_file (replica_key pk level) := c]> d))
       (set_mapping (<[replica_key pk level := v]> (mapping s)) s)).
Proof.
  intros Hpk Hv Hd Hc. unfold regenerate_replica.
  rewrite (bind_Ok _ _ _ _ _ (mapping_item_Some _ _ _ Hv)).
  rewrite bind_unfold. unfold mapping_set, modify, copyfile.
  rewrite bind_unfold.
  rewrite (read_file_Some (txt_file pk) _ d c) by done.
  destruct (decide (txt_file pk = txt_file (replica_key pk level)))
    as [Heq%(inj txt_file)|_].
  - exfalso. revert Heq. apply dashed_ne; [done|apply dashed_replica_key].
  - unfold write_file. simpl. by rewrite Hd.
Qed.

Section Completes.

Variable listdir : gmap string text -> list string.
Hypothesis listdir_perm : forall d, listdir d ≡ₚ elements (dom d).

(** [update_replicated_levels] completes when every replica entry names
    a shard of the mapping and a level, and every shard has its file. *)
Lemma update_replicated_levels_total (s : ShardHandler)
    (d : gmap string text) :
  (forall key, key ∈ replication_ids (mapping s) ->
     is_Some (mapping s !! head_piece "-" key)) ->
  (forall key, key ∈ replication_ids (mapping s) ->
     exists l, level_of key = Ok l) ->
  data s = Some d ->
  (forall pk, pk ∈ shard_ids (mapping s) -> is_Some (d !! txt_file pk)) ->
  exists s', update_replicated_levels listdir s = (Ok tt, s').
Proof.
  intros Hheads Hlevels Hd Hfiles.
  (* the first loop *)
  destruct (for_run
    (fun t => forall k, is_Some (mapping s !! k) -> is_Some (mapping t !! k))
    (replication_ids (mapping s)) align_replica) with s
    as (sA & HA & _); [|done|].
  { intros key t Hkey Ht.
    destruct (Ht _ (Hheads key Hkey)) as [v Hv].
    eexists. split.
    - unfold align_replica.
      rewrite (bind_Ok _ _ _ _ _ (mapping_item_Some _ _ _ Hv)). reflexivity.
    - simpl. intros k Hk.
      destruct (decide (key = k)) as [->|Hne];
        [rewrite lookup_insert_eq; eauto|].
      rewrite lookup_insert_ne by done. by apply Ht. }
  pose proof (align_replicas_spec _ _ HA)
    as (HsA & Hdom & (_ & _ & Hprim & Hdata) & _).
  assert (Hids : shard_ids (mapping sA) = shard_ids (mapping s))
    by (apply shard_ids_ext; intros; apply Hdom).
  assert (Hrids : replication_ids (mapping sA) = replication_ids (mapping s))
    by (apply replication_ids_ext; intros; apply Hdom).
  assert (HdA : data sA = Some d) by (by rewrite HsA).
  (* the dictionary *)
  destruct (group_by_level_total (replication_ids (mapping sA)) [])
    as [levels Hdict].
  { rewrite Hrids. exact Hlevels. }
  (* the second loop *)
  set (I := fun t : ShardHandler =>
    (forall pk, pk ∈ shard_ids (mapping s) -> is_Some (mapping t !! pk))
    /\ exists d', data t = Some d'
         /\ forall pk, pk ∈ shard_ids (mapping s) ->
              is_Some (d' !! txt_file pk)).
  assert (HIA : I sA).
  { split.
    - intros pk Hpk. apply Hdom. by apply elem_of_shard_ids in Hpk as [_ ?].
    - by exists d. }
  assert (Hregen : forall level pk t, pk ∈ shard_ids (mapping s) -> I t ->
            exists t', regenerate_replica level pk t = (Ok tt, t') /\ I t').
  { intros level pk t Hpk [Htm (d' & Hd' & Htf)].
    pose proof Hpk as [Hdash _]%elem_of_shard_ids.
    destruct (Htm pk Hpk) as [v Hv]. destruct (Htf pk Hpk) as [c Hc].
    eexists. split; [by apply (regenerate_replica_run level pk t v d' c)|].
    split.
    - intros q Hq. pose proof Hq as [Hqdash _]%elem_of_shard_ids. simpl.
      rewrite lookup_insert_ne; [by apply Htm|].
      intros Heq. by rewrite <- Heq, dashed_replica_key in Hqdash.
    - eexists. split; [reflexivity|].
      intros q Hq. pose proof Hq as [Hqdash _]%elem_of_shard_ids.
      rewrite lookup_insert_ne; [by apply Htf|].
      intros Heq%(inj txt_file).
      by rewrite <- Heq, dashed_replica_key in Hqdash. }
  destruct (for_run I levels
              (reconcile_level listdir (shard_ids (mapping sA)))) with sA
    as (sB & HB & _); [|done|].
  { intros [level rep_keys] t _ Ht. unfold reconcile_level.
    assert (Hdt : is_Some (data t))
      by (destruct Ht as [_ (d' & Hd' & _)]; eauto).
    destruct (rep_level_has_same_keys_total listdir rep_keys
                (shard_ids (mapping sA)) level t Hdt) as [same Hsame].
    rewrite (bind_Ok _ _ _ _ _ Hsame).
    destruct same; [by exists t|].
    rewrite Hids. apply for_run; [|done].
    intros pk u Hpk Hu. by apply Hregen. }
  exists (set_mapfile (Some (mapping sB)) sB).
  unfold update_replicated_levels.
  rewrite (bind_Ok _ _ s s (replication_ids (mapping s))) by done.
  rewrite (bind_Ok _ _ _ _ _ HA).
  rewrite (bind_Ok _ _ sA sA (shard_ids (mapping sA))) by done.
  rewrite (bind_Ok _ _ sA sA levels).
  2:{ unfold create_replication_dict.
      rewrite (bind_Ok _ _ sA sA (replication_ids (mapping sA))) by done.
      unfold lift. by rewrite Hdict. }
  rewrite (bind_Ok _ _ _ _ _ HB). reflexivity.
Qed.

End Completes.

Section LaysOut.

Variable listdir : gmap string text -> list string.
Hypothesis listdir_perm : forall d, listdir d ≡ₚ elements (dom d).

(** Every entry and every file that [update_replicated_levels] leaves
    was there before or is the replica of a shard at a recorded level. *)
Lemma update_replicated_levels_origin (s s' : ShardHandler) :
  update_replicated_levels listdir s = (Ok tt, s') ->
  (forall key, is_Some (mapping s' !! key) ->
     is_Some (mapping s !! key)
     \/ exists pk level, pk ∈ shard_ids (mapping s)
          /\ level_recorded (mapping s) level /\ key = replica_key pk level)
  /\ (forall name, is_Some (file s' name) ->
        is_Some (file s name)
        \/ exists pk level, pk ∈ shard_ids (mapping s)
             /\ level_recorded (mapping s) level
             /\ name = txt_file (replica_key pk level)).
Proof.
  intros (sA & sB & levels & HA & Hd & HB & ->)%update_replicated_levels_inv.
  apply align_replicas_spec in HA as (HsA & Hdom & _ & _).
  assert (Hids : shard_ids (mapping sA) = shard_ids (mapping s))
    by (apply shard_ids_ext; intros; apply Hdom).
  assert (Hrids : replication_ids (mapping sA) = replication_ids (mapping s))
    by (apply replication_ids_ext; intros; apply Hdom).
  rewrite Hrids in Hd. rewrite Hids in HB.
  assert (Hfile : forall name, file sA name = file s name)
    by (intros name; by rewrite HsA).
  assert (Hrec : forall level, level ∈ levels.*1 ->
            level_recorded (mapping s) level).
  { intros level Hl.
    apply (group_by_level_levels _ _ _ Hd) in Hl
      as [[]%elem_of_nil|(k & Hk & Hl)].
    by exists k. }
  enough (HsB :
    (forall key, is_Some (mapping sB !! key) ->
       is_Some (mapping s !! key)
       \/ exists pk level, pk ∈ shard_ids (mapping s)
            /\ level_recorded (mapping s) level /\ key = replica_key pk level)
    /\ (forall name, is_Some (file sB name) ->
          is_Some (file s name)
          \/ exists pk level, pk ∈ shard_ids (mapping s)
               /\ level_recorded (mapping s) level
               /\ name = txt_file (replica_key pk level))) by exact HsB.
  revert HB.
  apply (reconcile_invariant listdir (fun t =>
    (forall key, is_Some (mapping t !! key) ->
       is_Some (mapping s !! key)
       \/ exists pk level, pk ∈ shard_ids (mapping s)
            /\ level_recorded (mapping s) level /\ key = replica_key pk level)
    /\ (forall name, is_Some (file t name) ->
          is_Some (file s name)
          \/ exists pk level, pk ∈ shard_ids (mapping s)
               /\ level_recorded (mapping s) level
               /\ name = txt_file (replica_key pk level)))).
  - intros level pk t t' Hlevel Hpk [Htm Htf]
           (v & d & c & Hv & Hdt & Hc & ->)%regenerate_replica_inv.
    split; simpl.
    + intros key. destruct (decide (replica_key pk level = key)) as [<-|Hne].
      * intros _. right. exists pk, level. auto.
      * rewrite lookup_insert_ne by done. apply Htm.
    + intros name. unfold file. simpl.
      destruct (decide (txt_file (replica_key pk level) = name)) as [<-|Hne].
      * intros _. right. exists pk, level. auto.
      * rewrite lookup_insert_ne by done. intros Hsome. apply Htf.
        unfold file. by rewrite Hdt.
  - split.
    + intros key Hkey. left. by apply Hdom.
    + intros name Hname. left. by rewrite <- Hfile.
Qed.

(** The integrity check passes when the primary files are exactly the
    files of the shard ids and the ids are numerals. *)
Lemma primary_files_okay_exact (s : ShardHandler) (d : gmap string text) :
  data s = Some d ->
  Forall (fun k => Forall (fun c => is_digit c = true)
                          (list_ascii_of_string k)) (shard_ids (mapping s)) ->
  (forall name, dashed name = false ->
     is_Some (d !! name)
     <-> exists key, key ∈ shard_ids (mapping s) /\ name = txt_file key) ->
  primary_files_okay listdir s = (Ok true, s).
Proof.
  intros Hd Hnum Hfiles.
  unfold primary_files_okay, listdir_data, get_shard_ids, gets.
  rewrite !bind_unfold, Hd, !bind_unfold.
  assert (Hsorted : sorted (filter (fun file => ¬ dashed file) (listdir d))
                    = txt_file <$> shard_ids (mapping s)).
  { apply (Sorted_unique String.le); [apply sorted_Sorted| |].
    - apply StronglySorted_Sorted.
      apply (StronglySorted_fmap_on txt_file _ _ le_txt_file Hnum).
      apply (Sorted_StronglySorted _), sorted_Sorted.
    - rewrite sorted_Permutation, listdir_perm.
      apply NoDup_Permutation.
      + apply NoDup_filter, NoDup_elements.
      + apply (NoDup_fmap_2 _), shard_ids_NoDup.
      + intros x. rewrite list_elem_of_filter, elem_of_elements, elem_of_dom.
        rewrite list_elem_of_fmap. split.
        * intros [Hx%Is_true_false Hsome].
          destruct (proj1 (Hfiles x Hx) Hsome) as (key & Hkey & ->).
          by exists key.
        * intros (key & -> & Hkey).
          assert (Hdash : dashed (txt_file key) = false).
          { rewrite dashed_txt_file.
            by apply elem_of_shard_ids in Hkey as [? _]. }
          split; [by apply Is_true_false|].
          apply Hfiles; [done|]. by exists key. }
  rewrite Hsorted, stems_differ_txt_files by done.
  by rewrite length_fmap, bool_decide_true.
Qed.

Lemma sync_replication_okay (s s' : ShardHandler) :
  primary_files_okay listdir s = (Ok true, s) ->
  update_replicated_levels listdir s = (Ok tt, s') ->
  sync_replication listdir s = (Ok tt, s').
Proof.
  intros Hok Hupd. unfold sync_replication.
  rewrite (bind_Ok _ _ s s true) by done.
  by rewrite (bind_Ok _ _ s s tt).
Qed.

(** [sync_replication] completes a handler that holds the primaries of
    a layout, replicas of its shards only, and some replica at every
    level, into the layout. *)
Lemma sync_lays_out (pos : Z) (pieces : list text) (L : Z)
    (t : ShardHandler) (d : gmap string text) :
  last_char_position t = pos -> replication_level t = L ->
  data t = Some d ->
  (forall key, dashed key = false ->
     mapping t !! key
     = (list_to_map (shard_entries 0 0 pieces) : gmap string meta) !! key) ->
  (forall name, dashed name = false ->
     d !! name
     = (list_to_map (shard_files 0 pieces) : gmap string text) !! name) ->
  (forall key, dashed key = true -> is_Some (mapping t !! key) ->
     exists i l, 0 <= i < len pieces /\ 1 <= l <= L
                 /\ key = replica_key (str i) l) ->
  (forall name, dashed name = true -> is_Some (d !! name) ->
     exists i l, 0 <= i < len pieces /\ 1 <= l <= L
                 /\ name = txt_file (replica_key (str i) l)) ->
  (forall l, 1 <= l <= L -> level_recorded (mapping t) l) ->
  sync_replication listdir t = (Ok tt, layout pos pieces L).
Proof.
  intros Hpos HL Hd Hprim Hfiles Hkeys Hnames Hrec.
  assert (Hids : forall key, key ∈ shard_ids (mapping t)
                 <-> exists i, 0 <= i < len pieces /\ key = str i).
  { intros key. rewrite elem_of_shard_ids. split.
    - intros [Hdash Hsome]. rewrite Hprim in Hsome by done.
      by apply shard_entries_is_Some.
    - intros (i & Hi & ->).
      assert (Hdash : dashed (str i) = false) by (apply dashed_str; lia).
      split; [done|]. rewrite Hprim by done.
      apply shard_entries_is_Some. by exists i. }
  (* the primaries are okay *)
  assert (Hok : primary_files_okay listdir t = (Ok true, t)).
  { apply (primary_files_okay_exact t d Hd).
    - apply Forall_forall. intros key (i & Hi & ->)%Hids.
      apply (str_numeral i). lia.
    - intros name Hname. rewrite Hfiles by done.
      rewrite shard_files_is_Some. split.
      + intros (i & Hi & ->). exists (str i). split; [|done].
        apply Hids. by exists i.
      + intros (key & (i & Hi & ->)%Hids & ->). by exists i. }
  (* the levels are reconciled *)
  destruct (update_replicated_levels_total listdir t d) as [s' Hupd];
    [| |done| |].
  { intros key [Hdash Hsome]%elem_of_replication_ids.
    destruct (Hkeys key Hdash Hsome) as (i & l & Hi & Hl & ->).
    rewrite head_piece_replica_key by (apply dashed_str; lia).
    rewrite Hprim by (apply dashed_str; lia).
    apply shard_entries_is_Some. by exists i. }
  { intros key [Hdash Hsome]%elem_of_replication_ids.
    destruct (Hkeys key Hdash Hsome) as (i & l & Hi & Hl & ->).
    exists l. apply level_of_replica_key; [apply dashed_str|]; lia. }
  { intros pk (i & Hi & ->)%Hids.
    rewrite Hfiles by (rewrite dashed_txt_file; apply dashed_str; lia).
    apply shard_files_is_Some. by exists i. }
  rewrite (sync_replication_okay t s' Hok Hupd). do 2 f_equal.
  (* the handler left is the layout *)
  destruct (update_replicated_levels_untouched _ _ _ Hupd)
    as [(Hp' & HL' & Hm' & Hd') Hmf'].
  destruct (update_replicated_levels_origin _ _ Hupd) as [Hom Hof].
  rewrite Hd in Hd'. destruct (data s') as [d'|] eqn:Hds'; [|done].
  assert (Hlevel : forall level, level_recorded (mapping t) level ->
            1 <= level <= L).
  { intros level (key & [Hdash Hsome]%elem_of_replication_ids & Hlev).
    destruct (Hkeys key Hdash Hsome) as (i & l & Hi & Hl & ->).
    rewrite level_of_replica_key in Hlev by (try apply dashed_str; lia).
    injection Hlev as <-. done. }
  apply (layout_intro pos pieces L s' d'); try congruence.
  - intros key Hkey. by rewrite Hm', Hprim.
  - intros name Hname. by rewrite Hd', Hfiles.
  - intros i l Hi Hl.
    apply (update_replicated_levels_mirrors listdir t s' Hupd).
    + apply Hids. by exists i.
    + by apply Hrec.
  - intros key Hkey Hsome.
    destruct (Hom key Hsome) as [Hold|(pk & level & Hpk & Hlev & ->)].
    + by apply Hkeys.
    + apply Hids in Hpk as (i & Hi & ->). exists i, level.
      split; [done|]. split; [by apply Hlevel|done].
  - intros name Hname Hsome.
    destruct (Hof name) as [Hold|(pk & level & Hpk & Hlev & ->)].
    + unfold file. by rewrite Hds'.
    + apply Hnames; [done|]. unfold file in Hold. by rewrite Hd in Hold.
    + apply Hids in Hpk as (i & Hi & ->). exists i, level.
      split; [done|]. split; [by apply Hlevel|done].
Qed.

End LaysOut.

(** ** The operations on a layout *)

Lemma max_spec (l : list Z) (m : Z) :
  max l = Ok m -> m ∈ l /\ forall x, x ∈ l -> x <= m.
Proof.
  destruct l as [|x l]; [discriminate|]. simpl. intros [= <-].
  revert x. induction l as [|y l IH]; intros x; simpl.
  - split; [by left|]. intros z ->%list_elem_of_singleton. lia.
  - destruct (IH (Z.max x y)) as [Hin Hle]. split.
    + apply elem_of_cons in Hin as [Heq|Hin]; [|by do 2 right].
      rewrite Heq. destruct (Z.max_spec x y) as [[_ ->]|[_ ->]];
        [right|]; by left.
    + pose proof (Hle (Z.max x y) ltac:(by left)) as Hxy.
      intros z [Hz|[Hz|Hz]%elem_of_cons]%elem_of_cons.
      * lia.
      * lia.
      * apply Hle. by right.
Qed.

Lemma read_all_total (ids : list string) (s : ShardHandler) :
  (forall id, id ∈ ids -> is_Some (file s (txt_file id))) ->
  exists contents, read_all ids s = (Ok contents, s).
Proof.
  intros H.
  assert (Hex : exists contents,
            Forall2 (fun id content => file s (txt_file id) = Some content)
                    ids contents).
  { induction ids as [|id ids IH]; [by exists []|].
    destruct (H id) as [c Hc]; [by left|].
    destruct IH as [cs Hcs]; [intros k Hk; apply H; by right|].
    exists (c :: cs). by constructor. }
  destruct Hex as [contents Hcs]. exists contents. by apply read_all_files.
Qed.

(** The shard ids 0 to [n - 1] read as integers, and the largest is
    [n - 1]. *)
Lemma largest_shard_id (m : gmap string meta) (n : Z) :
  1 <= n ->
  (forall key, key ∈ shard_ids m <-> exists i, 0 <= i < n /\ key = str i) ->
  exists nums, map_res int (shard_ids m) = Ok nums
               /\ len nums = n /\ max nums = Ok (n - 1).
Proof.
  intros Hn Hids.
  destruct (map_res_total int (shard_ids m)) as (nums & Hnums & Hlen).
  { intros key (i & Hi & ->)%Hids. exists i. apply int_str. lia. }
  exists nums. split; [done|].
  assert (Hlen' : len nums = n).
  { unfold len. rewrite Hlen.
    assert (Hperm : shard_ids m ≡ₚ str <$> seqZ 0 n).
    { apply NoDup_Permutation; [apply shard_ids_NoDup|apply shard_keys_NoDup|].
      intros key. by rewrite Hids, elem_of_shard_keys. }
    rewrite Hperm, length_fmap, length_seqZ. lia. }
  split; [done|].
  assert (Hrange : forall x, x ∈ nums -> 0 <= x < n).
  { intros x Hx. destruct (map_res_elem _ _ _ _ Hnums Hx) as (key & Hkey & Hx').
    apply Hids in Hkey as (i & Hi & ->). rewrite int_str in Hx' by lia.
    injection Hx' as <-. done. }
  assert (Hlast : n - 1 ∈ nums).
  { assert (Hkey : str (n - 1) ∈ shard_ids m)
      by (apply Hids; exists (n - 1); split; [lia|done]).
    clear -Hnums Hkey Hn. revert nums Hnums.
    induction (shard_ids m) as [|k ks IH]; intros nums Hnums;
      [by apply elem_of_nil in Hkey|].
    simpl in Hnums.
    apply res_bind_Ok_inv in Hnums as (y & Hy & Hnums).
    apply res_bind_Ok_inv in Hnums as (ys & Hys & [= <-]).
    apply elem_of_cons in Hkey as [<-|Hkey].
    - rewrite int_str in Hy by lia. injection Hy as <-. by left.
    - right. by apply IH. }
  destruct nums as [|x nums]; [by apply elem_of_nil in Hlast|].
  destruct (max_spec (x :: nums) _ eq_refl) as [Hin Hle].
  simpl. f_equal. specialize (Hle _ Hlast). specialize (Hrange _ Hin). lia.
Qed.

Lemma layout_shard_ids (pos : Z) (pieces : list text) (L : Z) (key : string) :
  key ∈ shard_ids (mapping (layout pos pieces L))
  <-> exists i, 0 <= i < len pieces /\ key = str i.
Proof.
  rewrite elem_of_shard_ids. split.
  - intros [Hdash Hsome]. rewrite layout_primary_entry in Hsome by done.
    by apply shard_entries_is_Some.
  - intros (i & Hi & ->).
    assert (Hdash : dashed (str i) = false) by (apply dashed_str; lia).
    split; [done|]. rewrite layout_primary_entry by done.
    apply shard_entries_is_Some. by exists i.
Qed.

Lemma layout_shard_ids_upto_ten (pos : Z) (pieces : list text) (L : Z) :
  len pieces <= 10 ->
  shard_ids (mapping (layout pos pieces L)) = str <$> seqZ 0 (len pieces).
Proof.
  intros Hlen. apply (Sorted_unique String.le);
    [apply sorted_Sorted|by apply single_digit_ids_sorted|].
  apply NoDup_Permutation; [apply shard_ids_NoDup|apply shard_keys_NoDup|].
  intros key. by rewrite layout_shard_ids, elem_of_shard_keys.
Qed.

(** Reading a layout back completes; with at most ten shards it returns
    the pieces in order. *)
Lemma load_layout (pos : Z) (pieces : list text) (L : Z) :
  exists T,
    load_data_from_shards (layout pos pieces L) = (Ok T, layout pos pieces L)
    /\ (len pieces <= 10 -> T = concat pieces).
Proof.
  set (s := layout pos pieces L).
  destruct (read_all_total (shard_ids (mapping s)) s) as [contents Hread].
  { intros id (i & Hi & ->)%layout_shard_ids. subst s.
    rewrite layout_primary_file
      by (rewrite dashed_txt_file; apply dashed_str; lia).
    apply shard_files_is_Some. by exists i. }
  exists (concat contents). split.
  - unfold load_data_from_shards.
    rewrite (bind_Ok _ _ s s (shard_ids (mapping s))) by done.
    by rewrite (bind_Ok _ _ s s contents).
  - intros Hlen. f_equal.
    assert (Hread' : read_all (shard_ids (mapping s)) s = (Ok pieces, s)).
    { apply read_all_files. subst s. rewrite layout_shard_ids_upto_ten by done.
      apply Forall2_fmap_l, Forall2_same_length_lookup_2.
      { rewrite length_seqZ. unfold len. lia. }
      intros i z piece Hz Hpiece. apply lookup_seqZ in Hz as [-> _].
      rewrite Z.add_0_l.
      change (file (layout pos pieces L) (txt_file (str (Z.of_nat i)))
              = Some piece).
      rewrite layout_primary_file
        by (rewrite dashed_txt_file; apply dashed_str; lia).
      by apply shard_file_lookup. }
    congruence.
Qed.

Lemma built_fresh_layout (pieces : list text) :
  pieces <> [] -> built pieces fresh = layout (len (concat pieces)) pieces 0.
Proof.
  intros Hne. unfold built. rewrite shards_written_nonempty by done.
  unfold layout, fresh, set_mapfile. simpl.
  rewrite !replicated_none, !app_nil_r by done.
  rewrite !(right_id_L ∅ (∪)), shard_contents_files. reflexivity.
Qed.

Section Rewrite.

Variable listdir : gmap string text -> list string.
Hypothesis listdir_perm : forall d, listdir d ≡ₚ elements (dom d).

Lemma sync_layout (pos : Z) (pieces : list text) (L : Z) :
  pieces <> [] ->
  sync_replication listdir (layout pos pieces L)
  = (Ok tt, layout pos pieces L).
Proof.
  intros Hne.
  assert (H0 : 0 <= 0 < len pieces)
    by (destruct pieces; [done|unfold len; simpl; lia]).
  apply (sync_lays_out listdir listdir_perm pos pieces L (layout pos pieces L)
           _ eq_refl eq_refl eq_refl).
  - apply layout_primary_entry.
  - intros name Hname.
    pose proof (layout_primary_file pos pieces L name Hname) as H.
    exact H.
  - apply layout_replica_origin.
  - intros name Hname Hsome.
    by apply (layout_replica_file_origin pos pieces L name).
  - intros l Hl. exists (replica_key (str 0) l). split.
    + apply elem_of_replication_ids. split; [apply dashed_replica_key|].
      destruct (layout_mirrored pos pieces L 0 l H0 Hl)
        as (entry & _ & _ & _ & Hr & _). eauto.
    + apply level_of_replica_key; [done|lia].
Qed.

(** Writing [pieces] over a handler that holds shards and replicas with
    smaller ids only, then syncing, leaves the layout of [pieces]. *)
Lemma shards_then_sync (pieces : list text) (L : Z) (s0 : ShardHandler)
    (d0 : gmap string text) :
  pieces <> [] -> replication_level s0 = L -> data s0 = Some d0 ->
  (forall key, dashed key = false -> is_Some (mapping s0 !! key) ->
     exists i, 0 <= i < len pieces /\ key = str i) ->
  (forall name, dashed name = false -> is_Some (d0 !! name) ->
     exists i, 0 <= i < len pieces /\ name = txt_file (str i)) ->
  (forall key, dashed key = true -> is_Some (mapping s0 !! key) ->
     exists i l, 0 <= i < len pieces /\ 1 <= l <= L
                 /\ key = replica_key (str i) l) ->
  (forall name, dashed name = true -> is_Some (d0 !! name) ->
     exists i l, 0 <= i < len pieces /\ 1 <= l <= L
                 /\ name = txt_file (replica_key (str i) l)) ->
  (forall l, 1 <= l <= L -> level_recorded (mapping s0) l) ->
  (for_ (enumerate pieces) (fun '(num, piece) => _write_shard num piece);;
   write_map;; sync_replication listdir) s0
  = (Ok tt, layout (len (concat pieces)) pieces L).
Proof.
  intros Hne HL Hd0 Hk0 Hn0 Hrk0 Hrn0 Hrec.
  unfold enumerate, range.
  rewrite (bind_Ok _ _ _ _ _ (write_shards_run pieces 0 s0 ltac:(lia))).
  rewrite bind_unfold. unfold write_map, modify.
  rewrite shards_written_nonempty by done. cbv zeta. rewrite Hd0. simpl.
  apply (sync_lays_out listdir listdir_perm _ pieces L _
           (list_to_map (shard_files 0 pieces) ∪ d0)); try done.
  - intros key Hkey. simpl.
    destruct ((list_to_map (shard_entries 0 0 pieces) : gmap string meta)
                !! key) as [v|] eqn:Hv.
    + by apply lookup_union_Some_l.
    + rewrite lookup_union_r by done. apply eq_None_not_Some.
      intros Hsome. destruct (Hk0 key Hkey Hsome) as (i & Hi & ->).
      assert (Hin : is_Some ((list_to_map (shard_entries 0 0 pieces)
                              : gmap string meta) !! str i))
        by (apply shard_entries_is_Some; by exists i).
      rewrite Hv in Hin. by apply is_Some_None in Hin.
  - intros name Hname.
    destruct ((list_to_map (shard_files 0 pieces) : gmap string text)
                !! name) as [v|] eqn:Hv.
    + by apply lookup_union_Some_l.
    + rewrite lookup_union_r by done. apply eq_None_not_Some.
      intros Hsome. destruct (Hn0 name Hname Hsome) as (i & Hi & ->).
      assert (Hin : is_Some ((list_to_map (shard_files 0 pieces)
                              : gmap string text) !! txt_file (str i)))
        by (apply shard_files_is_Some; by exists i).
      rewrite Hv in Hin. by apply is_Some_None in Hin.
  - intros key Hkey. simpl. rewrite lookup_union_r; [by apply Hrk0|].
    apply eq_None_not_Some.
    intros (i & Hi & ->)%shard_entries_is_Some.
    by rewrite dashed_str in Hkey by lia.
  - intros name Hname. rewrite lookup_union_r; [by apply Hrn0|].
    apply eq_None_not_Some.
    intros (i & Hi & ->)%shard_files_is_Some.
    by rewrite dashed_txt_file, dashed_str in Hname by lia.
  - intros l Hl. simpl.
    apply (level_recorded_grows (mapping s0)); [|by apply Hrec].
    intros key [v Hv].
    destruct ((list_to_map (shard_entries 0 0 pieces) : gmap string meta)
                !! key) as [w|] eqn:Hw.
    + exists w. by apply lookup_union_Some_l.
    + exists v. by rewrite lookup_union_r.
Qed.

End Rewrite.

(** *** Loops that remove *)

Lemma split_pieces (count : Z) (d : text) :
  1 <= count ->
  exists pieces, _generate_sharded_data count d = Ok pieces
                 /\ pieces <> [] /\ len pieces = count /\ concat pieces = d.
Proof.
  intros Hc. eexists. split; [by apply _generate_sharded_data_positive|].
  cbv zeta. split; [by intros [_ ?]%app_eq_nil|].
  assert (Hw : 0 <= len d / count) by (apply Z.div_pos; unfold len; lia).
  assert (Hle : len d / count * (count - 1) <= len d).
  { pose proof (Z.mul_div_le (len d) count ltac:(lia)) as Hmul.
    replace (len d / count * (count - 1))
      with (count * (len d / count) - len d / count) by ring.
    lia. }
  generalize dependent (len d / count). intros w Hw Hle.
  split.
  - unfold len. rewrite length_app, length_map, length_seqZ. simpl. lia.
  - rewrite concat_app. simpl. rewrite app_nil_r.
    replace (count - 1) with (Z.of_nat (Z.to_nat (count - 1))) in * by lia.
    rewrite concat_slices by done. apply take_drop.
Qed.

Lemma elem_of_enumerate {A} (l : list A) (i : Z) (x : A) :
  (i, x) ∈ enumerate l -> 0 <= i < len l /\ x ∈ l.
Proof.
  unfold enumerate, range. intros H. split.
  - apply elem_of_zip_l, elem_of_seqZ in H. lia.
  - by apply elem_of_zip_r in H.
Qed.

Lemma enumerate_head {A} (x : A) (l : list A) : (0, x) ∈ enumerate (x :: l).
Proof. unfold enumerate, range. rewrite zip_seqZ_cons. by left. Qed.

Lemma remove_files_run (P : string -> bool) (l : list string)
    (s : ShardHandler) (d : gmap string text) :
  data s = Some d -> NoDup l ->
  (forall x, x ∈ l -> P x = true -> is_Some (d !! x)) ->
  exists d',
    for_ l (fun x => if P x then remove_file x else pass) s
    = (Ok tt, set_data (Some d') s)
    /\ forall name,
         d' !! name
         = if decide (name ∈ l /\ P name = true) then None else d !! name.
Proof.
  revert s d. induction l as [|x l IH]; intros s d Hd Hnd Hex.
  - exists d. split; [simpl; by rewrite <- Hd, set_data_id|].
    intros name. destruct (decide _) as [[[]%elem_of_nil _]|_]; done.
  - apply NoDup_cons in Hnd as [Hx Hnd]. simpl for_.
    destruct (P x) eqn:HPx.
    + destruct (Hex x) as [c Hc]; [by left|done|].
      destruct (IH (set_data (Some (delete x d)) s) (delete x d))
        as (d' & Hrun & Hlook); [done|done| |].
      { intros y Hy HPy. rewrite lookup_delete_ne by (by intros ->).
        apply Hex; [by right|done]. }
      exists d'. split.
      * rewrite bind_unfold. unfold remove_file at 1. rewrite Hd, Hc.
        exact Hrun.
      * intros name. rewrite Hlook.
        destruct (decide (name = x)) as [->|Hne].
        -- rewrite decide_False by (by intros [? _]).
           rewrite decide_True by (split; [by left|done]).
           apply lookup_delete_eq.
        -- rewrite lookup_delete_ne by done.
           destruct (decide (name ∈ l /\ P name = true)) as [[Hin HP]|Hno].
           ++ by rewrite decide_True by (split; [by right|done]).
           ++ rewrite decide_False; [done|].
              intros [[?|?]%elem_of_cons HP]; [done|]. by apply Hno.
    + destruct (IH s d) as (d' & Hrun & Hlook); [done|done| |].
      { intros y Hy HPy. apply Hex; [by right|done]. }
      exists d'. split.
      * rewrite bind_unfold. exact Hrun.
      * intros name. rewrite Hlook.
        destruct (decide (name ∈ l /\ P name = true)) as [[Hin HP]|Hno].
        -- by rewrite decide_True by (split; [by right|done]).
        -- rewrite decide_False; [done|].
           intros [[->|?]%elem_of_cons HP]; [congruence|]. by apply Hno.
Qed.

Lemma pop_keys_run (P : string -> bool) (l : list string) (s : ShardHandler) :
  NoDup l ->
  (forall x, x ∈ l -> P x = true -> is_Some (mapping s !! x)) ->
  exists m',
    for_ l (fun x => if P x then mapping_pop x else pass) s
    = (Ok tt, set_mapping m' s)
    /\ forall key,
         m' !! key
         = if decide (key ∈ l /\ P key = true) then None else mapping s !! key.
Proof.
  revert s. induction l as [|x l IH]; intros s Hnd Hex.
  - exists (mapping s). split; [simpl; by rewrite set_mapping_id|].
    intros key. destruct (decide _) as [[[]%elem_of_nil _]|_]; done.
  - apply NoDup_cons in Hnd as [Hx Hnd]. simpl for_.
    destruct (P x) eqn:HPx.
    + destruct (Hex x) as [c Hc]; [by left|done|].
      destruct (IH (set_mapping (delete x (mapping s)) s))
        as (m' & Hrun & Hlook); [done| |].
      { intros y Hy HPy. simpl. rewrite lookup_delete_ne by (by intros ->).
        apply Hex; [by right|done]. }
      exists m'. split.
      * rewrite bind_unfold. unfold mapping_pop at 1. rewrite Hc.
        exact Hrun.
      * intros key. rewrite Hlook. simpl.
        destruct (decide (key = x)) as [->|Hne].
        -- rewrite decide_False by (by intros [? _]).
           rewrite decide_True by (split; [by left|done]).
           apply lookup_delete_eq.
        -- rewrite lookup_delete_ne by done.
           destruct (decide (key ∈ l /\ P key = true)) as [[Hin HP]|Hno].
           ++ by rewrite decide_True by (split; [by right|done]).
           ++ rewrite decide_False; [done|].
              intros [[?|?]%elem_of_cons HP]; [done|]. by apply Hno.
    + destruct (IH s) as (m' & Hrun & Hlook); [done| |].
      { intros y Hy HPy. apply Hex; [by right|done]. }
      exists m'. split.
      * rewrite bind_unfold. exact Hrun.
      * intros key. rewrite Hlook.
        destruct (decide (key ∈ l /\ P key = true)) as [[Hin HP]|Hno].
        -- by rewrite decide_True by (split; [by right|done]).
        -- rewrite decide_False; [done|].
           intros [[->|?]%elem_of_cons HP]; [congruence|]. by apply Hno.
Qed.

(** The loop of [remove_replication] over the keys to drop. *)
Lemma drop_replicas_run (l : list (string * bool)) (s : ShardHandler)
    (d : gmap string text) :
  data s = Some d -> NoDup l.*1 ->
  (forall key, key ∈ l.*1 ->
     is_Some (mapping s !! key) /\ is_Some (d !! txt_file key)) ->
  exists m' d',
    for_ l (fun '(key, _) => mapping_pop key;; remove_file (txt_file key)) s
    = (Ok tt, set_data (Some d') (set_mapping m' s))
    /\ (forall key,
          m' !! key = if decide (key ∈ l.*1) then None else mapping s !! key)
    /\ (forall name,
          d' !! name
          = if decide (name ∈ txt_file <$> l.*1) then None else d !! name).
Proof.
  revert s d. induction l as [|[k b] l IH]; intros s d Hd Hnd Hex.
  - exists (mapping s), d. split; [|split].
    + simpl. by rewrite set_mapping_id, <- Hd, set_data_id.
    + intros key. destruct (decide _) as [[]%elem_of_nil|_]; done.
    + intros name. destruct (decide _) as [[]%elem_of_nil|_]; done.
  - rewrite fmap_cons in Hnd. apply NoDup_cons in Hnd as [Hk Hnd].
    simpl fst in Hk.
    destruct (Hex k) as [[v Hv] [c Hc]]; [by left|].
    destruct (IH (set_data (Some (delete (txt_file k) d))
                    (set_mapping (delete k (mapping s)) s))
                 (delete (txt_file k) d))
      as (m' & d' & Hrun & Hm & Hf); [done|done| |].
    { intros key Hkey. simpl.
      rewrite !lookup_delete_ne; [apply Hex; by right| |].
      - intros Heq%(inj txt_file). by subst.
      - intros ->. done. }
    exists m', d'. split; [|split].
    + simpl for_. rewrite bind_unfold, bind_unfold.
      unfold mapping_pop at 1. rewrite Hv.
      unfold remove_file at 1. simpl. rewrite Hd, Hc. exact Hrun.
    + intros key. rewrite Hm. simpl.
      destruct (decide (key = k)) as [->|Hne].
      * rewrite decide_False by done.
        rewrite decide_True by (by left). apply lookup_delete_eq.
      * rewrite lookup_delete_ne by done.
        destruct (decide (key ∈ l.*1)) as [Hin|Hno].
        -- by rewrite decide_True by (by right).
        -- rewrite decide_False; [done|].
           by intros [?|?]%elem_of_cons.
    + intros name. rewrite Hf. rewrite ?fmap_cons. simpl.
      destruct (decide (name = txt_file k)) as [->|Hne].
      * rewrite decide_False.
        2:{ intros (k' & Heq%(inj txt_file) & Hin)%list_elem_of_fmap.
            by subst. }
        rewrite decide_True by (by left). apply lookup_delete_eq.
      * rewrite lookup_delete_ne by done.
        destruct (decide (name ∈ txt_file <$> l.*1)) as [Hin|Hno].
        -- by rewrite decide_True by (by right).
        -- rewrite decide_False; [done|].
           by intros [?|?]%elem_of_cons.
Qed.

(** The keys that [remove_replication] selects: the replica ids above
    the new level. *)
Lemma backup_keys_run (level : Z) (ids : list string) :
  (forall key, key ∈ ids -> exists n, level_of key = Ok n) ->
  exists backup_keys,
    map_res (fun key => n ← level_of key; Ok (key, bool_decide (level < n)))
            ids = Ok backup_keys
    /\ (forall key,
          key ∈ (filter (fun kb : string * bool => kb.2 = true)
                        backup_keys).*1
          <-> key ∈ ids /\ exists n, level_of key = Ok n /\ level < n)
    /\ (NoDup ids ->
        NoDup (filter (fun kb : string * bool => kb.2 = true)
                      backup_keys).*1).
Proof.
  induction ids as [|k ids IH]; intros Hparse.
  - exists []. split; [done|]. split; [|intros _; constructor].
    intros key. split; [by intros []%elem_of_nil|].
    by intros [[]%elem_of_nil _].
  - destruct (Hparse k) as [n Hn]; [by left|].
    destruct IH as (ys & Hys & Hin & Hnd);
      [intros key Hkey; apply Hparse; by right|].
    exists ((k, bool_decide (level < n)) :: ys).
    split; [simpl; by rewrite Hn, Hys|].
    rewrite filter_cons. simpl.
    destruct (bool_decide_reflect (level < n)) as [Hlt|Hge].
    + rewrite decide_True by done. split.
      * intros key. rewrite fmap_cons, !elem_of_cons, Hin. simpl. split.
        -- intros [->|[? ?]]; [|split; [by right|done]].
           split; [by left|]. by exists n.
        -- intros [[->|?] ?]; [by left|by right].
      * intros [Hk Hids]%NoDup_cons. rewrite fmap_cons. simpl.
        apply NoDup_cons. split; [|by apply Hnd].
        intros [? _]%Hin. done.
    + rewrite decide_False by done. split.
      * intros key. rewrite Hin, elem_of_cons. split.
        -- intros [? ?]. split; [by right|done].
        -- intros [[->|?] (n' & Hn' & Hlt)]; [|split; [done|by exists n']].
           rewrite Hn in Hn'. injection Hn' as <-. done.
      * intros [Hk Hids]%NoDup_cons. by apply Hnd.
Qed.

Lemma head_piece_replica_file (shard : string) (level : Z) :
  dashed shard = false ->
  head_piece "-" (txt_file (replica_key shard level)) = shard.
Proof.
  intros Hs. unfold txt_file, replica_key.
  rewrite !string_app_assoc.
  change ("-" +:+ str level +:+ ".txt")
    with (String "-" (str level +:+ ".txt")).
  by apply head_piece_app_sep.
Qed.

Lemma layout_data (pos : Z) (pieces : list text) (L : Z) :
  exists d,
    data (layout pos pieces L) = Some d
    /\ (forall name, dashed name = false ->
          d !! name
          = (list_to_map (shard_files 0 pieces) : gmap string text) !! name)
    /\ (forall name, dashed name = true -> is_Some (d !! name) ->
          exists i l, 0 <= i < len pieces /\ 1 <= l <= L
                      /\ name = txt_file (replica_key (str i) l))
    /\ (forall i l, 0 <= i < len pieces -> 1 <= l <= L ->
          is_Some (d !! txt_file (replica_key (str i) l))).
Proof.
  eexists. split; [reflexivity|]. split; [|split].
  - intros name Hname. exact (layout_primary_file pos pieces L name Hname).
  - intros name Hname Hsome.
    exact (layout_replica_file_origin pos pieces L name Hname Hsome).
  - intros i l Hi Hl.
    destruct (layout_mirrored pos pieces L i l Hi Hl)
      as (_ & d & c & _ & _ & [= <-] & _ & Hr). eauto.
Qed.

Lemma layout_level_recorded (pos : Z) (pieces : list text) (L l : Z) :
  pieces <> [] -> 1 <= l <= L ->
  is_Some (mapping (layout pos pieces L) !! replica_key (str 0) l).
Proof.
  intros Hne Hl.
  assert (H0 : 0 <= 0 < len pieces)
    by (destruct pieces; [done|unfold len; simpl; lia]).
  destruct (layout_mirrored pos pieces L 0 l H0 Hl)
    as (entry & _ & _ & _ & Hr & _). eauto.
Qed.

Lemma len_pos {A} (l : list A) : l <> [] -> 1 <= len l.
Proof. destruct l; [done|]. unfold len. simpl. lia. Qed.

Section Operations.

Variable listdir : gmap string text -> list string.
Hypothesis listdir_perm : forall d, listdir d ≡ₚ elements (dom d).

Lemma elem_of_listdir (d : gmap string text) (name : string) :
  name ∈ listdir d <-> is_Some (d !! name).
Proof. by rewrite listdir_perm, elem_of_elements, elem_of_dom. Qed.

Lemma listdir_NoDup (d : gmap string text) : NoDup (listdir d).
Proof. rewrite listdir_perm. apply NoDup_elements. Qed.

(** [add_shard] on a layout: the text read back is cut into one more
    piece and laid out again, with the same replication levels. *)
Lemma add_shard_layout (pos : Z) (pieces : list text) (L : Z) (T : text) :
  pieces <> [] ->
  load_data_from_shards (layout pos pieces L) = (Ok T, layout pos pieces L) ->
  exists pieces',
    _generate_sharded_data (len pieces + 1) T = Ok pieces'
    /\ add_shard listdir (layout pos pieces L)
       = (Ok tt, layout (len T) pieces' L).
Proof.
  intros Hne Hload. pose proof (len_pos pieces Hne) as Hn.
  destruct (largest_shard_id (mapping (layout pos pieces L)) (len pieces) Hn
              (layout_shard_ids pos pieces L))
    as (nums & Hnums & Hlen & Hmax).
  destruct (split_pieces (len pieces + 1) T ltac:(lia))
    as (pieces' & Hsplit & Hne' & Hlen' & Hcat).
  destruct (layout_data pos pieces L) as (d0 & Hd0 & Hprim & Horigin & _).
  exists pieces'. split; [done|].
  set (s := layout pos pieces L) in *.
  unfold add_shard.
  rewrite (bind_Ok _ _ s s tt) by (by apply sync_layout).
  rewrite (bind_Ok _ _ s s (mapping s)) by reflexivity.
  rewrite (bind_Ok _ _ s s tt) by (unfold modify; by rewrite set_mapping_id).
  rewrite (bind_Ok _ _ s s T) by done.
  rewrite (bind_Ok _ _ s s (shard_ids (mapping s))) by done.
  rewrite (bind_Ok _ _ s s nums) by (unfold lift; by rewrite Hnums).
  rewrite (bind_Ok _ _ s s (len pieces - 1)) by (unfold lift; by rewrite Hmax).
  replace (len pieces - 1 + 2) with (len pieces + 1) by lia.
  rewrite (bind_Ok _ _ s s pieces') by (unfold lift; by rewrite Hsplit).
  rewrite <- Hcat.
  apply (shards_then_sync listdir listdir_perm pieces' L s d0); try done.
  - intros key Hkey Hsome. unfold s in Hsome.
    rewrite layout_primary_entry in Hsome by done.
    apply shard_entries_is_Some in Hsome as (i & Hi & ->).
    exists i. split; [lia|done].
  - intros name Hname Hsome. rewrite Hprim in Hsome by done.
    apply shard_files_is_Some in Hsome as (i & Hi & ->).
    exists i. split; [lia|done].
  - intros key Hkey Hsome.
    destruct (layout_replica_origin pos pieces L key Hkey Hsome)
      as (i & l & Hi & Hl & ->).
    exists i, l. split; [lia|done].
  - intros name Hname Hsome.
    destruct (Horigin name Hname Hsome) as (i & l & Hi & Hl & ->).
    exists i, l. split; [lia|done].
  - intros l Hl. exists (replica_key (str 0) l). split.
    + apply elem_of_replication_ids. split; [apply dashed_replica_key|].
      by apply layout_level_recorded.
    + apply level_of_replica_key; [done|lia].
Qed.

(** The start of [remove_shard] and [add_shard] on a layout, up to the
    shard numbers. *)
Lemma remove_shard_layout (pos : Z) (pieces : list text) (L : Z) (T : text) :
  2 <= len pieces ->
  load_data_from_shards (layout pos pieces L) = (Ok T, layout pos pieces L) ->
  exists pieces',
    _generate_sharded_data (len pieces - 1) T = Ok pieces'
    /\ remove_shard listdir (layout pos pieces L)
       = (Ok tt, layout (len T) pieces' L).
Proof.
  intros Hn Hload.
  assert (Hne : pieces <> []) by (intros ->; unfold len in Hn; simpl in Hn; lia).
  destruct (largest_shard_id (mapping (layout pos pieces L)) (len pieces)
              ltac:(lia) (layout_shard_ids pos pieces L))
    as (nums & Hnums & Hlen & Hmax).
  destruct (split_pieces (len pieces - 1) T ltac:(lia))
    as (pieces' & Hsplit & Hne' & Hlen' & Hcat).
  destruct (layout_data pos pieces L)
    as (d0 & Hd0 & Hprim & Horigin & Hreplicas).
  exists pieces'. split; [done|].
  set (s := layout pos pieces L) in *.
  set (new := len pieces - 1) in *.
  unfold remove_shard.
  rewrite (bind_Ok _ _ s s tt) by (by apply sync_layout).
  rewrite (bind_Ok _ _ s s (mapping s)) by reflexivity.
  rewrite (bind_Ok _ _ s s tt) by (unfold modify; by rewrite set_mapping_id).
  rewrite (bind_Ok _ _ s s T) by done.
  rewrite (bind_Ok _ _ s s (shard_ids (mapping s))) by done.
  rewrite (bind_Ok _ _ s s nums) by (unfold lift; by rewrite Hnums).
  rewrite (bind_Ok _ _ s s tt).
  2:{ rewrite bool_decide_false; [done|].
      intros Hone. apply (f_equal Z.of_nat) in Hone. fold (len nums) in Hone.
      lia. }
  rewrite (bind_Ok _ _ s s new) by (unfold lift; by rewrite Hmax).
  rewrite (bind_Ok _ _ s s pieces') by (unfold lift; by rewrite Hsplit).
  rewrite (bind_Ok _ _ s s (listdir d0))
    by (unfold listdir_data; by rewrite Hd0).
  (* the files of the last shard are removed *)
  set (gone := fun name : string =>
         if negb (dashed name)
         then bool_decide (str new = head_piece "." name)
         else bool_decide (str new = head_piece "-" name)).
  destruct (remove_files_run gone (listdir d0) s d0 Hd0 (listdir_NoDup d0))
    as (d1 & Hrm & Hd1).
  { intros x Hx _. by apply elem_of_listdir. }
  rewrite (bind_Ok _ _ s (set_data (Some d1) s) tt).
  2:{ rewrite <- Hrm. apply for_ext. intros x t _. unfold gone.
      destruct (negb (dashed x)); by destruct (bool_decide _). }
  set (s1 := set_data (Some d1) s).
  rewrite (bind_Ok _ _ s1 s1 (keys (mapping s))) by done.
  (* and its entries are popped *)
  set (popped := fun key : string =>
         if negb (dashed key)
         then bool_decide (key = str new)
         else bool_decide (head_piece "-" key = str new)).
  destruct (pop_keys_run popped (keys (mapping s)) s1 (NoDup_elements _))
    as (m2 & Hpop & Hm2).
  { intros x Hx _. by apply elem_of_keys. }
  rewrite (bind_Ok _ _ s1 (set_mapping m2 s1) tt).
  2:{ rewrite <- Hpop. apply for_ext. intros x t _. unfold popped.
      destruct (negb (dashed x)); by destruct (bool_decide _). }
  set (s2 := set_mapping m2 s1).
  assert (Hm2' : forall key, is_Some (m2 !! key) ->
            is_Some (mapping s !! key) /\ popped key = false).
  { intros key Hsome. rewrite Hm2 in Hsome.
    destruct (decide _) as [|Hno]; [by apply is_Some_None in Hsome|].
    split; [done|]. apply not_true_is_false. intros HP. apply Hno.
    split; [|done]. by apply elem_of_keys. }
  assert (Hd1' : forall name, is_Some (d1 !! name) ->
            is_Some (d0 !! name) /\ gone name = false).
  { intros name Hsome. rewrite Hd1 in Hsome.
    destruct (decide _) as [|Hno]; [by apply is_Some_None in Hsome|].
    split; [done|]. apply not_true_is_false. intros HP. apply Hno.
    split; [|done]. by apply elem_of_listdir. }
  rewrite <- Hcat.
  apply (shards_then_sync listdir listdir_perm pieces' L s2 d1); try done.
  - intros key Hkey Hsome. simpl in Hsome.
    destruct (Hm2' key Hsome) as [Hs Hp]. unfold s in Hs.
    rewrite layout_primary_entry in Hs by done.
    apply shard_entries_is_Some in Hs as (i & Hi & ->).
    unfold popped in Hp. rewrite Hkey in Hp. simpl in Hp.
    apply bool_decide_eq_false in Hp.
    exists i. split; [|done].
    assert (i <> new) by (intros ->; done). unfold new in *. lia.
  - intros name Hname Hsome.
    destruct (Hd1' name Hsome) as [Hs Hp].
    rewrite Hprim in Hs by done.
    apply shard_files_is_Some in Hs as (i & Hi & ->).
    unfold gone in Hp. rewrite Hname in Hp. simpl in Hp.
    rewrite head_piece_txt_file_numeral in Hp by (apply (str_numeral i); lia).
    apply bool_decide_eq_false in Hp.
    exists i. split; [|done].
    assert (i <> new) by (intros ->; done). unfold new in *. lia.
  - intros key Hkey Hsome. simpl in Hsome.
    destruct (Hm2' key Hsome) as [Hs Hp].
    destruct (layout_replica_origin pos pieces L key Hkey Hs)
      as (i & l & Hi & Hl & ->).
    unfold popped in Hp. rewrite Hkey in Hp. simpl in Hp.
    rewrite head_piece_replica_key in Hp by (apply dashed_str; lia).
    apply bool_decide_eq_false in Hp.
    exists i, l. split; [|done].
    assert (i <> new) by (intros ->; done). unfold new in *. lia.
  - intros name Hname Hsome.
    destruct (Hd1' name Hsome) as [Hs Hp].
    destruct (Horigin name Hname Hs) as (i & l & Hi & Hl & ->).
    unfold gone in Hp. rewrite Hname in Hp. simpl in Hp.
    rewrite head_piece_replica_file in Hp by (apply dashed_str; lia).
    apply bool_decide_eq_false in Hp.
    exists i, l. split; [|done].
    assert (i <> new) by (intros ->; done). unfold new in *. lia.
  - intros l Hl. exists (replica_key (str 0) l). split.
    + apply elem_of_replication_ids. split; [apply dashed_replica_key|].
      simpl. rewrite Hm2. rewrite decide_False.
      * by apply layout_level_recorded.
      * intros [_ HP]. unfold popped in HP.
        rewrite dashed_replica_key in HP. cbn [negb] in HP.
        rewrite head_piece_replica_key in HP by done.
        apply bool_decide_eq_true in HP. change (str 0 = str new) in HP.
        apply (inj str) in HP.
        unfold new in HP. lia.
    + apply level_of_replica_key; [done|lia].
Qed.

End Operations.

Lemma for_run_establishes {A} (I : ShardHandler -> Prop)
    (Q : A -> ShardHandler -> Prop) (l : list A) (body : A -> M unit) :
  (forall x s, x ∈ l -> I s ->
     exists s', body x s = (Ok tt, s') /\ I s' /\ Q x s') ->
  (forall x y s s', x ∈ l -> y ∈ l -> I s -> Q y s ->
     body x s = (Ok tt, s') -> Q y s') ->
  forall s, I s ->
    exists s', for_ l body s = (Ok tt, s') /\ I s' /\ forall x, x ∈ l -> Q x s'.
Proof.
  intros Hest Hkeep s HI.
  destruct (for_run I l body) with s as (s' & Hrun & _); [|done|].
  { intros x t Hx Ht. destruct (Hest x t Hx Ht) as (t' & ? & ? & _). eauto. }
  exists s'. split; [done|].
  apply (for_establishes I Q l body) with s; try done.
  intros x t t' Hx Ht Hstep.
  destruct (Hest x t Hx Ht) as (t'' & Hstep' & ? & ?).
  rewrite Hstep in Hstep'. by injection Hstep' as <-.
Qed.

Lemma copyfile_run (src dst : string) (s : ShardHandler)
    (d : gmap string text) (c : text) :
  data s = Some d -> d !! src = Some c -> src <> dst ->
  copyfile src dst s = (Ok tt, set_data (Some (<[dst := c]> d)) s).
Proof.
  intros Hd Hc Hne. unfold copyfile.
  rewrite (bind_Ok _ _ _ _ _ (read_file_Some _ _ _ _ Hd Hc)).
  destruct (decide (src = dst)); [done|].
  unfold write_file. by rewrite Hd.
Qed.

Section Replication.

Variable listdir : gmap string text -> list string.
Hypothesis listdir_perm : forall d, listdir d ≡ₚ elements (dom d).

(** The sorted primary files of a directory that holds exactly the files
    of the shard ids. *)
Lemma primary_file_names (s : ShardHandler) (d : gmap string text) :
  Forall (fun k => Forall (fun c => is_digit c = true)
                          (list_ascii_of_string k)) (shard_ids (mapping s)) ->
  (forall name, dashed name = false ->
     is_Some (d !! name)
     <-> exists key, key ∈ shard_ids (mapping s) /\ name = txt_file key) ->
  sorted (filter (fun file => ¬ dashed file) (listdir d))
  = txt_file <$> shard_ids (mapping s).
Proof.
  intros Hnum Hfiles.
  apply (Sorted_unique String.le); [apply sorted_Sorted| |].
  - apply StronglySorted_Sorted.
    apply (StronglySorted_fmap_on txt_file _ _ le_txt_file Hnum).
    apply (Sorted_StronglySorted _), sorted_Sorted.
  - rewrite sorted_Permutation, listdir_perm.
    apply NoDup_Permutation.
    + apply NoDup_filter, NoDup_elements.
    + apply (NoDup_fmap_2 _), shard_ids_NoDup.
    + intros x. rewrite list_elem_of_filter, elem_of_elements, elem_of_dom.
      rewrite list_elem_of_fmap. split.
      * intros [Hx%Is_true_false Hsome].
        destruct (proj1 (Hfiles x Hx) Hsome) as (key & Hkey & ->).
        by exists key.
      * intros (key & -> & Hkey).
        assert (Hdash : dashed (txt_file key) = false).
        { rewrite dashed_txt_file.
          by apply elem_of_shard_ids in Hkey as [? _]. }
        split; [by apply Is_true_false|].
        apply Hfiles; [done|]. by exists key.
Qed.

Lemma layout_primary_file_names (pos : Z) (pieces : list text) (L : Z)
    (d : gmap string text) :
  data (layout pos pieces L) = Some d ->
  sorted (filter (fun file => ¬ dashed file) (listdir d))
  = txt_file <$> shard_ids (mapping (layout pos pieces L)).
Proof.
  intros Hd. apply primary_file_names.
  - apply Forall_forall. intros key (i & Hi & ->)%layout_shard_ids.
    apply (str_numeral i). lia.
  - intros name Hname.
    pose proof (layout_primary_file pos pieces L name Hname) as Hf.
    unfold file in Hf. rewrite Hd in Hf. simpl in Hf. rewrite Hf.
    rewrite shard_files_is_Some. split.
    + intros (i & Hi & ->). exists (str i). split; [|done].
      apply layout_shard_ids. by exists i.
    + intros (key & (i & Hi & ->)%layout_shard_ids & ->). by exists i.
Qed.

Lemma layout_shard_count (pos : Z) (pieces : list text) (L : Z) :
  len (shard_ids (mapping (layout pos pieces L))) = len pieces.
Proof.
  assert (Hperm : shard_ids (mapping (layout pos pieces L))
                  ≡ₚ str <$> seqZ 0 (len pieces)).
  { apply NoDup_Permutation; [apply shard_ids_NoDup|apply shard_keys_NoDup|].
    intros key. by rewrite layout_shard_ids, elem_of_shard_keys. }
  unfold len at 1. rewrite Hperm, length_fmap, length_seqZ.
  unfold len. lia.
Qed.

(** [add_replication] on a layout adds one level. *)
Lemma add_replication_layout (pos : Z) (pieces : list text) (L : Z) :
  pieces <> [] -> 0 <= L ->
  add_replication listdir (layout pos pieces L)
  = (Ok tt, layout pos pieces (L + 1)).
Proof.
  intros Hne HL.
  destruct (layout_data pos pieces L) as (d0 & Hd0 & Hprim & Horigin & _).
  pose proof (layout_primary_file_names pos pieces L d0 Hd0) as Horiginals.
  pose proof (layout_shard_count pos pieces L) as Hcount.
  set (s := layout pos pieces L) in *.
  set (s2 := set_replication_level (L + 1) s).
  unfold add_replication.
  rewrite (bind_Ok _ _ s s tt) by (by apply sync_layout).
  rewrite (bind_Ok _ _ s s2 tt) by reflexivity.
  rewrite (bind_Ok _ _ s2 s2 (L + 1)) by reflexivity.
  rewrite (bind_Ok _ _ s2 s2 (listdir d0))
    by (unfold listdir_data; change (data s2) with (data s); by rewrite Hd0).
  rewrite Horiginals.
  (* the files of the new level *)
  destruct (for_run
    (fun t => last_char_position t = pos /\ replication_level t = L + 1
              /\ mapping t = mapping s /\ mapfile t = mapfile s
              /\ exists dt, data t = Some dt
                   /\ (forall name, dashed name = false ->
                         dt !! name = d0 !! name)
                   /\ (forall name, dashed name = true ->
                         is_Some (dt !! name) ->
                         is_Some (d0 !! name)
                         \/ exists i, 0 <= i < len pieces
                              /\ name = txt_file (replica_key (str i) (L + 1))))
    (enumerate (txt_file <$> shard_ids (mapping s)))
    (fun '(i, file) => copyfile file (txt_file (replica_key (str i) (L + 1)))))
    with s2 as (s3 & Hcopy & Hp3 & HL3 & Hm3 & Hmf3 & d3 & Hd3 & Hprim3 & Horigin3).
  { intros [i name] t [Hi Hin]%elem_of_enumerate
           (Hpt & HLt & Hmt & Hmft & dt & Hdt & Hprimt & Horigint).
    unfold len in Hi. rewrite length_fmap in Hi.
    fold (len (shard_ids (mapping s))) in Hi. rewrite Hcount in Hi.
    apply list_elem_of_fmap in Hin as (key & -> & Hkey).
    pose proof Hkey as (j & Hj & ->)%layout_shard_ids.
    assert (Hdash : dashed (txt_file (str j)) = false)
      by (rewrite dashed_txt_file; apply dashed_str; lia).
    assert (Hsome : is_Some (dt !! txt_file (str j))).
    { rewrite Hprimt, Hprim by done. apply shard_files_is_Some. by exists j. }
    destruct Hsome as [c Hc].
    eexists. split.
    - apply (copyfile_run _ _ t dt c Hdt Hc).
      apply dashed_ne; [done|].
      by rewrite dashed_txt_file, dashed_replica_key.
    - simpl. do 4 (split; [done|]).
      eexists. split; [reflexivity|]. split.
      + intros name Hname. rewrite lookup_insert_ne; [by apply Hprimt|].
        intros <-. by rewrite dashed_txt_file, dashed_replica_key in Hname.
      + intros name Hname.
        destruct (decide (txt_file (replica_key (str i) (L + 1)) = name))
          as [<-|Hneq].
        * intros _. right. by exists i.
        * rewrite lookup_insert_ne by done. by apply Horigint. }
  { do 4 (split; [done|]). exists d0. split; [done|]. split; [done|].
    intros name _ Hsome. by left. }
  rewrite (bind_Ok _ _ _ _ _ Hcopy).
  rewrite (bind_Ok _ _ s3 s3 (shard_ids (mapping s)))
    by (unfold get_shard_ids, gets; by rewrite Hm3).
  (* the entries of the new level *)
  destruct (for_run_establishes
    (fun t => last_char_position t = pos /\ replication_level t = L + 1
              /\ data t = Some d3
              /\ (forall key, dashed key = false ->
                    mapping t !! key = mapping s !! key)
              /\ (forall key, is_Some (mapping s !! key) ->
                    is_Some (mapping t !! key))
              /\ (forall key, dashed key = true ->
                    is_Some (mapping t !! key) ->
                    is_Some (mapping s !! key)
                    \/ exists i, 0 <= i < len pieces
                         /\ key = replica_key (str i) (L + 1)))
    (fun (x : Z * string) t =>
       is_Some (mapping t !! replica_key (str x.1) (L + 1)))
    (enumerate (shard_ids (mapping s)))
    (fun '(i, key) =>
       v ← mapping_item key;
       mapping_set (replica_key (str i) (L + 1)) v))
    with s3
    as (s4 & Hset & (Hp4 & HL4 & Hd4 & Hprim4 & Hgrow4 & Horigin4) & Hnew).
  { intros [i key] t [Hi Hin]%elem_of_enumerate
           (Hpt & HLt & Hdt & Hprimt & Hgrowt & Horigint).
    rewrite Hcount in Hi.
    pose proof Hin as [Hdash [v Hv]]%elem_of_shard_ids.
    rewrite <- Hprimt in Hv by done.
    eexists. split; [|split].
    - rewrite (bind_Ok _ _ _ _ _ (mapping_item_Some _ _ _ Hv)). reflexivity.
    - simpl. do 3 (split; [done|]). split; [|split].
      + intros k Hk. rewrite lookup_insert_ne; [by apply Hprimt|].
        intros <-. by rewrite dashed_replica_key in Hk.
      + intros k Hk.
        destruct (decide (replica_key (str i) (L + 1) = k)) as [<-|Hneq];
          [rewrite lookup_insert_eq; eauto|].
        rewrite lookup_insert_ne by done. by apply Hgrowt.
      + intros k Hk.
        destruct (decide (replica_key (str i) (L + 1) = k)) as [<-|Hneq].
        * intros _. right. by exists i.
        * rewrite lookup_insert_ne by done. by apply Horigint.
    - simpl. rewrite lookup_insert_eq. eauto. }
  { intros [i key] [j key'] t t' _ _ _ HQ
           (v & ? & [_ ->]%mapping_item_inv & [= <-])%bind_Ok_inv.
    simpl in *.
    destruct (decide (replica_key (str i) (L + 1)
                      = replica_key (str j) (L + 1))) as [->|Hneq];
      [rewrite lookup_insert_eq; eauto|].
    by rewrite lookup_insert_ne. }
  { split; [done|]. split; [done|]. split; [done|].
    rewrite Hm3. split; [done|]. split; [done|]. intros key _ Hsome. by left. }
  rewrite (bind_Ok _ _ _ _ _ Hset).
  rewrite bind_unfold. unfold write_map, modify.
  (* the levels are reconciled *)
  assert (Hfirst : is_Some (mapping s4 !! replica_key (str 0) (L + 1))).
  { destruct (shard_ids (mapping s)) as [|key0 ids] eqn:Hids.
    - pose proof (len_pos pieces Hne) as Hpos. rewrite <- Hcount in Hpos.
      unfold len in Hpos. simpl in Hpos. lia.
    - apply (Hnew (0, key0)). apply enumerate_head. }
  apply (sync_lays_out listdir listdir_perm pos pieces (L + 1) _ d3);
    try done.
  - intros key Hkey. simpl. rewrite Hprim4 by done.
    by apply layout_primary_entry.
  - intros name Hname. by rewrite Hprim3, Hprim.
  - intros key Hkey Hsome. simpl in Hsome.
    destruct (Horigin4 key Hkey Hsome) as [Hold|(i & Hi & ->)].
    + destruct (layout_replica_origin pos pieces L key Hkey Hold)
        as (i & l & Hi & Hl & ->).
      exists i, l. split; [done|]. split; [lia|done].
    + exists i, (L + 1). split; [done|]. split; [lia|done].
  - intros name Hname Hsome.
    destruct (Horigin3 name Hname Hsome) as [Hold|(i & Hi & ->)].
    + destruct (Horigin name Hname Hold) as (i & l & Hi & Hl & ->).
      exists i, l. split; [done|]. split; [lia|done].
    + exists i, (L + 1). split; [done|]. split; [lia|done].
  - intros l Hl. simpl.
    destruct (decide (l = L + 1)) as [->|Hneq].
    + exists (replica_key (str 0) (L + 1)). split.
      * apply elem_of_replication_ids. split; [apply dashed_replica_key|done].
      * apply level_of_replica_key; [done|lia].
    + exists (replica_key (str 0) l). split.
      * apply elem_of_replication_ids. split; [apply dashed_replica_key|].
        apply Hgrow4. apply layout_level_recorded; [done|lia].
      * apply level_of_replica_key; [done|lia].
Qed.

(** [remove_replication] on a layout with a replication level removes
    the highest level. *)
Lemma remove_replication_layout (pos : Z) (pieces : list text) (L : Z) :
  pieces <> [] -> 1 <= L ->
  remove_replication listdir (layout pos pieces L)
  = (Ok tt, layout pos pieces (L - 1)).
Proof.
  intros Hne HL.
  destruct (layout_data pos pieces L)
    as (d0 & Hd0 & Hprim & Horigin & Hreplicas).
  set (s := layout pos pieces L) in *.
  set (s2 := set_replication_level (L - 1) s).
  (* every replica id names a level *)
  assert (Hlevels : forall key, key ∈ replication_ids (mapping s) ->
            exists i l, 0 <= i < len pieces /\ 1 <= l <= L
                        /\ key = replica_key (str i) l
                        /\ level_of key = Ok l).
  { intros key [Hdash Hsome]%elem_of_replication_ids.
    destruct (layout_replica_origin pos pieces L key Hdash Hsome)
      as (i & l & Hi & Hl & ->).
    exists i, l. do 3 (split; [done|]).
    apply level_of_replica_key; [apply dashed_str|]; lia. }
  destruct (backup_keys_run (L - 1) (replication_ids (mapping s)))
    as (backup_keys & Hbackup & Hin & Hnd).
  { intros key (i & l & _ & _ & _ & Hl)%Hlevels. eauto. }
  set (dropped := filter (fun kb : string * bool => kb.2 = true) backup_keys)
    in *.
  assert (Hdropped : forall key, key ∈ dropped.*1 ->
            exists i, 0 <= i < len pieces /\ key = replica_key (str i) L).
  { intros key [Hkey (n & Hn & Hlt)]%Hin.
    destruct (Hlevels key Hkey) as (i & l & Hi & Hl & -> & Hlev).
    rewrite Hlev in Hn. injection Hn as <-.
    assert (l = L) as -> by lia. by exists i. }
  destruct (drop_replicas_run dropped s2 d0 Hd0) as (m3 & d3 & Hdrop & Hm3 & Hd3).
  { apply Hnd. unfold replication_ids. rewrite sorted_Permutation.
    apply NoDup_filter, NoDup_elements. }
  { intros key Hkey. pose proof Hkey as [Hrid _]%Hin.
    apply elem_of_replication_ids in Hrid as [_ Hsome]. split; [done|].
    destruct (Hdropped key Hkey) as (i & Hi & ->).
    apply Hreplicas; [done|lia]. }
  unfold remove_replication.
  rewrite (bind_Ok _ _ s s tt) by (by apply sync_layout).
  rewrite (bind_Ok _ _ s s L) by reflexivity.
  rewrite (bind_Ok _ _ s s tt)
    by (destruct (Z.eqb_spec L 0) as [|_]; [lia|done]).
  rewrite (bind_Ok _ _ s s2 tt) by reflexivity.
  rewrite (bind_Ok _ _ s2 s2 (L - 1)) by reflexivity.
  rewrite (bind_Ok _ _ s2 s2 (replication_ids (mapping s))) by reflexivity.
  rewrite (bind_Ok _ _ s2 s2 backup_keys) by (unfold lift; by rewrite Hbackup).
  fold dropped. rewrite (bind_Ok _ _ _ _ _ Hdrop).
  rewrite bind_unfold. unfold write_map, modify.
  assert (Hkept : forall i l, 0 <= i < len pieces -> 1 <= l <= L - 1 ->
            replica_key (str i) l ∉ dropped.*1).
  { intros i l Hi Hl [_ (n & Hn & Hlt)]%Hin.
    rewrite level_of_replica_key in Hn by (try apply dashed_str; lia).
    injection Hn as <-. lia. }
  apply (sync_lays_out listdir listdir_perm pos pieces (L - 1) _ d3);
    try done.
  - intros key Hkey. simpl. rewrite Hm3, decide_False.
    + by apply layout_primary_entry.
    + intros (i & _ & ->)%Hdropped. by rewrite dashed_replica_key in Hkey.
  - intros name Hname. rewrite Hd3, decide_False; [by apply Hprim|].
    intros (key & -> & (i & _ & ->)%Hdropped)%list_elem_of_fmap.
    by rewrite dashed_txt_file, dashed_replica_key in Hname.
  - intros key Hkey Hsome. simpl in Hsome. rewrite Hm3 in Hsome.
    destruct (decide (key ∈ dropped.*1)) as [|Hno];
      [by apply is_Some_None in Hsome|].
    destruct (Hlevels key) as (i & l & Hi & Hl & -> & Hlev).
    { by apply elem_of_replication_ids. }
    exists i, l. split; [done|]. split; [|done].
    destruct (decide (l = L)) as [->|]; [|lia].
    exfalso. apply Hno, Hin. split.
    + by apply elem_of_replication_ids.
    + exists L. split; [done|lia].
  - intros name Hname Hsome. rewrite Hd3 in Hsome.
    destruct (decide (name ∈ txt_file <$> dropped.*1)) as [|Hno];
      [by apply is_Some_None in Hsome|].
    destruct (Horigin name Hname Hsome) as (i & l & Hi & Hl & ->).
    exists i, l. split; [done|]. split; [|done].
    destruct (decide (l = L)) as [->|]; [|lia].
    exfalso. apply Hno, list_elem_of_fmap. eexists. split; [reflexivity|].
    apply Hin. split.
    + apply elem_of_replication_ids. split; [apply dashed_replica_key|].
      destruct (layout_mirrored pos pieces L i L Hi Hl)
        as (entry & _ & _ & _ & Hr & _). unfold s. eauto.
    + exists L. split; [|lia].
      apply level_of_replica_key; [apply dashed_str|]; lia.
  - intros l Hl. exists (replica_key (str 0) l). split.
    + apply elem_of_replication_ids. split; [apply dashed_replica_key|].
      cbn [mapping set_mapfile set_data set_mapping].
      rewrite Hm3, decide_False.
      * apply layout_level_recorded; [done|lia].
      * apply Hkept; [|done]. pose proof (len_pos pieces Hne). lia.
    + apply level_of_replica_key; [done|lia].
Qed.

End Replication.

Lemma map_res_elem_2 {A B} (f : A -> res B) (l : list A) (ys : list B)
    (x : A) :
  map_res f l = Ok ys -> x ∈ l -> exists y, f x = Ok y /\ y ∈ ys.
Proof.
  revert ys. induction l as [|a l IH]; intros ys; simpl.
  - intros _ []%elem_of_nil.
  - intros (y0 & Hy0 & (ys0 & Hys0 & [= <-])%res_bind_Ok_inv)%res_bind_Ok_inv.
    intros [->|Hx]%elem_of_cons.
    + exists y0. split; [done|by left].
    + destruct (IH ys0 Hys0 Hx) as (y & Hy & Hin). exists y.
      split; [done|by right].
Qed.

(** The replication level read off the mapping of a layout. *)
Lemma layout_highest_level (pos : Z) (pieces : list text) (L : Z) :
  pieces <> [] -> 0 <= L ->
  find_highest_replication_level (mapping (layout pos pieces L)) = Ok L.
Proof.
  intros Hne HL. unfold find_highest_replication_level.
  set (m := mapping (layout pos pieces L)).
  assert (Hkeys : forall key, key ∈ filter (fun key => dashed key) (keys m) ->
            exists l, 1 <= l <= L /\ level_of key = Ok l).
  { intros key [Hdash%Is_true_true Hsome%elem_of_keys]%list_elem_of_filter.
    destruct (layout_replica_origin pos pieces L key Hdash Hsome)
      as (i & l & Hi & Hl & ->).
    exists l. split; [done|].
    apply level_of_replica_key; [apply dashed_str|]; lia. }
  destruct (map_res_total level_of (filter (fun key => dashed key) (keys m)))
    as (levels & Hlevels & Hlen).
  { intros key (l & _ & Hl)%Hkeys. eauto. }
  rewrite Hlevels. simpl.
  assert (Hrange : forall l, l ∈ levels -> 1 <= l <= L).
  { intros l Hl.
    destruct (map_res_elem _ _ _ _ Hlevels Hl) as (key & Hkey & Hlev).
    destruct (Hkeys key Hkey) as (l' & Hl' & Hlev'). congruence. }
  destruct levels as [|l0 levels].
  - destruct (decide (L = 0)) as [->|HL0]; [done|].
    exfalso.
    assert (Hin : replica_key (str 0) L
                  ∈ filter (fun key => dashed key) (keys m)).
    { apply list_elem_of_filter. split.
      - apply Is_true_true, dashed_replica_key.
      - apply elem_of_keys, layout_level_recorded; [done|lia]. }
    destruct (filter _ (keys m)); [by apply elem_of_nil in Hin|].
    discriminate.
  - destruct (max_spec (l0 :: levels) _ eq_refl) as [Hin Hle].
    pose proof (Hrange _ Hin) as Hm.
    assert (HL1 : 1 <= L) by (specialize (Hrange l0 ltac:(by left)); lia).
    destruct (map_res_elem_2 level_of _ _ (replica_key (str 0) L) Hlevels)
      as (l & Hl & HlL).
    { apply list_elem_of_filter. split.
      - apply Is_true_true, dashed_replica_key.
      - apply elem_of_keys, layout_level_recorded; [done|lia]. }
    rewrite level_of_replica_key in Hl by (done || lia).
    injection Hl as <-. specialize (Hle _ HlL).
    change (max (l0 :: levels)) with (Ok (fold_left Z.max levels l0)).
    f_equal. lia.
Qed.

Lemma build_fresh_layout (count : Z) (d : text) :
  1 <= count ->
  exists pieces,
    _generate_sharded_data count d = Ok pieces
    /\ build_shards count d fresh = (Ok None, layout (len d) pieces 0).
Proof.
  intros Hc.
  destruct (split_pieces count d Hc) as (pieces & Hsplit & Hne & Hlen & Hcat).
  exists pieces. split; [done|].
  rewrite (build_shards_run count d pieces fresh eq_refl Hsplit).
  by rewrite built_fresh_layout, Hcat.
Qed.

Section ReachableLayout.

Variable listdir : gmap string text -> list string.
Hypothesis listdir_perm : forall d, listdir d ≡ₚ elements (dom d).

Lemma remove_last_shard_layout (pos : Z) (piece : text) (L : Z) :
  remove_shard listdir (layout pos [piece] L)
  = (Err (Exception "Cannot remove last shard"), layout pos [piece] L).
Proof.
  destruct (load_layout pos [piece] L) as (T & Hload & _).
  destruct (largest_shard_id (mapping (layout pos [piece] L)) 1 ltac:(lia)
              (layout_shard_ids pos [piece] L))
    as (nums & Hnums & Hlen & Hmax).
  set (s := layout pos [piece] L) in *.
  unfold remove_shard.
  rewrite (bind_Ok _ _ s s tt) by (by apply sync_layout).
  rewrite (bind_Ok _ _ s s (mapping s)) by reflexivity.
  rewrite (bind_Ok _ _ s s tt) by (unfold modify; by rewrite set_mapping_id).
  rewrite (bind_Ok _ _ s s T) by done.
  rewrite (bind_Ok _ _ s s (shard_ids (mapping s))) by done.
  rewrite (bind_Ok _ _ s s nums) by (unfold lift; by rewrite Hnums).
  rewrite bind_unfold, bool_decide_true; [done|].
  unfold len in Hlen. lia.
Qed.

Lemma remove_no_replication_layout (pos : Z) (pieces : list text) :
  pieces <> [] ->
  remove_replication listdir (layout pos pieces 0)
  = (Err (Exception "No replication levels to remove."), layout pos pieces 0).
Proof.
  intros Hne. unfold remove_replication.
  rewrite (bind_Ok _ _ _ _ tt (sync_layout listdir listdir_perm _ _ _ Hne)).
  reflexivity.
Qed.

(** Every reachable handler is the layout of the slices of a text. *)
Lemma reachable_layout (s : ShardHandler) :
  reachable listdir s ->
  exists (count : Z) (T : text) (pieces : list text) (L : Z),
    1 <= count /\ 0 <= L
    /\ _generate_sharded_data count T = Ok pieces
    /\ s = layout (len T) pieces L.
Proof.
  induction 1 as [count d s Hcount Hbuild|s s' _ IH Hop|s s' _ IH Hop
                  |s s' _ IH Hop|s s' _ IH Hop|s s' _ IH Hop].
  - destruct (build_fresh_layout count d Hcount) as (pieces & Hsplit & Hrun).
    rewrite Hrun in Hbuild. injection Hbuild as <-.
    exists count, d, pieces, 0. by repeat split.
  - destruct IH as (count & T & pieces & L & Hc & HL & Hsplit & ->).
    destruct (split_pieces count T Hc) as (p & Hp & Hne & Hlen & Hcat).
    rewrite Hsplit in Hp. injection Hp as <-.
    rewrite (sync_layout listdir listdir_perm _ _ _ Hne) in Hop.
    injection Hop as <-. exists count, T, pieces, L. by repeat split.
  - destruct IH as (count & T & pieces & L & Hc & HL & Hsplit & ->).
    destruct (split_pieces count T Hc) as (p & Hp & Hne & Hlen & Hcat).
    rewrite Hsplit in Hp. injection Hp as <-.
    destruct (load_layout (len T) pieces L) as (T' & Hload & _).
    destruct (add_shard_layout listdir listdir_perm _ _ _ T' Hne Hload)
      as (pieces' & Hsplit' & Hrun).
    rewrite Hrun in Hop. injection Hop as <-.
    exists (len pieces + 1), T', pieces', L.
    split; [unfold len; lia|]. by repeat split.
  - destruct IH as (count & T & pieces & L & Hc & HL & Hsplit & ->).
    destruct (split_pieces count T Hc) as (p & Hp & Hne & Hlen & Hcat).
    rewrite Hsplit in Hp. injection Hp as <-.
    destruct (decide (len pieces = 1)) as [Hone|Hmore].
    + destruct pieces as [|piece [|? ?]]; try (unfold len in Hone; simpl in Hone; lia).
      rewrite remove_last_shard_layout in Hop. discriminate.
    + assert (Htwo : 2 <= len pieces) by (unfold len, text in *; lia).
      destruct (load_layout (len T) pieces L) as (T' & Hload & _).
      destruct (remove_shard_layout listdir listdir_perm _ _ _ T'
                  Htwo Hload) as (pieces' & Hsplit' & Hrun).
      rewrite Hrun in Hop. injection Hop as <-.
      exists (len pieces - 1), T', pieces', L.
      split; [lia|]. by repeat split.
  - destruct IH as (count & T & pieces & L & Hc & HL & Hsplit & ->).
    destruct (split_pieces count T Hc) as (p & Hp & Hne & Hlen & Hcat).
    rewrite Hsplit in Hp. injection Hp as <-.
    rewrite (add_replication_layout listdir listdir_perm _ _ _ Hne HL) in Hop.
    injection Hop as <-. exists count, T, pieces, (L + 1).
    split; [done|]. split; [lia|]. by split.
  - destruct IH as (count & T & pieces & L & Hc & HL & Hsplit & ->).
    destruct (split_pieces count T Hc) as (p & Hp & Hne & Hlen & Hcat).
    rewrite Hsplit in Hp. injection Hp as <-.
    destruct (decide (L = 0)) as [->|HL0].
    + rewrite (remove_no_replication_layout _ _ Hne) in Hop. discriminate.
    + assert (HL1 : 1 <= L) by lia.
      rewrite (remove_replication_layout listdir listdir_perm _ _ _ Hne HL1)
        in Hop.
      injection Hop as <-. exists count, T, pieces, (L - 1).
      split; [done|]. split; [lia|]. by split.
Qed.

End ReachableLayout.

(** *** The text a layout holds *)

Lemma read_all_inv (ids : list string) (contents : list text)
    (s s' : ShardHandler) :
  read_all ids s = (Ok contents, s') ->
  Forall2 (fun id content => file s (txt_file id) = Some content)
          ids contents.
Proof.
  revert contents s'. induction ids as [|id ids IH]; intros contents s'; simpl.
  - intros [= <- _]. constructor.
  - intros (c & s1 & Hc & H)%bind_Ok_inv.
    apply read_file_inv in Hc as (d & Hd & Hc & ->).
    apply bind_Ok_inv in H as (cs & s2 & Hcs & [= <- <-]).
    constructor; [|by eapply IH]. unfold file. by rewrite Hd.
Qed.

Lemma load_data_from_shards_inv (s s' : ShardHandler) (T : text) :
  load_data_from_shards s = (Ok T, s') ->
  exists contents,
    Forall2 (fun id content => file s (txt_file id) = Some content)
            (shard_ids (mapping s)) contents
    /\ T = concat contents.
Proof.
  unfold load_data_from_shards.
  intros (ids & s1 & [= <- <-] & H)%bind_Ok_inv.
  apply bind_Ok_inv in H as (contents & s2 & Hread & [= <- <-]).
  exists contents. split; [by eapply read_all_inv|done].
Qed.

Lemma load_data_from_shards_files (s : ShardHandler) (contents : list text) :
  Forall2 (fun id content => file s (txt_file id) = Some content)
          (shard_ids (mapping s)) contents ->
  load_data_from_shards s = (Ok (concat contents), s).
Proof.
  intros H. unfold load_data_from_shards.
  rewrite (bind_Ok _ _ s s (shard_ids (mapping s))) by done.
  by rewrite (bind_Ok _ _ s s contents) by (by apply read_all_files).
Qed.

Lemma files_ext (ids : list string) (contents : list text)
    (s s' : ShardHandler) :
  (forall id, id ∈ ids -> file s' (txt_file id) = file s (txt_file id)) ->
  Forall2 (fun id content => file s (txt_file id) = Some content)
          ids contents ->
  Forall2 (fun id content => file s' (txt_file id) = Some content)
          ids contents.
Proof.
  intros Hext H. induction H as [|id c ids cs Hc _ IH]; [constructor|].
  constructor.
  - rewrite Hext; [done|by left].
  - apply IH. intros k Hk. apply Hext. by right.
Qed.

(** The text read back from a layout depends on the pieces only. *)
Lemma load_layout_indep (pos pos' : Z) (pieces : list text) (L L' : Z)
    (T : text) :
  load_data_from_shards (layout pos pieces L) = (Ok T, layout pos pieces L) ->
  load_data_from_shards (layout pos' pieces L')
  = (Ok T, layout pos' pieces L').
Proof.
  intros (contents & Hfiles & ->)%load_data_from_shards_inv.
  apply load_data_from_shards_files.
  rewrite (shard_ids_ext (mapping (layout pos' pieces L'))
             (mapping (layout pos pieces L))).
  2:{ intros k Hk. by rewrite !layout_primary_entry. }
  revert Hfiles. apply files_ext.
  intros id [Hdash _]%elem_of_shard_ids.
  by rewrite !layout_primary_file by (by rewrite dashed_txt_file).
Qed.

(** ** The operations on reachable handlers *)

Lemma split_pieces_inv (count : Z) (d : text) (pieces : list text) :
  1 <= count -> _generate_sharded_data count d = Ok pieces ->
  pieces <> [] /\ len pieces = count /\ concat pieces = d.
Proof.
  intros Hc Hsplit.
  destruct (split_pieces count d Hc) as (p & Hp & Hne & Hlen & Hcat).
  rewrite Hsplit in Hp. by injection Hp as <-.
Qed.

Lemma level_of_dashed (key : string) (l : Z) :
  level_of key = Ok l -> dashed key = true.
Proof.
  intros Hl. destruct (dashed key) eqn:Hdash; [done|].
  unfold level_of in Hl. by rewrite split_no_sep in Hl.
Qed.

Lemma layout_restart (pos : Z) (pieces : list text) (L : Z) :
  pieces <> [] -> 0 <= L ->
  new_handler (mapfile (layout pos pieces L)) (data (layout pos pieces L))
  = Ok (layout 0 pieces L).
Proof.
  intros Hne HL. unfold new_handler.
  change (default ∅ (mapfile (layout pos pieces L)))
    with (mapping (layout pos pieces L)).
  by rewrite layout_highest_level.
Qed.

Section LayoutTheorems.

Variable listdir : gmap string text -> list string.
Hypothesis listdir_perm : forall d, listdir d ≡ₚ elements (dom d).

(** X6. Every handler reached from a fresh build with a positive count
    by operations that complete is the layout of the slices of a text:
    its shard ids are 0 to [count - 1], its mapping and its files hold
    the slices, one replica of every shard at every level from 1 to the
    replication level, and nothing else; the map file is the mapping. *)
Theorem reachable_handlers_are_layouts (s : ShardHandler) :
  reachable listdir s ->
  exists (count : Z) (T : text) (pieces : list text) (L : Z),
    1 <= count /\ 0 <= L
    /\ _generate_sharded_data count T = Ok pieces
    /\ s = layout (len T) pieces L.
Proof. by apply reachable_layout. Qed.



(** X9. [add_replication] on a layout completes and leaves the layout of
    the same pieces with one more level: every shard is mirrored at the
    new level, the primaries are as they were, and
    [load_data_from_shards] returns what it returned before. *)
Theorem add_replication_adds_level (pos : Z) (pieces : list text) (L : Z) :
  pieces <> [] -> 0 <= L ->
  add_replication listdir (layout pos pieces L)
  = (Ok tt, layout pos pieces (L + 1))
  /\ (forall i, 0 <= i < len pieces ->
        mirrored (layout pos pieces (L + 1)) (str i) (L + 1))
  /\ (forall key, dashed key = false ->
        mapping (layout pos pieces (L + 1)) !! key
        = mapping (layout pos pieces L) !! key
        /\ file (layout pos pieces (L + 1)) (txt_file key)
           = file (layout pos pieces L) (txt_file key))
  /\ forall T,
       load_data_from_shards (layout pos pieces L)
       = (Ok T, layout pos pieces L) ->
       load_data_from_shards (layout pos pieces (L + 1))
       = (Ok T, layout pos pieces (L + 1)).
Proof.
  intros Hne HL. split; [by apply add_replication_layout|].
  split; [intros i Hi; apply layout_mirrored; [done|lia]|].
  split; [|intros T; apply load_layout_indep].
  intros key Hkey. split; [by rewrite !layout_primary_entry|].
  by rewrite !layout_primary_file by (by rewrite dashed_txt_file).
Qed.

(** X10. [remove_replication] on a layout with at least one level
    completes and leaves the layout of the same pieces with the highest
    level removed: no entry and no file of that level is left, the
    primaries are as they were, and [load_data_from_shards] returns what
    it returned before. *)
Theorem remove_replication_removes_level (pos : Z) (pieces : list text)
    (L : Z) :
  pieces <> [] -> 1 <= L ->
  remove_replication listdir (layout pos pieces L)
  = (Ok tt, layout pos pieces (L - 1))
  /\ (forall key, level_of key = Ok L ->
        mapping (layout pos pieces (L - 1)) !! key = None
        /\ file (layout pos pieces (L - 1)) (txt_file key) = None)
  /\ (forall key, dashed key = false ->
        mapping (layout pos pieces (L - 1)) !! key
        = mapping (layout pos pieces L) !! key
        /\ file (layout pos pieces (L - 1)) (txt_file key)
           = file (layout pos pieces L) (txt_file key))
  /\ forall T,
       load_data_from_shards (layout pos pieces L)
       = (Ok T, layout pos pieces L) ->
       load_data_from_shards (layout pos pieces (L - 1))
       = (Ok T, layout pos pieces (L - 1)).
Proof.
  intros Hne HL. split; [by apply remove_replication_layout|].
  split; [|split; [|intros T; apply load_layout_indep]].
  - intros key Hlev. pose proof (level_of_dashed key L Hlev) as Hdash.
    split; apply eq_None_not_Some; intros Hsome.
    + apply layout_replica_origin in Hsome as (j & l & Hj & Hl & ->); [|done].
      rewrite level_of_replica_key in Hlev by (try apply dashed_str; lia).
      injection Hlev as <-. lia.
    + apply layout_replica_file_origin in Hsome
        as (j & l & Hj & Hl & ->%(inj txt_file));
        [|by rewrite dashed_txt_file].
      rewrite level_of_replica_key in Hlev by (try apply dashed_str; lia).
      injection Hlev as <-. lia.
  - intros key Hkey. split; [by rewrite !layout_primary_entry|].
    by rewrite !layout_primary_file by (by rewrite dashed_txt_file).
Qed.

End LayoutTheorems.

Section ReachableTheorems.

Variable listdir : gmap string text -> list string.
Hypothesis listdir_perm : forall d, listdir d ≡ₚ elements (dom d).

(** A reachable handler, as a layout with the facts about its pieces. *)
Lemma reachable_pieces (s : ShardHandler) :
  reachable listdir s ->
  exists (T : text) (pieces : list text) (L : Z),
    pieces <> [] /\ 0 <= L /\ concat pieces = T
    /\ _generate_sharded_data (len pieces) T = Ok pieces
    /\ len (shard_ids (mapping s)) = len pieces
    /\ replication_level s = L
    /\ s = layout (len T) pieces L.
Proof.
  intros (count & T & pieces & L & Hc & HL & Hsplit & ->)%reachable_layout;
    [|done].
  destruct (split_pieces_inv _ _ _ Hc Hsplit) as (Hne & Hlen & Hcat).
  exists T, pieces, L. do 3 (split; [done|]).
  split; [by rewrite Hlen|]. split; [apply layout_shard_count|done].
Qed.

(** X11. On a reachable handler, [add_replication] followed by
    [remove_replication] gives the handler back: mapping, map file,
    files, replication level and offset; and so does
    [remove_replication] followed by [add_replication] when there is a
    level to remove. *)
Theorem replication_round_trip (s : ShardHandler) :
  reachable listdir s ->
  (exists s1, add_replication listdir s = (Ok tt, s1)
              /\ remove_replication listdir s1 = (Ok tt, s))
  /\ (1 <= replication_level s ->
      exists s1, remove_replication listdir s = (Ok tt, s1)
                 /\ add_replication listdir s1 = (Ok tt, s)).
Proof.
  intros (T & pieces & L & Hne & HL & _ & _ & _ & HLs & ->)%reachable_pieces.
  split.
  - exists (layout (len T) pieces (L + 1)).
    split; [by apply add_replication_layout|].
    rewrite remove_replication_layout by (done || lia).
    by replace (L + 1 - 1) with L by lia.
  - intros HL1. rewrite HLs in HL1.
    exists (layout (len T) pieces (L - 1)).
    split; [by apply remove_replication_layout|].
    rewrite add_replication_layout by (done || lia).
    by replace (L - 1 + 1) with L by lia.
Qed.


(** X13. On a reachable handler the operations complete, except for the
    two rejections: [add_shard], [add_replication], [sync_replication]
    and [load_data_from_shards] always do, [remove_shard] does unless one
    shard is left, and [remove_replication] does unless the replication
    level is 0. *)
Theorem operations_complete (s : ShardHandler) :
  reachable listdir s ->
  (exists s', add_shard listdir s = (Ok tt, s'))
  /\ (exists s', add_replication listdir s = (Ok tt, s'))
  /\ (len (shard_ids (mapping s)) <> 1 ->
      exists s', remove_shard listdir s = (Ok tt, s'))
  /\ (replication_level s <> 0 ->
      exists s', remove_replication listdir s = (Ok tt, s'))
  /\ sync_replication listdir s = (Ok tt, s)
  /\ exists T, load_data_from_shards s = (Ok T, s).
Proof.
  intros (T & pieces & L & Hne & HL & _ & _ & Hcount & HLs & ->)
         %reachable_pieces.
  rewrite Hcount, HLs. pose proof (len_pos pieces Hne) as Hn.
  destruct (load_layout (len T) pieces L) as (T0 & Hload & _).
  split; [|split; [|split; [|split; [|split]]]].
  - destruct (add_shard_layout listdir listdir_perm _ _ _ T0 Hne Hload)
      as (pieces1 & _ & Hadd). eauto.
  - eexists. by apply add_replication_layout.
  - intros Hmore. assert (Htwo : 2 <= len pieces) by lia.
    destruct (remove_shard_layout listdir listdir_perm _ _ _ T0 Htwo Hload)
      as (pieces1 & _ & Hremove). eauto.
  - intros HL0. eexists. apply remove_replication_layout; [done|done|lia].
  - by apply sync_layout.
  - eauto.
Qed.

(** X14. On a reachable handler, any operation that leaves at most ten
    shards where there were at most ten keeps the text: what
    [load_data_from_shards] returns afterwards is what it returned
    before. *)
Theorem text_kept_upto_ten_shards (s s' : ShardHandler) :
  reachable listdir s ->
  len (shard_ids (mapping s)) <= 10 -> len (shard_ids (mapping s')) <= 10 ->
  sync_replication listdir s = (Ok tt, s')
  \/ add_shard listdir s = (Ok tt, s')
  \/ remove_shard listdir s = (Ok tt, s')
  \/ add_replication listdir s = (Ok tt, s')
  \/ remove_replication listdir s = (Ok tt, s') ->
  exists T, load_data_from_shards s = (Ok T, s)
            /\ load_data_from_shards s' = (Ok T, s').
Proof.
  intros (T & pieces & L & Hne & HL & Hcat & _ & Hcount & _ & ->)
         %reachable_pieces.
  rewrite Hcount. intros Hten Hten' Hop.
  pose proof (len_pos pieces Hne) as Hn.
  destruct (load_layout (len T) pieces L) as (T0 & Hload & HT0).
  rewrite HT0, Hcat in Hload by done. exists T. split; [done|].
  destruct Hop as [Hop|[Hop|[Hop|[Hop|Hop]]]].
  - rewrite sync_layout in Hop by done. by injection Hop as <-.
  - destruct (add_shard_layout listdir listdir_perm _ _ _ T Hne Hload)
      as (pieces1 & Hsplit1 & Hadd).
    rewrite Hadd in Hop. injection Hop as <-.
    rewrite layout_shard_count in Hten'.
    assert (Hc1 : 1 <= len pieces + 1) by lia.
    destruct (split_pieces_inv _ _ _ Hc1 Hsplit1) as (_ & _ & Hcat1).
    destruct (load_layout (len T) pieces1 L) as (T1 & Hload1 & HT1).
    by rewrite HT1, Hcat1 in Hload1.
  - destruct (decide (len pieces = 1)) as [Hone|Hmore].
    { destruct pieces as [|piece [|? ?]];
        try (unfold len in Hone; simpl in Hone; lia).
      rewrite remove_last_shard_layout in Hop by done. discriminate. }
    assert (Htwo : 2 <= len pieces) by lia.
    destruct (remove_shard_layout listdir listdir_perm _ _ _ T Htwo Hload)
      as (pieces1 & Hsplit1 & Hremove).
    rewrite Hremove in Hop. injection Hop as <-.
    rewrite layout_shard_count in Hten'.
    assert (Hc1 : 1 <= len pieces - 1) by lia.
    destruct (split_pieces_inv _ _ _ Hc1 Hsplit1) as (_ & _ & Hcat1).
    destruct (load_layout (len T) pieces1 L) as (T1 & Hload1 & HT1).
    by rewrite HT1, Hcat1 in Hload1.
  - rewrite add_replication_layout in Hop by done. injection Hop as <-.
    by apply (load_layout_indep (len T) (len T) pieces L).
  - destruct (decide (L = 0)) as [->|HL0].
    { rewrite remove_no_replication_layout in Hop by done. discriminate. }
    rewrite remove_replication_layout in Hop by (done || lia).
    injection Hop as <-.
    by apply (load_layout_indep (len T) (len T) pieces L).
Qed.

(** X15. A handler created anew over the files of a reachable handler
    recovers it: the mapping is read from the map file and the
    replication level from the replica ids; only the running offset
    starts at 0 again. The recovered handler is in sync. *)
Theorem restart_recovers_handler (s : ShardHandler) :
  reachable listdir s ->
  new_handler (mapfile s) (data s) = Ok (set_last_char_position 0 s)
  /\ sync_replication listdir (set_last_char_position 0 s)
     = (Ok tt, set_last_char_position 0 s).
Proof.
  intros (T & pieces & L & Hne & HL & _ & _ & _ & _ & ->)%reachable_pieces.
  split; [by apply layout_restart|].
  change (set_last_char_position 0 (layout (len T) pieces L))
    with (layout 0 pieces L).
  by apply sync_layout.
Qed.

(** X16. On a reachable handler, adding a shard and adding a replication
    level commute: both orders complete and leave the same handler. *)
Theorem add_shard_add_replication_commute (s : ShardHandler) :
  reachable listdir s ->
  exists s1 s2 s3,
    add_shard listdir s = (Ok tt, s1)
    /\ add_replication listdir s1 = (Ok tt, s3)
    /\ add_replication listdir s = (Ok tt, s2)
    /\ add_shard listdir s2 = (Ok tt, s3).
Proof.
  intros (T & pieces & L & Hne & HL & _ & _ & _ & _ & ->)%reachable_pieces.
  pose proof (len_pos pieces Hne) as Hn.
  destruct (load_layout (len T) pieces L) as (T0 & Hload & _).
  destruct (add_shard_layout listdir listdir_perm _ _ _ T0 Hne Hload)
    as (pieces1 & Hsplit1 & Hadd).
  assert (Hc1 : 1 <= len pieces + 1) by lia.
  destruct (split_pieces_inv _ _ _ Hc1 Hsplit1) as (Hne1 & _ & _).
  pose proof (load_layout_indep _ (len T) _ _ (L + 1) _ Hload) as Hload2.
  destruct (add_shard_layout listdir listdir_perm _ _ _ T0 Hne Hload2)
    as (pieces2 & Hsplit2 & Hadd2).
  rewrite Hsplit1 in Hsplit2. injection Hsplit2 as <-.
  exists (layout (len T0) pieces1 L), (layout (len T) pieces (L + 1)),
         (layout (len T0) pieces1 (L + 1)).
  split; [done|]. split; [by apply add_replication_layout|].
  split; [by apply add_replication_layout|done].
Qed.

End ReachableTheorems.

(** *** Instances after a build of three shards *)

Lemma reachable_handlers_are_layouts_witness :
  let s := after (build_shards 3 (txt "hello world")) fresh in
  exists (count : Z) (T : text) (pieces : list text) (L : Z),
    1 <= count /\ 0 <= L
    /\ _generate_sharded_data count T = Ok pieces
    /\ s = layout (len T) pieces L.
Proof.
  intros s.
  apply (reachable_handlers_are_layouts listdir_sorted listdir_sorted_perm s).
  apply (reachable_build _ 3 (txt "hello world")); [lia|].
  vm_compute. reflexivity.
Defined.



Lemma add_replication_adds_level_witness :
  let pieces := [txt "he"; txt "llo"] in
  add_replication listdir_sorted (layout 5 pieces 0)
  = (Ok tt, layout 5 pieces (0 + 1))
  /\ (forall i, 0 <= i < len pieces ->
        mirrored (layout 5 pieces (0 + 1)) (str i) (0 + 1))
  /\ (forall key, dashed key = false ->
        mapping (layout 5 pieces (0 + 1)) !! key
        = mapping (layout 5 pieces 0) !! key
        /\ file (layout 5 pieces (0 + 1)) (txt_file key)
           = file (layout 5 pieces 0) (txt_file key))
  /\ forall T,
       load_data_from_shards (layout 5 pieces 0) = (Ok T, layout 5 pieces 0) ->
       load_data_from_shards (layout 5 pieces (0 + 1))
       = (Ok T, layout 5 pieces (0 + 1)).
Proof.
  intros pieces.
  apply (add_replication_adds_level listdir_sorted listdir_sorted_perm
           5 pieces 0); [discriminate|lia].
Defined.

Lemma remove_replication_removes_level_witness :
  let pieces := [txt "he"; txt "llo"] in
  remove_replication listdir_sorted (layout 5 pieces 2)
  = (Ok tt, layout 5 pieces (2 - 1))
  /\ (forall key, level_of key = Ok 2 ->
        mapping (layout 5 pieces (2 - 1)) !! key = None
        /\ file (layout 5 pieces (2 - 1)) (txt_file key) = None)
  /\ (forall key, dashed key = false ->
        mapping (layout 5 pieces (2 - 1)) !! key
        = mapping (layout 5 pieces 2) !! key
        /\ file (layout 5 pieces (2 - 1)) (txt_file key)
           = file (layout 5 pieces 2) (txt_file key))
  /\ forall T,
       load_data_from_shards (layout 5 pieces 2) = (Ok T, layout 5 pieces 2) ->
       load_data_from_shards (layout 5 pieces (2 - 1))
       = (Ok T, layout 5 pieces (2 - 1)).
Proof.
  intros pieces.
  apply (remove_replication_removes_level listdir_sorted listdir_sorted_perm
           5 pieces 2); [discriminate|lia].
Defined.

Lemma replication_round_trip_witness :
  let s := after (build_shards 3 (txt "hello world")) fresh in
  (exists s1, add_replication listdir_sorted s = (Ok tt, s1)
              /\ remove_replication listdir_sorted s1 = (Ok tt, s))
  /\ (1 <= replication_level s ->
      exists s1, remove_replication listdir_sorted s = (Ok tt, s1)
                 /\ add_replication listdir_sorted s1 = (Ok tt, s)).
Proof.
  intros s.
  apply (replication_round_trip listdir_sorted listdir_sorted_perm s).
  apply (reachable_build _ 3 (txt "hello world")); [lia|].
  vm_compute. reflexivity.
Defined.


Lemma operations_complete_witness :
  let s := after (build_shards 3 (txt "hello world")) fresh in
  (exists s', add_shard listdir_sorted s = (Ok tt, s'))
  /\ (exists s', add_replication listdir_sorted s = (Ok tt, s'))
  /\ (len (shard_ids (mapping s)) <> 1 ->
      exists s', remove_shard listdir_sorted s = (Ok tt, s'))
  /\ (replication_level s <> 0 ->
      exists s', remove_replication listdir_sorted s = (Ok tt, s'))
  /\ sync_replication listdir_sorted s = (Ok tt, s)
  /\ exists T, load_data_from_shards s = (Ok T, s).
Proof.
  intros s.
  apply (operations_complete listdir_sorted listdir_sorted_perm s).
  apply (reachable_build _ 3 (txt "hello world")); [lia|].
  vm_compute. reflexivity.
Defined.

Lemma text_kept_upto_ten_shards_witness :
  let s := after (build_shards 3 (txt "hello world")) fresh in
  let s' := after (add_shard listdir_sorted) s in
  exists T, load_data_from_shards s = (Ok T, s)
            /\ load_data_from_shards s' = (Ok T, s').
Proof.
  intros s s'.
  apply (text_kept_upto_ten_shards listdir_sorted listdir_sorted_perm s s').
  - apply (reachable_build _ 3 (txt "hello world")); [lia|].
    vm_compute. reflexivity.
  - apply Z.leb_le. vm_compute. reflexivity.
  - apply Z.leb_le. vm_compute. reflexivity.
  - right. left. vm_compute. reflexivity.
Defined.

Lemma restart_recovers_handler_witness :
  let s := after (add_replication listdir_sorted)
             (after (build_shards 3 (txt "hello world")) fresh) in
  new_handler (mapfile s) (data s) = Ok (set_last_char_position 0 s)
  /\ sync_replication listdir_sorted (set_last_char_position 0 s)
     = (Ok tt, set_last_char_position 0 s).
Proof.
  intros s.
  apply (restart_recovers_handler listdir_sorted listdir_sorted_perm s).
  apply (reachable_add_replication _
           (after (build_shards 3 (txt "hello world")) fresh)).
  - apply (reachable_build _ 3 (txt "hello world")); [lia|].
    vm_compute. reflexivity.
  - vm_compute. reflexivity.
Defined.

Lemma add_shard_add_replication_commute_witness :
  let s := after (build_shards 3 (txt "hello world")) fresh in
  exists s1 s2 s3,
    add_shard listdir_sorted s = (Ok tt, s1)
    /\ add_replication listdir_sorted s1 = (Ok tt, s3)
    /\ add_replication listdir_sorted s = (Ok tt, s2)
    /\ add_shard listdir_sorted s2 = (Ok tt, s3).
Proof.
  intros s.
  apply (add_shard_add_replication_commute listdir_sorted listdir_sorted_perm
           s).
  apply (reachable_build _ 3 (txt "hello world")); [lia|].
  vm_compute. reflexivity.
Defined.

(** ** Further properties of the splitter and of [build_shards] *)

Lemma split_piece_len (count : Z) (d : text) (pieces : list text) :
  1 <= count -> _generate_sharded_data count d = Ok pieces ->
  forall (i : nat) (piece : text), pieces !! i = Some piece ->
    len piece = if decide (Z.of_nat i = count - 1)
                then len d / count + len d mod count
                else len d / count.
Proof.
  intros Hc Hsplit i piece Hi.
  rewrite _generate_sharded_data_positive in Hsplit by done.
  cbv zeta in Hsplit. injection Hsplit as <-.
  assert (Hw : 0 <= len d / count) by (apply Z.div_pos; unfold len; lia).
  assert (Hdm : len d = count * (len d / count) + len d mod count)
    by (apply Z.div_mod; lia).
  assert (Hm : 0 <= len d mod count < count) by (apply Z.mod_pos_bound; lia).
  generalize dependent (len d mod count). intros r Hdm Hr.
  generalize dependent (len d / count). intros w Hi Hw Hdm.
  apply lookup_app_Some in Hi as [Hi|[Hlen Hi]].
  - rewrite list_lookup_fmap in Hi.
    destruct (seqZ 0 (count - 1) !! i) as [z|] eqn:Hz; [|done].
    apply lookup_seqZ in Hz as [-> Hz]. injection Hi as <-.
    rewrite decide_False by lia.
    assert (Hle : w * (0 + Z.of_nat i + 1) <= len d) by nia.
    rewrite slice_take_drop by nia.
    unfold len in *. rewrite length_take, length_drop. nia.
  - rewrite length_map, length_seqZ in Hlen, Hi.
    destruct (i - Z.to_nat (count - 1))%nat as [|k] eqn:Hk; [|by destruct k].
    injection Hi as <-.
    assert (Z.of_nat i = count - 1) by lia.
    rewrite decide_True by done.
    unfold len in *. rewrite length_drop. nia.
Qed.

Lemma split_pieces_nonempty (count : Z) (d : text) (pieces : list text) :
  1 <= count <= len d -> _generate_sharded_data count d = Ok pieces ->
  Forall (fun piece => piece <> []) pieces.
Proof.
  intros Hc Hsplit. apply Forall_lookup_2. intros i piece Hi.
  pose proof (split_piece_len count d pieces ltac:(lia) Hsplit i piece Hi)
    as Hlen.
  assert (Hw : 1 <= len d / count)
    by (apply Z.div_le_lower_bound; lia).
  assert (Hm : 0 <= len d mod count < count) by (apply Z.mod_pos_bound; lia).
  intros ->. unfold len in Hlen at 1. simpl in Hlen.
  destruct (decide _); lia.
Qed.

(** X1. For a count of at least one, every slice but the last has
    [len(data) // count] characters, and the last one takes the
    remainder as well: [len(data) // count + len(data) % count]. *)
Theorem split_piece_lengths (count : Z) (d : text) (pieces : list text) :
  1 <= count -> _generate_sharded_data count d = Ok pieces ->
  forall (i : nat) (piece : text), pieces !! i = Some piece ->
    len piece = if decide (Z.of_nat i = count - 1)
                then len d / count + len d mod count
                else len d / count.
Proof. apply split_piece_len. Qed.

Lemma split_piece_lengths_witness :
  len (txt "lo ") = len (txt "hello world") / 3
  /\ len (txt "world")
     = len (txt "hello world") / 3 + len (txt "hello world") mod 3.
Proof.
  split.
  - apply (split_piece_lengths 3 (txt "hello world")
             [txt "hel"; txt "lo "; txt "world"] ltac:(lia) eq_refl
             1%nat (txt "lo ") eq_refl).
  - apply (split_piece_lengths 3 (txt "hello world")
             [txt "hel"; txt "lo "; txt "world"] ltac:(lia) eq_refl
             2%nat (txt "world") eq_refl).
Defined.

(** X2. With a count of zero [build_shards] on an empty mapping fails on
    the division and leaves the handler untouched; with a negative count
    it completes without writing any shard: no data directory is made,
    the map file is written with the empty mapping, and the mapping
    stays empty. *)
Theorem build_shards_non_positive_count (count : Z) (d : text)
    (s : ShardHandler) :
  count <= 0 -> mapping s = ∅ ->
  build_shards count d s
  = if count =? 0 then (Err ZeroDivisionError, s)
    else (Ok None, set_mapfile (Some ∅) s).
Proof.
  intros Hc Hempty. unfold build_shards.
  rewrite (bind_Ok _ _ s s (mapping s)) by done.
  destruct (decide (mapping s = ∅)); [|done].
  rewrite bind_unfold. unfold lift, _generate_sharded_data, range.
  destruct (Z.eqb_spec count 0) as [|Hne]; [reflexivity|].
  rewrite seqZ_nil by lia. simpl.
  pose proof (Z.mod_neg_bound (len d) count) as Hm.
  destruct (Z.ltb_spec 0 (len d mod count)); [lia|].
  rewrite <- Hempty. reflexivity.
Qed.

Lemma build_shards_non_positive_count_witness :
  build_shards 0 (txt "hello") fresh = (Err ZeroDivisionError, fresh)
  /\ build_shards (-3) (txt "hello") fresh
     = (Ok None, set_mapfile (Some ∅) fresh).
Proof.
  split.
  - apply (build_shards_non_positive_count 0 (txt "hello") fresh);
      [lia|reflexivity].
  - apply (build_shards_non_positive_count (-3) (txt "hello") fresh);
      [lia|reflexivity].
Defined.



Section Primaries.

Variable listdir : gmap string text -> list string.
Hypothesis listdir_perm : forall d, listdir d ≡ₚ elements (dom d).

(** X3. [build_shards] on a reachable handler is refused: it returns the
    message that sharding already exists and changes nothing. *)
Theorem build_shards_refused_once_built (count : Z) (d : text)
    (s : ShardHandler) :
  reachable listdir s ->
  build_shards count d s = (Ok (Some already_sharded), s).
Proof.
  intros (T & pieces & L & Hne & HL & _ & _ & _ & _ & ->)%reachable_pieces;
    [|done].
  unfold build_shards.
  rewrite (bind_Ok _ _ _ _ (mapping (layout (len T) pieces L))) by done.
  destruct (decide (mapping (layout (len T) pieces L) = ∅)) as [Hempty|];
    [|done].
  exfalso.
  assert (Hzero : is_Some (mapping (layout (len T) pieces L) !! str 0)).
  { rewrite layout_primary_entry by done. apply shard_entries_is_Some.
    exists 0. split; [|done]. pose proof (len_pos pieces Hne). lia. }
  rewrite Hempty, lookup_empty in Hzero. by apply is_Some_None in Hzero.
Qed.

(** X17. A completed [sync_replication] leaves the running offset, the
    replication level and the mapping entry of every primary as they
    were, and the map file holds the mapping it leaves. When the primary
    files were okay, it leaves every primary file as it was too. *)
Theorem sync_replication_keeps_primaries (s s' : ShardHandler) :
  sync_replication listdir s = (Ok tt, s') ->
  last_char_position s' = last_char_position s
  /\ replication_level s' = replication_level s
  /\ (forall key, dashed key = false -> mapping s' !! key = mapping s !! key)
  /\ mapfile s' = Some (mapping s')
  /\ (primary_files_okay listdir s = (Ok true, s) ->
      forall name, dashed name = false -> file s' name = file s name).
Proof.
  intros Hsync.
  pose proof Hsync as (sm & Hfiles & _ & Hupd)%sync_replication_inv.
  destruct (update_replicated_levels_untouched _ _ _ Hupd)
    as [(Hp & HL & Hm & _) Hmf].
  split; [by rewrite Hp, Hfiles|]. split; [by rewrite HL, Hfiles|].
  split; [intros key Hkey; by rewrite Hm, Hfiles|]. split; [done|].
  intros Hok name Hname. unfold sync_replication in Hsync.
  rewrite (bind_Ok _ _ s s true) in Hsync by done.
  rewrite (bind_Ok _ _ s s tt) in Hsync by done.
  destruct (update_replicated_levels_untouched _ _ _ Hsync)
    as [(_ & _ & _ & Hd) _].
  unfold file. destruct (data s), (data s'); try done. simpl. by apply Hd.
Qed.

End Primaries.

Lemma build_shards_refused_once_built_witness :
  let s := after (build_shards 3 (txt "hello world")) fresh in
  build_shards 2 (txt "other text") s = (Ok (Some already_sharded), s).
Proof.
  intros s.
  apply (build_shards_refused_once_built listdir_sorted listdir_sorted_perm).
  apply (reachable_build _ 3 (txt "hello world")); [lia|].
  vm_compute. reflexivity.
Defined.

Lemma sync_replication_keeps_primaries_witness :
  let s := after (add_replication listdir_sorted)
             (after (build_shards 2 (txt "hello world")) fresh) in
  let damaged := set_data (delete "1-1.txt" <$> data s) s in
  let s' := after (sync_replication listdir_sorted) damaged in
  last_char_position s' = last_char_position damaged
  /\ replication_level s' = replication_level damaged
  /\ (forall key, dashed key = false ->
        mapping s' !! key = mapping damaged !! key)
  /\ mapfile s' = Some (mapping s')
  /\ (primary_files_okay listdir_sorted damaged = (Ok true, damaged) ->
      forall name, dashed name = false -> file s' name = file damaged name).
Proof.
  intros s damaged s'.
  apply (sync_replication_keeps_primaries listdir_sorted damaged s').
  vm_compute. reflexivity.
Defined.

(** ** The lookup engine on a word inside a shard *)

Lemma index_lookup {A} (l : list A) (k : nat) (a : A) :
  l !! k = Some a -> index l (Z.of_nat k) = Ok a.
Proof.
  intros Hk. unfold index. pose proof (lookup_lt_Some _ _ _ Hk) as Hlt.
  destruct (Z.ltb_spec (Z.of_nat k) 0); [lia|].
  destruct (Z.ltb_spec (Z.of_nat k) 0); [lia|].
  destruct (Z.leb_spec (len l) (Z.of_nat k)); [unfold len in *; lia|].
  simpl. by rewrite Nat2Z.id, Hk.
Qed.

Lemma not_blank (c : ascii) (w : text) :
  " "%char ∉ w -> c ∈ w -> is_blank c = false.
Proof.
  intros Hw Hc. unfold is_blank. destruct (Ascii.eqb_spec c " "); [|done].
  by subst.
Qed.

Lemma scan_forwards_word (w rest acc : text) :
  " "%char ∉ w -> scan_forwards (w ++ " "%char :: rest) acc = Ok (acc ++ w).
Proof.
  revert acc. induction w as [|c w IH]; intros acc Hw; simpl.
  - by rewrite app_nil_r.
  - rewrite (not_blank c (c :: w)) by (done || by left).
    rewrite IH by (intros ?; apply Hw; by right).
    by rewrite <- app_assoc.
Qed.

Lemma scan_forwards_no_blank (w acc : text) :
  " "%char ∉ w -> scan_forwards w acc = Err IndexError.
Proof.
  revert acc. induction w as [|c w IH]; intros acc Hw; simpl; [done|].
  rewrite (not_blank c (c :: w)) by (done || by left).
  apply IH. intros ?. apply Hw. by right.
Qed.

Lemma scan_backwards_word (w more acc : text) :
  " "%char ∉ w ->
  scan_backwards (rev w ++ " "%char :: more) acc = Ok (w ++ acc).
Proof.
  revert acc. induction w as [|c w IH] using rev_ind; intros acc Hw.
  - reflexivity.
  - rewrite rev_app_distr. simpl.
    rewrite (not_blank c (w ++ [c]))
      by (done || (apply elem_of_app; right; by left)).
    rewrite IH by (intros ?; apply Hw, elem_of_app; by left).
    by rewrite <- app_assoc.
Qed.

Lemma scan_backwards_no_blank (w acc : text) :
  " "%char ∉ w -> scan_backwards w acc = Err IndexError.
Proof.
  revert acc. induction w as [|c w IH]; intros acc Hw; simpl; [done|].
  rewrite (not_blank c (c :: w)) by (done || by left).
  apply IH. intros ?. apply Hw. by right.
Qed.



Lemma expand_left_word (pre w rest string : text) (k : nat) :
  " "%char ∉ w -> (k < length w)%nat ->
  expand_left (pre ++ " "%char :: w ++ rest) (length pre + 1 + k) string
  = Ok (length pre, " "%char :: take k w ++ string).
Proof.
  intros Hw. revert string.
  assert (Hblank : (pre ++ " "%char :: w ++ rest) !! length pre
                   = Some " "%char)
    by (by rewrite list_lookup_middle).
  assert (Hword : forall i c, w !! i = Some c ->
            (pre ++ " "%char :: w ++ rest) !! (length pre + 1 + i)%nat = Some c
            /\ is_blank c = false).
  { intros i c Hi. split.
    - rewrite lookup_app_r by lia.
      replace (length pre + 1 + i - length pre)%nat with (S i) by lia.
      simpl. by rewrite lookup_app_l by (by eapply lookup_lt_Some).
    - apply (not_blank c w Hw). by eapply list_elem_of_lookup_2. }
  induction k as [|k IH]; intros string Hk.
  - destruct (lookup_lt_is_Some_2 w 0 Hk) as [c Hc].
    destruct (Hword 0%nat c Hc) as [Hc' Hnb].
    replace (length pre + 1 + 0)%nat with (S (length pre)) in * by lia.
    cbn [expand_left].
    rewrite (index_lookup _ _ _ Hc'). cbn [mbind res_bind]. rewrite Hnb.
    rewrite (index_lookup _ _ _ Hblank). cbn [mbind res_bind].
    destruct (length pre) as [|b] eqn:Hb; [reflexivity|].
    cbn [expand_left].
    rewrite (index_lookup _ _ _ Hblank). reflexivity.
  - destruct (lookup_lt_is_Some_2 w (S k) Hk) as [c Hc].
    destruct (lookup_lt_is_Some_2 w k ltac:(lia)) as [c0 Hc0].
    destruct (Hword (S k) c Hc) as [Hc' Hnb].
    destruct (Hword k c0 Hc0) as [Hc0' _].
    replace (length pre + 1 + S k)%nat with (S (length pre + 1 + k)) in * by lia.
    cbn [expand_left].
    rewrite (index_lookup _ _ _ Hc'). cbn [mbind res_bind]. rewrite Hnb.
    rewrite (index_lookup _ _ _ Hc0'). cbn [mbind res_bind].
    rewrite IH by lia. rewrite (take_S_r w k c0 Hc0).
    by rewrite <- app_assoc.
Qed.

Lemma elem_of_drop_1 {A} (x : A) (n : nat) (l : list A) :
  x ∈ drop n l -> x ∈ l.
Proof.
  intros [i Hi]%list_elem_of_lookup. rewrite lookup_drop in Hi.
  by eapply list_elem_of_lookup_2.
Qed.

Lemma expand_right_word (cur : ascii) (u post string : text) (idx : Z) :
  is_blank cur = false -> " "%char ∉ u -> post <> [] ->
  expand_right cur (u ++ " "%char :: post) idx string
  = (idx + len u + 1, string ++ u ++ [" "%char]).
Proof.
  revert cur idx string. induction u as [|a u IH]; intros cur idx string
    Hcur Hu Hpost.
  - simpl. rewrite Hcur. destruct post as [|b post]; [done|]. simpl.
    f_equal. unfold len. simpl. lia.
  - simpl. rewrite Hcur.
    rewrite IH; [| |intros ?; apply Hu; by right|done].
    + f_equal; [unfold len; simpl; lia|]. by rewrite <- app_assoc.
    + apply (not_blank a (a :: u)); [done|by left].
Qed.

Lemma lstrip_punctuation_app (w x : text) (c : ascii) :
  c ∈ w -> is_punctuation c = false ->
  lstrip_punctuation (w ++ x) = lstrip_punctuation w ++ x.
Proof.
  intros Hc Hnp. induction w as [|a w IH]; [by apply elem_of_nil in Hc|].
  simpl. destruct (is_punctuation a) eqn:Ha; [|done].
  apply IH. apply elem_of_cons in Hc as [->|Hc]; [congruence|done].
Qed.

Lemma lstrip_punctuation_elem (w : text) (c : ascii) :
  c ∈ w -> is_punctuation c = false -> c ∈ lstrip_punctuation w.
Proof.
  intros Hc Hnp. induction w as [|a w IH]; [done|].
  simpl. destruct (is_punctuation a) eqn:Ha; [|done].
  apply IH. apply elem_of_cons in Hc as [->|Hc]; [congruence|done].
Qed.

Lemma strip_punctuation_padded (w : text) (c : ascii) :
  c ∈ w -> is_punctuation c = false ->
  strip_punctuation (" "%char :: w ++ [" "%char]) = strip_punctuation w.
Proof.
  intros Hc Hnp. unfold strip_punctuation.
  change (lstrip_punctuation (" "%char :: w ++ [" "%char]))
    with (lstrip_punctuation (w ++ [" "%char])).
  rewrite (lstrip_punctuation_app w _ c Hc Hnp).
  rewrite rev_app_distr. reflexivity.
Qed.

(** The lookup inside the shard [key], at the local offset of a
    character of a word that has a blank before it and a blank after it
    in the shard. *)
Lemma word_in_shard_inside (key : string) (largest_key : Z)
    (s : ShardHandler) (d : gmap string text) (pre w post : text)
    (j : nat) (c : ascii) :
  data s = Some d ->
  d !! txt_file key = Some (pre ++ " "%char :: w ++ " "%char :: post) ->
  pre <> [] -> post <> [] -> " "%char ∉ w ->
  w !! j = Some c -> is_punctuation c = false ->
  word_in_shard key largest_key (len pre + 1 + Z.of_nat j) s
  = (Ok (txt_file key,
         remove_char "." (remove_char "010" (strip_punctuation w))), s).
Proof.
  intros Hd Hfile Hpre Hpost Hw Hj Hc.
  set (content := pre ++ " "%char :: w ++ " "%char :: post) in *.
  pose proof (lookup_lt_Some _ _ _ Hj) as Hlt.
  assert (Hat : content !! (length pre + 1 + j)%nat = Some c).
  { unfold content. rewrite lookup_app_r by lia.
    replace (length pre + 1 + j - length pre)%nat with (S j) by lia.
    simpl. by rewrite lookup_app_l. }
  assert (Hidx : len pre + 1 + Z.of_nat j
                 = Z.of_nat (length pre + 1 + j)) by (unfold len; lia).
  assert (Hnb : is_blank c = false)
    by (apply (not_blank c w Hw); by eapply list_elem_of_lookup_2).
  unfold word_in_shard.
  rewrite (bind_Ok _ _ s s content) by (by apply (read_file_Some _ _ d)).
  rewrite Hidx, Nat2Z.id.
  rewrite (bind_Ok _ _ s s c) by (unfold lift; by rewrite (index_lookup _ _ c)).
  rewrite (bind_Ok _ _ s s (Z.of_nat (length pre + 1 + j))).
  2:{ unfold lift. rewrite (drop_S _ _ _ Hat). simpl. by rewrite Hc. }
  rewrite Nat2Z.id.
  rewrite (bind_Ok _ _ s s c) by (unfold lift; by rewrite (index_lookup _ _ c)).
  rewrite (bind_Ok _ _ s s (length pre, " "%char :: take j w ++ [c])).
  2:{ unfold lift, content. by rewrite expand_left_word. }
  cbv beta iota.
  rewrite (bool_decide_false (length pre = 0%nat))
    by (destruct pre; [done|simpl; lia]).
  rewrite (bind_Ok _ _ s s (" "%char :: take j w ++ [c])) by done.
  assert (Hdrop : drop (S (length pre + 1 + j)) content
                  = drop (S j) w ++ " "%char :: post).
  { unfold content. rewrite drop_app_ge by lia.
    replace (S (length pre + 1 + j) - length pre)%nat with (S (S j)) by lia.
    simpl. by rewrite drop_app_le by lia. }
  rewrite Hdrop.
  rewrite expand_right_word; [|done| |done].
  2:{ intros Hin. apply Hw. by eapply elem_of_drop_1. }
  rewrite bool_decide_false.
  2:{ unfold content, len. rewrite !length_app, length_drop. simpl.
      rewrite !length_app. simpl. destruct post; [done|]. simpl. lia. }
  cbn [andb].
  rewrite (bind_Ok _ _ s s
             ((" "%char :: take j w ++ [c]) ++ drop (S j) w ++ [" "%char]))
    by reflexivity.
  unfold mret, M_ret.
  replace ((" "%char :: take j w ++ [c]) ++ drop (S j) w ++ [" "%char])
    with (" "%char :: w ++ [" "%char]).
  2:{ simpl. f_equal. rewrite <- !app_assoc. simpl.
      rewrite <- (take_drop_middle w j c Hj) at 1.
      by rewrite <- app_assoc. }
  rewrite (strip_punctuation_padded w c); [done| |done].
  by eapply list_elem_of_lookup_2.
Qed.

Lemma find_word_selects (index largest_key : Z) (ids : list string)
    (s : ShardHandler) (key : string) (entry : meta) :
  key ∈ ids -> mapping s !! key = Some entry ->
  start entry <= index <= end_ entry ->
  (forall other, other ∈ ids -> other <> key ->
     exists e, mapping s !! other = Some e
               /\ ~ (start e <= index <= end_ e)) ->
  find_word index largest_key ids s
  = (w ← word_in_shard key largest_key (index - start entry); mret (Some w)) s.
Proof.
  intros Hkey Hentry Hin Hothers.
  induction ids as [|id ids IH]; [by apply elem_of_nil in Hkey|].
  simpl. destruct (decide (id = key)) as [->|Hne].
  - rewrite (bind_Ok _ _ s s entry) by (by apply mapping_item_Some).
    destruct (Z.leb_spec (start entry) index); [|lia].
    destruct (Z.leb_spec index (end_ entry)); [|lia]. reflexivity.
  - destruct (Hothers id) as (e & He & Hout); [by left|done|].
    rewrite (bind_Ok _ _ s s e) by (by apply mapping_item_Some).
    destruct (Z.leb_spec (start e) index), (Z.leb_spec index (end_ e));
      simpl; try lia; apply IH.
    all: try (apply elem_of_cons in Hkey as [->|?]; done).
    all: intros other Hother; apply Hothers; by right.
Qed.



(** ** Methods that only read *)

Lemma read_only_ret {A} (a : A) : read_only (mret a).
Proof. by intros s r s' [= _ <-]. Qed.

Lemma read_only_raise {A} (e : exn) : read_only (raise e : M A).
Proof. by intros s r s' [= _ <-]. Qed.

Lemma read_only_lift {A} (x : res A) : read_only (lift x).
Proof. by intros s r s' [= _ <-]. Qed.

Lemma read_only_gets {A} (f : ShardHandler -> A) : read_only (gets f).
Proof. by intros s r s' [= _ <-]. Qed.

Lemma read_only_bind {A B} (c : M A) (f : A -> M B) :
  read_only c -> (forall a, read_only (f a)) -> read_only (c ≫= f).
Proof.
  intros Hc Hf s r s'. rewrite bind_unfold.
  destruct (c s) as [[a|e] s1] eqn:Hcs; pose proof (Hc _ _ _ Hcs) as ->.
  - apply Hf.
  - by intros [= _ <-].
Qed.

Lemma read_only_read_file (name : string) : read_only (read_file name).
Proof.
  intros s r s'. unfold read_file. destruct (data s) as [d|];
    [destruct (d !! name)|]; by intros [= _ <-].
Qed.

Lemma read_only_mapping_item (key : string) : read_only (mapping_item key).
Proof.
  intros s r s'. unfold mapping_item.
  destruct (mapping s !! key); by intros [= _ <-].
Qed.

Lemma read_only_listdir_data (listdir : gmap string text -> list string) :
  read_only (listdir_data listdir).
Proof.
  intros s r s'. unfold listdir_data. destruct (data s); by intros [= _ <-].
Qed.

Lemma read_only_from_previous_file (name : string) :
  read_only (from_previous_file name).
Proof.
  apply read_only_bind; [apply read_only_read_file|].
  intros content. apply read_only_lift.
Qed.

Lemma read_only_from_following_file (name : string) :
  read_only (from_following_file name).
Proof.
  apply read_only_bind; [apply read_only_read_file|].
  intros content. apply read_only_lift.
Qed.

Lemma read_only_word_in_shard (key : string) (largest_key new_index : Z) :
  read_only (word_in_shard key largest_key new_index).
Proof.
  unfold word_in_shard.
  apply read_only_bind; [apply read_only_read_file|]. intros content.
  apply read_only_bind; [apply read_only_lift|]. intros _.
  apply read_only_bind; [apply read_only_lift|]. intros idx.
  apply read_only_bind; [apply read_only_lift|]. intros c.
  apply read_only_bind; [apply read_only_lift|]. intros [before string].
  apply read_only_bind.
  { destruct (bool_decide _); [|apply read_only_ret].
    apply read_only_bind; [apply read_only_lift|]. intros n.
    apply read_only_bind; [apply read_only_from_previous_file|]. intros b.
    apply read_only_ret. }
  intros string'. destruct (expand_right _ _ _ _) as [after_index string''].
  apply read_only_bind.
  { destruct (_ && _); [|apply read_only_ret].
    apply read_only_bind; [apply read_only_lift|]. intros n.
    apply read_only_bind; [apply read_only_from_following_file|]. intros a.
    apply read_only_ret. }
  intros string3. apply read_only_ret.
Qed.

Lemma read_only_find_word (index largest_key : Z) (ids : list string) :
  read_only (find_word index largest_key ids).
Proof.
  induction ids as [|key ids IH]; simpl; [apply read_only_ret|].
  apply read_only_bind; [apply read_only_mapping_item|]. intros entry.
  destruct (_ && _); [|exact IH].
  apply read_only_bind; [apply read_only_word_in_shard|]. intros w.
  apply read_only_ret.
Qed.

Lemma read_only_read_all (ids : list string) : read_only (read_all ids).
Proof.
  induction ids as [|db ids IH]; simpl; [apply read_only_ret|].
  apply read_only_bind; [apply read_only_read_file|]. intros content.
  apply read_only_bind; [exact IH|]. intros rest. apply read_only_ret.
Qed.

(** X20. The methods that answer questions leave the handler as it is,
    the mapping, the map file and the files, whether they return or
    raise: [get_word_at_index], [load_data_from_shards],
    [get_shard_data], [primary_files_okay], [create_replication_dict] and
    [rep_level_has_same_keys]. *)
Theorem queries_are_read_only :
  (forall index, read_only (get_word_at_index index))
  /\ read_only load_data_from_shards
  /\ (forall shardnum, read_only (get_shard_data shardnum))
  /\ (forall listdir, read_only (primary_files_okay listdir))
  /\ read_only create_replication_dict
  /\ (forall listdir rep_keys primary_keys level,
        read_only (rep_level_has_same_keys listdir rep_keys primary_keys
                     level)).
Proof.
  split; [|split; [|split; [|split; [|split]]]].
  - intros index. unfold get_word_at_index.
    apply read_only_bind; [apply read_only_gets|]. intros ids.
    apply read_only_bind; [apply read_only_lift|]. intros nums.
    apply read_only_bind; [apply read_only_lift|]. intros largest.
    apply read_only_find_word.
  - unfold load_data_from_shards.
    apply read_only_bind; [apply read_only_gets|]. intros ids.
    apply read_only_bind; [apply read_only_read_all|]. intros result.
    apply read_only_ret.
  - intros [[|c k]|]; simpl.
    + apply read_only_bind; [apply read_only_gets|]. intros all.
      apply read_only_ret.
    + apply read_only_bind; [apply read_only_gets|]. intros [e|].
      * apply read_only_ret.
      * apply read_only_bind; [apply read_only_gets|]. intros ids.
        apply read_only_ret.
    + apply read_only_bind; [apply read_only_gets|]. intros all.
      apply read_only_ret.
  - intros listdir. unfold primary_files_okay.
    apply read_only_bind; [apply read_only_listdir_data|]. intros files.
    apply read_only_bind; [apply read_only_gets|]. intros ids.
    destruct (stems_differ _ _); apply read_only_ret.
  - unfold create_replication_dict.
    apply read_only_bind; [apply read_only_gets|]. intros ids.
    apply read_only_lift.
  - intros listdir rep_keys primary_keys level.
    unfold rep_level_has_same_keys.
    destruct (negb _); [apply read_only_ret|].
    destruct (rep_keys_differ _ _); [apply read_only_ret|].
    apply read_only_bind; [apply read_only_listdir_data|]. intros files.
    destruct (negb _); apply read_only_ret.
Qed.

(** ** Restoring primaries where there is no replica *)

Lemma int_error (s : string) (e : exn) : int s = Err e -> e = ValueError.
Proof.
  unfold int. destruct (strip_space _) as [|c r].
  - simpl. by intros [= <-].
  - destruct c as [[] [] [] [] [] [] [] []];
      destruct (int_body_ok false _); try discriminate; by intros [= <-].
Qed.

Lemma map_res_error {A B} (f : A -> res B) (l : list A) (e e0 : exn) :
  (forall x e', f x = Err e' -> e' = e0) -> map_res f l = Err e -> e = e0.
Proof.
  intros Hf. induction l as [|x l IH]; simpl; [discriminate|].
  destruct (f x) as [y|e'] eqn:Hx; simpl.
  - destruct (map_res f l) as [ys|e'']; simpl; [discriminate|].
    intros [= <-]. by apply IH.
  - intros [= <-]. by eapply Hf.
Qed.

Section Restore.

Variable listdir : gmap string text -> list string.
Hypothesis listdir_perm : forall d, listdir d ≡ₚ elements (dom d).

(** X21. Where the data directory holds no replica file and the primary
    files are not okay, [restore_primary_files], and so
    [sync_replication], cannot restore anything and changes nothing. If
    the directory is empty it raises the missing-files exception;
    otherwise the largest replica shard number is taken of an empty
    list (or a primary file name does not read as a number) and the
    method raises [ValueError]. *)
Theorem restore_without_replicas (s : ShardHandler) (d : gmap string text) :
  data s = Some d ->
  (forall name, is_Some (d !! name) -> dashed name = false) ->
  primary_files_okay listdir s = (Ok false, s) ->
  let failure :=
    if decide (d = ∅) then Exception "Missing files cannot be recoved"
    else ValueError in
  restore_primary_files listdir s = (Err failure, s)
  /\ sync_replication listdir s = (Err failure, s).
Proof.
  intros Hd Hnone Hok failure.
  assert (Hrestore : restore_primary_files listdir s = (Err failure, s)).
  { unfold restore_primary_files.
    rewrite (bind_Ok _ _ s s (listdir d))
      by (unfold listdir_data; by rewrite Hd).
    subst failure. destruct (decide (d = ∅)) as [->|Hne].
    - assert (Hnil : listdir ∅ = []).
      { apply Permutation_nil_r. rewrite listdir_perm.
        by rewrite dom_empty_L, elements_empty. }
      rewrite Hnil. simpl.
      rewrite (bind_Ok _ _ s s tt)
        by (by rewrite (bind_Ok _ _ s s false)).
      by rewrite (bind_Ok _ _ s s false).
    - destruct (listdir d) as [|name names] eqn:Hls.
      { exfalso. apply Hne. apply map_empty. intros k.
        apply eq_None_not_Some. intros Hsome.
        assert (Hin : k ∈ listdir d)
          by (rewrite listdir_perm; by apply elem_of_elements, elem_of_dom).
        rewrite Hls in Hin. by apply elem_of_nil in Hin. }
      rewrite bind_unfold. simpl length. cbn [restore_loop].
      rewrite (bind_Ok _ _ s s false) by done.
      rewrite bind_unfold.
      assert (Hpass : restore_pass listdir s = (Err ValueError, s)).
      { unfold restore_pass.
        rewrite (bind_Ok _ _ s s (listdir d))
          by (unfold listdir_data; by rewrite Hd).
        assert (Hothers : filter (fun file => dashed file) (listdir d) = []).
        { apply elem_of_nil_inv.
          intros x [Hx%Is_true_true Hin]%list_elem_of_filter.
          rewrite listdir_perm in Hin.
          apply elem_of_elements, elem_of_dom, Hnone in Hin. congruence. }
        rewrite Hothers, bind_unfold. unfold lift.
        destruct (map_res _ _) as [nums|e] eqn:Hnums; [reflexivity|].
        f_equal. f_equal. eapply map_res_error; [|exact Hnums].
        intros x e'. apply int_error. }
      by rewrite Hpass. }
  split; [done|]. unfold sync_replication.
  rewrite (bind_Ok _ _ s s false) by done.
  by rewrite bind_unfold, Hrestore.
Qed.

End Restore.

Lemma restore_without_replicas_witness :
  let s := after (build_shards 2 (txt "hello world")) fresh in
  let damaged := set_data (delete "0.txt" <$> data s) s in
  let failure :=
    if decide (({["1.txt" := txt " world"]} : gmap string text) = ∅)
    then Exception "Missing files cannot be recoved"
    else ValueError in
  restore_primary_files listdir_sorted damaged = (Err failure, damaged)
  /\ sync_replication listdir_sorted damaged = (Err failure, damaged).
Proof.
  intros s damaged.
  apply (restore_without_replicas listdir_sorted listdir_sorted_perm damaged
           {["1.txt" := txt " world"]}).
  - vm_compute. reflexivity.
  - intros name [c Hc]. destruct (decide (name = "1.txt")) as [->|Hne];
      [reflexivity|].
    by rewrite lookup_singleton_ne in Hc.
  - vm_compute. reflexivity.
Defined.

(** ** The ranges a layout records *)

(** Prefix sums that start at 0 and grow strictly: the ranges
    [start .. end] recorded from them cover 0 to the last sum, and no
    two of them meet. *)
Lemma prefix_mono (q : nat -> Z) (n i j : nat) :
  (forall k, (k < n)%nat -> q k < q (S k)) ->
  (i <= j)%nat -> (j <= n)%nat -> q i <= q j.
Proof.
  intros Hq Hij. induction Hij as [|j Hij IH]; [lia|].
  intros Hj. pose proof (Hq j ltac:(lia)). lia.
Qed.

Lemma prefix_cover (q : nat -> Z) (n : nat) (x : Z) :
  q O = 0 -> (forall k, (k < n)%nat -> q k < q (S k)) ->
  (0 < n)%nat -> 0 <= x <= q n ->
  exists i, (i < n)%nat
            /\ (if q i =? 0 then q i else q i + 1) <= x <= q (S i).
Proof.
  intros H0 Hq. induction n as [|n IH]; [lia|]. intros _ Hx.
  destruct (decide (x <= q n)) as [Hle|Hgt].
  - destruct n as [|n].
    + exists O. rewrite H0. simpl. lia.
    + destruct IH as (i & Hi & Hrange); [intros k Hk; apply Hq; lia|lia|lia|].
      exists i. split; [lia|done].
  - exists n. split; [lia|].
    destruct (Z.eqb_spec (q n) 0); lia.
Qed.

Lemma prefix_disjoint (q : nat -> Z) (n i j : nat) (x : Z) :
  q O = 0 -> (forall k, (k < n)%nat -> q k < q (S k)) ->
  (i < j)%nat -> (j < n)%nat ->
  x <= q (S i) -> (if q j =? 0 then q j else q j + 1) <= x -> False.
Proof.
  intros H0 Hq Hij Hj Hi Hxj.
  pose proof (prefix_mono q n (S i) j Hq ltac:(lia) ltac:(lia)) as Hmono.
  pose proof (prefix_mono q n O i Hq ltac:(lia) ltac:(lia)) as Hpos.
  pose proof (Hq i ltac:(lia)).
  destruct (Z.eqb_spec (q j) 0); lia.
Qed.

Lemma prefix_len_grows (pieces : list text) (k : nat) :
  Forall (fun piece => piece <> []) pieces -> (k < length pieces)%nat ->
  len (concat (take k pieces)) < len (concat (take (S k) pieces)).
Proof.
  intros Hall Hk.
  destruct (lookup_lt_is_Some_2 pieces k Hk) as [piece Hpiece].
  rewrite (take_S_r _ _ _ Hpiece), concat_app. simpl.
  rewrite app_nil_r. unfold len. rewrite length_app.
  pose proof (proj1 (Forall_lookup _ _) Hall k piece Hpiece) as Hne.
  destruct piece; [done|]. simpl. lia.
Qed.

(** X5. When the text has at least as many characters as there are
    shards, no slice is empty, and the ranges the mapping of a layout
    records for its shards split the indices: every index from 0 to the
    length of the text lies in the range of exactly one shard. *)
Theorem recorded_ranges_partition (count : Z) (T : text)
    (pieces : list text) (pos L x : Z) :
  1 <= count <= len T -> _generate_sharded_data count T = Ok pieces ->
  0 <= x <= len T ->
  exists i e,
    0 <= i < count
    /\ mapping (layout pos pieces L) !! str i = Some e
    /\ start e <= x <= end_ e
    /\ forall j e', 0 <= j < count ->
         mapping (layout pos pieces L) !! str j = Some e' ->
         start e' <= x <= end_ e' -> j = i.
Proof.
  intros Hc Hsplit Hx.
  pose proof (split_pieces_nonempty _ _ _ Hc Hsplit) as Hall.
  destruct (split_pieces_inv count T pieces ltac:(lia) Hsplit)
    as (Hne & Hlen & Hcat).
  set (q := fun k : nat => len (concat (take k pieces))).
  assert (H0 : q O = 0) by done.
  assert (Hq : forall k, (k < length pieces)%nat -> q k < q (S k))
    by (intros k Hk; by apply prefix_len_grows).
  assert (Hn : q (length pieces) = len T)
    by (unfold q; by rewrite firstn_all, Hcat).
  assert (Hentry : forall k : nat, (k < length pieces)%nat ->
            mapping (layout pos pieces L) !! str (Z.of_nat k)
            = Some {| start := (if q k =? 0 then q k else q k + 1);
                      end_ := q (S k) |}).
  { intros k Hk.
    destruct (lookup_lt_is_Some_2 pieces k Hk) as [piece Hpiece].
    rewrite layout_primary_entry by (apply dashed_str; lia).
    by rewrite (shard_entry_lookup pieces k piece Hpiece). }
  destruct (prefix_cover q (length pieces) x H0 Hq) as (i & Hi & Hrange).
  { unfold len in Hlen. lia. }
  { by rewrite Hn. }
  exists (Z.of_nat i), {| start := (if q i =? 0 then q i else q i + 1);
                          end_ := q (S i) |}.
  split; [unfold len in Hlen; lia|]. split; [by apply Hentry|].
  split; [done|]. intros j e' Hj He' Hrange'.
  assert (Hjn : (Z.to_nat j < length pieces)%nat)
    by (unfold len in Hlen; lia).
  rewrite <- (Z2Nat.id j), (Hentry _ Hjn) in He' by lia.
  injection He' as <-. simpl in Hrange'.
  destruct (lt_eq_lt_dec (Z.to_nat j) i) as [[Hlt|Heq]|Hgt]; [|lia|].
  - exfalso.
    apply (prefix_disjoint q (length pieces) (Z.to_nat j) i x H0 Hq);
      [done|done|lia|lia].
  - exfalso.
    apply (prefix_disjoint q (length pieces) i (Z.to_nat j) x H0 Hq);
      [done|done|lia|lia].
Qed.

Lemma recorded_ranges_partition_witness :
  exists i e,
    0 <= i < 3
    /\ mapping (layout 11 [txt "hel"; txt "lo "; txt "world"] 1) !! str i
       = Some e
    /\ start e <= 5 <= end_ e
    /\ forall j e', 0 <= j < 3 ->
         mapping (layout 11 [txt "hel"; txt "lo "; txt "world"] 1) !! str j
         = Some e' ->
         start e' <= 5 <= end_ e' -> j = i.
Proof.
  apply (recorded_ranges_partition 3 (txt "hello world")
           [txt "hel"; txt "lo "; txt "world"] 11 1 5).
  - vm_compute. split; discriminate.
  - reflexivity.
  - vm_compute. split; discriminate.
Defined.

(** ** Shard information *)

Lemma str_not_empty (i : Z) : 0 <= i -> str i <> "".
Proof.
  intros Hi Hempty. destruct (str_numeral i Hi) as [[Hne _] _].
  rewrite Hempty in Hne. by apply Hne.
Qed.

Lemma get_shard_data_known (k : string) (e : meta) (s : ShardHandler) :
  k <> "" -> mapping s !! k = Some e ->
  get_shard_data (Some k) s
  = (Ok (Message ("Shard " +:+ k +:+ ": " +:+ repr_meta e)), s).
Proof.
  intros Hk He. destruct k as [|c k]; [done|].
  unfold get_shard_data.
  by rewrite (bind_Ok _ _ s s (Some e)) by (unfold gets; by rewrite He).
Qed.

Lemma get_shard_data_unknown (k : string) (s : ShardHandler) :
  k <> "" -> mapping s !! k = None ->
  get_shard_data (Some k) s
  = (Ok (Message ("Invalid shard ID. Valid shard IDs: "
                  +:+ repr_list (shard_ids (mapping s)))), s).
Proof.
  intros Hk He. destruct k as [|c k]; [done|].
  unfold get_shard_data.
  rewrite (bind_Ok _ _ s s None) by (unfold gets; by rewrite He).
  by rewrite (bind_Ok _ _ s s (shard_ids (mapping s))).
Qed.

(** X22. [get_shard_data] on a layout. Without an id, or with the empty
    string, it returns the mapping. For a shard it returns the line with
    the range of the shard, and for each of its replicas the line with
    that same range. For any other id it returns the invalid-id line,
    which lists the shard ids 0 to [len pieces - 1] and no replica id. *)
Theorem shard_data_of_layout (pos : Z) (pieces : list text) (L : Z) :
  let s := layout pos pieces L in
  get_shard_data None s = (Ok (AllShards (mapping s)), s)
  /\ get_shard_data (Some "") s = (Ok (AllShards (mapping s)), s)
  /\ (forall i, 0 <= i < len pieces ->
        exists e,
          mapping s !! str i = Some e
          /\ get_shard_data (Some (str i)) s
             = (Ok (Message ("Shard " +:+ str i +:+ ": " +:+ repr_meta e)), s)
          /\ forall l, 1 <= l <= L ->
               get_shard_data (Some (replica_key (str i) l)) s
               = (Ok (Message ("Shard " +:+ replica_key (str i) l +:+ ": "
                               +:+ repr_meta e)), s))
  /\ forall k, k <> "" -> mapping s !! k = None ->
       exists ids,
         get_shard_data (Some k) s
         = (Ok (Message ("Invalid shard ID. Valid shard IDs: "
                         +:+ repr_list ids)), s)
         /\ forall key, key ∈ ids <-> exists i, 0 <= i < len pieces
                                                 /\ key = str i.
Proof.
  intros s. split; [done|]. split; [done|]. split.
  - intros i Hi.
    destruct (index_piece pieces i Hi) as [piece Hpiece].
    pose proof (shard_entry_lookup pieces _ piece Hpiece) as He.
    rewrite Z2Nat.id in He by lia.
    rewrite <- (layout_primary_entry pos pieces L) in He
      by (apply dashed_str; lia).
    eexists. split; [exact He|].
    split; [apply get_shard_data_known; [apply str_not_empty; lia|done]|].
    intros l Hl.
    destruct (layout_mirrored pos pieces L i l Hi Hl)
      as (e & d & content & Hp & Hr & _).
    rewrite He in Hp. injection Hp as <-.
    apply get_shard_data_known; [|done].
    intros Hempty. pose proof (dashed_replica_key (str i) l) as Hdash.
    by rewrite Hempty in Hdash.
  - intros k Hk Hnone. exists (shard_ids (mapping s)).
    split; [by apply get_shard_data_unknown|].
    intros key. apply layout_shard_ids.
Qed.

(** ** Recording a replica: [_write_shard_mapping] with the flag *)

(** X23. [_write_shard_mapping] with the replication flag. An id without
    a dash raises [ValueError], and an id whose parent shard is not in
    the mapping raises [TypeError]; both leave the handler as it was.
    Otherwise the id gets the range of its parent: no other entry, no
    file and neither the running offset nor the map file changes, and
    the content passed is not looked at. On a layout, recording a replica
    that the layout holds changes nothing. *)
Theorem replica_mapping_write (num : string) (d : text) (s : ShardHandler) :
  (dashed num = false ->
   _write_shard_mapping num d true s = (Err ValueError, s))
  /\ (dashed num = true -> mapping s !! head_piece "-" num = None ->
      _write_shard_mapping num d true s = (Err TypeError, s))
  /\ (forall p, dashed num = true ->
        mapping s !! head_piece "-" num = Some p ->
        _write_shard_mapping num d true s
        = (Ok tt, set_mapping (<[num := p]> (mapping s)) s))
  /\ (forall pos pieces L i l,
        0 <= i < len pieces -> 1 <= l <= L ->
        s = layout pos pieces L -> num = replica_key (str i) l ->
        _write_shard_mapping num d true s = (Ok tt, s)).
Proof.
  assert (Hset : forall p, dashed num = true ->
            mapping s !! head_piece "-" num = Some p ->
            _write_shard_mapping num d true s
            = (Ok tt, set_mapping (<[num := p]> (mapping s)) s)).
  { intros [a b] Hdash Hp. unfold _write_shard_mapping. rewrite Hdash.
    rewrite (bind_Ok _ _ s s tt) by done.
    by rewrite (bind_Ok _ _ s s (Some (Meta a b)))
      by (unfold gets; by rewrite Hp). }
  split; [|split; [|split; [exact Hset|]]].
  - intros Hdash. unfold _write_shard_mapping. by rewrite Hdash.
  - intros Hdash Hp. unfold _write_shard_mapping. rewrite Hdash.
    rewrite (bind_Ok _ _ s s tt) by done.
    by rewrite (bind_Ok _ _ s s None) by (unfold gets; by rewrite Hp).
  - intros pos pieces L i l Hi Hl Hs Hnum.
    destruct (layout_mirrored pos pieces L i l Hi Hl)
      as (e & _ & _ & Hp & Hr & _).
    rewrite <- Hs in Hp, Hr.
    rewrite (Hset e); [| |].
    + f_equal. rewrite Hnum, insert_id by done. by destruct s.
    + rewrite Hnum. apply dashed_replica_key.
    + rewrite Hnum, head_piece_replica_key; [done|]. apply dashed_str. lia.
Qed.

(** ** Where the controller departs from its specification *)

(** C5. With more shards than characters the leading shards are empty,
    the running offset is still 0 when the next shard is written, and the
    test [last_char_position == 0] that stands for "first shard" gives it
    the start 0 again: shard 0 is recorded as [0, 0] and shard 1 as
    [0, 1], so that [shard[0].end + 1] is 1 and [shard[1].start] is 0. *)
Theorem offsets_overlap_after_empty_shard :
  let s := after (build_shards 2 (txt "a")) fresh in
  build_shards 2 (txt "a") fresh = (Ok None, s)
  /\ file s "0.txt" = Some (txt "") /\ file s "1.txt" = Some (txt "a")
  /\ mapping s !! "0" = Some {| start := 0; end_ := 0 |}
  /\ mapping s !! "1" = Some {| start := 0; end_ := 1 |}.
Proof. vm_compute. repeat split; reflexivity. Qed.

(** C1. [get_shard_ids] sorts the ids as strings, so from eleven
    primaries on shard 10 is read right after shard 1. Ten shards built
    from an eleven-character text read back as the text; after one
    [add_shard] the eleven shards hold one character each, in order, and
    [load_data_from_shards] returns them in the order 0, 1, 10, 2, ...,
    9, which is not the text. *)
Theorem rebalance_to_eleven_shards_reorders_text :
  let original := txt "abcdefghijk" in
  let s10 := after (build_shards 10 original) fresh in
  let s11 := after (add_shard listdir_sorted) s10 in
  load_data_from_shards s10 = (Ok original, s10)
  /\ add_shard listdir_sorted s10 = (Ok tt, s11)
  /\ file s11 "2.txt" = Some (txt "c") /\ file s11 "10.txt" = Some (txt "k")
  /\ shard_ids (mapping s11)
     = ["0"; "1"; "10"; "2"; "3"; "4"; "5"; "6"; "7"; "8"; "9"]
  /\ load_data_from_shards s11 = (Ok (txt "abkcdefghij"), s11).
Proof. vm_compute. repeat split; reflexivity. Qed.

(** C3. [restore_primary_files] copies [other_files[-1]], the replica
    file listed last, onto the primary numbered with the largest replica
    shard id. With eleven shards, one replication level and the primary
    of shard 10 missing, a listing in name order ends with [9-1.txt]:
    the new [10.txt] receives the content of shard 9. With two shards
    and the primary of shard 1 missing, a listing in descending name
    order ends with [0-1.txt]: the new [1.txt] receives the content of
    shard 0. *)
Theorem restore_copies_last_listed_replica :
  (let s := after (add_replication listdir_sorted)
              (after (build_shards 11 (txt "abcdefghijk")) fresh) in
   let damaged := set_data (delete "10.txt" <$> data s) s in
   let s' := after (restore_primary_files listdir_sorted) damaged in
   file s "10.txt" = Some (txt "k")
   /\ file damaged "10.txt" = None
   /\ file damaged "10-1.txt" = Some (txt "k")
   /\ file damaged "9-1.txt" = Some (txt "j")
   /\ last (filter (fun name => dashed name)
                   (default [] (listdir_sorted <$> data damaged)))
      = Some "9-1.txt"
   /\ restore_primary_files listdir_sorted damaged = (Ok tt, s')
   /\ file s' "10.txt" = Some (txt "j"))
  /\
  (let s := after (add_replication listdir_sorted)
              (after (build_shards 2 (txt "hello world")) fresh) in
   let damaged := set_data (delete "1.txt" <$> data s) s in
   let s' := after (restore_primary_files listdir_reversed) damaged in
   file s "1.txt" = Some (txt " world")
   /\ file damaged "1.txt" = None
   /\ file damaged "1-1.txt" = Some (txt " world")
   /\ file damaged "0-1.txt" = Some (txt "hello")
   /\ last (filter (fun name => dashed name)
                   (default [] (listdir_reversed <$> data damaged)))
      = Some "0-1.txt"
   /\ restore_primary_files listdir_reversed damaged = (Ok tt, s')
   /\ file s' "1.txt" = Some (txt "hello")).
Proof. vm_compute. repeat split; reflexivity. Qed.
